(** * LIN bus decoder: a shallow embedding of piripac/linbus

    Two source files are embedded.

    - [Proto] follows [src/proto/arduino/arduino.ino]: the frame validator
      ([frameChecksum], [setIdChecksumBits], [isFrameValid]).
    - [LinDecoder] follows the [lin_decoder] namespace of the decoder source
      ([Config::set], the frame ring buffer, the error flag register, the
      busy-wait primitives and the two-state interrupt handler); [Console]
      follows its [printErrorFlags].

    Machine integers are [Z] with the wrap-around of their C type written
    out ([u8], [u16], [u32]); bit operations are those of [Z]. *)

From Stdlib Require Import ZArith List Lia Bool.
From stdpp Require Import base option list.
From stdpp Require Import strings.
From Equations Require Import Equations.
Import ListNotations.
Local Open Scope Z_scope.

(** ** Fixed-width unsigned integers *)

Definition u8 (x : Z) : Z := x mod 256.
Definition u16 (x : Z) : Z := x mod 65536.
Definition u32 (x : Z) : Z := x mod 4294967296.

(** Truthiness of an integer used as a C condition. *)
Definition nonzero (x : Z) : bool := negb (x =? 0).

(** All byte values, for exhaustive checks over [uint8]. *)
Definition all_bytes : list Z := map Z.of_nat (seq 0 256).

(* ====================================================================== *)
(** ** The prototype sketch: frame validation *)
(* ====================================================================== *)

Module Proto.

(** [lin_decoder::RxFrameBuffer] as the sketch uses it: a byte array and a
    byte count.  Reading [bytes] outside the list yields 0 here (the C
    array read is only defined inside the array). *)
Record RxFrameBuffer := mkRxFrameBuffer {
  bytes : list Z;
  num_bytes : Z
}.

Definition byte_at (buffer : RxFrameBuffer) (i : nat) : Z :=
  default 0 (bytes buffer !! i).

(** [while (nBytes-- > 0) { sum += *(p++); }] with a [uint16] sum. *)
Fixpoint sum_bytes (buffer : RxFrameBuffer) (nBytes : nat) (p : nat) (sum : Z) : Z :=
  match nBytes with
  | O => sum
  | S nBytes' => sum_bytes buffer nBytes' (S p) (u16 (sum + byte_at buffer p))
  end.

(** The carry-folding loop of [frameChecksum]:
    [for (;;) { highByte = (uint8)(sum >> 8); if (!highByte) break;
                sum = (sum & 0xff) + highByte; }]. *)
Equations? fold_carry (sum : Z) : Z by wf (Z.to_nat (u16 sum)) lt :=
  fold_carry sum with Z.eq_dec (u8 (Z.shiftr sum 8)) 0 := {
    | left _ := sum
    | right _ := fold_carry (u16 (Z.land sum 255 + u8 (Z.shiftr sum 8))) }.
Proof.
  unfold u8, u16 in *.
  rewrite Z.shiftr_div_pow2 in * by lia.
  change 255 with (Z.ones 8). rewrite Z.land_ones by lia.
  change (2 ^ 8) with 256 in *.
  assert (sum mod 65536 = 256 * ((sum / 256) mod 256) + sum mod 256).
  { change 65536 with (256 * 256). rewrite Z.rem_mul_r by lia. lia. }
  pose proof (Z.mod_pos_bound sum 256 ltac:(lia)).
  pose proof (Z.mod_pos_bound (sum / 256) 256 ltac:(lia)).
  rewrite Z.mod_mod by lia.
  rewrite (Z.mod_small (_ + _) 65536) by lia.
  lia.
Qed.

(** [frameChecksum].  [kV2Checksum] is the function-local static read once
    from the configuration pin: true selects the LIN V2 formula. *)
Definition frameChecksum (kV2Checksum : bool) (buffer : RxFrameBuffer) : Z :=
  let startByte := if kV2Checksum then 0 else 1 in
  let nBytes := u8 (num_bytes buffer - (startByte + 1)) in
  let sum := sum_bytes buffer (Z.to_nat nBytes) (Z.to_nat startByte) 0 in
  let sum := fold_carry sum in
  u8 (Z.lnot sum).

(** [setIdChecksumBits], statement by statement; every variable is [uint8]. *)
Definition setIdChecksumBits (id : Z) : Z :=
  let p1_at_b7 := u8 (Z.lnot 0) in
  let p0_at_b6 := 0 in
  (* P1: id5, P0: id4 *)
  let shifter := u8 (Z.shiftl id 2) in
  let p1_at_b7 := Z.lxor p1_at_b7 shifter in
  let p0_at_b6 := Z.lxor p0_at_b6 shifter in
  (* P1: id4, P0: id3 *)
  let shifter := u8 (shifter + shifter) in
  let p1_at_b7 := Z.lxor p1_at_b7 shifter in
  (* P1: id3, P0: id2 *)
  let shifter := u8 (shifter + shifter) in
  let p1_at_b7 := Z.lxor p1_at_b7 shifter in
  let p0_at_b6 := Z.lxor p0_at_b6 shifter in
  (* P1: id2, P0: id1 *)
  let shifter := u8 (shifter + shifter) in
  let p0_at_b6 := Z.lxor p0_at_b6 shifter in
  (* P1: id1, P0: id0 *)
  let shifter := u8 (shifter + shifter) in
  let p1_at_b7 := Z.lxor p1_at_b7 shifter in
  let p0_at_b6 := Z.lxor p0_at_b6 shifter in
  Z.lor (Z.lor (Z.land p1_at_b7 128) (Z.land p0_at_b6 64)) (Z.land id 63).

(** [isFrameValid].  The serial-console line printed on a bad size is not
    part of the result and is left out. *)
Definition isFrameValid (kV2Checksum : bool) (buffer : RxFrameBuffer) : bool :=
  let n := num_bytes buffer in
  if negb (n =? 1) && ((n <? 3) || (n >? 10)) then false
  else
    let id_byte := byte_at buffer 0 in
    if negb (id_byte =? setIdChecksumBits id_byte) then false
    else if (n >? 1) && negb (byte_at buffer (Z.to_nat (n - 1)) =? frameChecksum kV2Checksum buffer)
    then false
    else true.

(** *** The validator as the specification words it *)

(** Folding the carry "until no carry remains", as a relation. *)
Inductive folds_to : Z -> Z -> Prop :=
| folds_done s : 0 <= s < 256 -> folds_to s s
| folds_step s r : 256 <= s -> folds_to (s mod 256 + s / 256) r -> folds_to s r.

(** The bytes the checksum ranges over: the frame without its last byte,
    from the identifier (enhanced) or from the byte after it (classic). *)
Definition checksum_range (enhanced : bool) (buffer : RxFrameBuffer) : list Z :=
  let n := Z.to_nat (num_bytes buffer) in
  drop (if enhanced then 0%nat else 1%nat) (take (n - 1)%nat (bytes buffer)).

(** The two parity bits of a six-bit identifier by the LIN rule, P1 above
    P0, as a number in [0, 4): P0 is the parity of identifier bits 0, 1, 2
    and 4; P1 is the inverted parity of bits 1, 3, 4 and 5. *)
Definition id_parity_bits (id6 : Z) : Z :=
  let bit := Z.testbit id6 in
  let p0 := xorb (xorb (bit 0) (bit 1)) (xorb (bit 2) (bit 4)) in
  let p1 := negb (xorb (xorb (bit 1) (bit 3)) (xorb (bit 4) (bit 5))) in
  2 * Z.b2z p1 + Z.b2z p0.

Definition well_formed (enhanced : bool) (buffer : RxFrameBuffer) : Prop :=
  let n := num_bytes buffer in
  let first := byte_at buffer 0 in
  let last := byte_at buffer (Z.to_nat (n - 1)) in
  (n = 1 \/ 3 <= n <= 10) /\
  Z.shiftr first 6 = id_parity_bits (Z.land first 63) /\
  (1 < n ->
   exists r, folds_to (foldr Z.add 0 (checksum_range enhanced buffer)) r /\
             last = Z.lxor r 255).

(** A buffer as the C type holds it: ten [uint8] slots, a [uint8] count. *)
Definition buffer_ok (buffer : RxFrameBuffer) : Prop :=
  length (bytes buffer) = 10%nat /\
  Forall (fun b => 0 <= b < 256) (bytes buffer) /\
  0 <= num_bytes buffer < 256.

End Proto.

(* ====================================================================== *)
(** ** The decoder: namespace [lin_decoder] *)
(* ====================================================================== *)

Module LinDecoder.

(** *** Declarations of the absent headers *)

(** Modelled from the spec: [LinFrame] (its header is not among the
    sources).  A frame is the ordered sequence of the bytes appended so
    far; [num_bytes] is its count, [reset] empties it, [append_byte] adds
    one byte at the end.  A frame holds up to [kMaxBytes] (10) bytes and
    is complete from [kMinBytes] (1) bytes on. *)
Definition LinFrame : Type := list Z.
Definition kMinBytes : Z := 1.
Definition kMaxBytes : Z := 10.
Definition num_bytes (f : LinFrame) : Z := Z.of_nat (length f).
Definition reset (f : LinFrame) : LinFrame := [].
Definition append_byte (value : Z) (f : LinFrame) : LinFrame := f ++ [value].

(** Modelled from the spec: the [errors] namespace (its header is not among
    the sources).  The error kinds are independent bits of one byte, taken
    here in the order of the table [kErrorBitNames]. *)
Module errors.
Definition FRAME_TOO_SHORT : Z := Z.shiftl 1 0.
Definition FRAME_TOO_LONG : Z := Z.shiftl 1 1.
Definition START_BIT : Z := Z.shiftl 1 2.
Definition STOP_BIT : Z := Z.shiftl 1 3.
Definition SYNC_BYTE : Z := Z.shiftl 1 4.
Definition BUFFER_OVERRUN : Z := Z.shiftl 1 5.
Definition OTHER : Z := Z.shiftl 1 6.
End errors.

(** *** Baud rate related parameters *)

Definition kDefaultBaud : Z := 9600.
Definition kMaxSpaceBits : Z := 6.

Record Config := mkConfig {
  baud_ : Z;
  prescaler_x64_ : bool;
  counts_per_bit_ : Z;
  counts_per_half_bit_ : Z;
  clock_ticks_per_bit_ : Z;
  clock_ticks_per_half_bit_ : Z;
  clock_ticks_per_until_start_bit_ : Z
}.

Section HardwareClock.

  (** [hardware_clock::kTicksPerMilli], declared in an absent header: the
      number of ticks of the free-running 16 bit clock per millisecond.
      The product with 1000 is taken in 32 bit unsigned arithmetic. *)
Variable kTicksPerMilli : Z.

  (** [Config::set].  Every derived field is a [uint8]; the assignments
      truncate.  All operands are non-negative, so C division is [/].
      The console line printed for an out-of-range request is left out. *)
Definition Config_set (baud : Z) : Config :=
    let baud := if (baud <? 1000) || (baud >? 20000) then kDefaultBaud else baud in
    let prescaler_x64 := baud <? 8000 in
    let prescaling := if prescaler_x64 then 64 else 8 in
    let counts_per_bit := u8 ((16000000 / prescaling) / baud) in
    let counts_per_half_bit := u8 (counts_per_bit / 2 + 2) in
    let clock_ticks_per_bit := u8 (u32 (kTicksPerMilli * 1000) / baud) in
    let clock_ticks_per_half_bit := u8 (clock_ticks_per_bit / 2) in
    let clock_ticks_per_until_start_bit := u8 (clock_ticks_per_bit * kMaxSpaceBits) in
    mkConfig baud prescaler_x64 counts_per_bit counts_per_half_bit
             clock_ticks_per_bit clock_ticks_per_half_bit
             clock_ticks_per_until_start_bit.

End HardwareClock.

(** The accessors of [Config]. *)
Definition baud (c : Config) : Z := baud_ c.
Definition counts_per_bit (c : Config) : Z := counts_per_bit_ c.
Definition counts_per_half_bit (c : Config) : Z := counts_per_half_bit_ c.
Definition clock_ticks_per_bit (c : Config) : Z := clock_ticks_per_bit_ c.
Definition clock_ticks_per_half_bit (c : Config) : Z := clock_ticks_per_half_bit_ c.
Definition clock_ticks_per_until_start_bit (c : Config) : Z :=
  clock_ticks_per_until_start_bit_ c.

(** *** The static state of the decoder *)

Module states.
Definition DETECT_BREAK : Z := 1.
Definition READ_DATA : Z := 2.
End states.

Definition kMaxFrameBuffers : Z := 8.

(** The private statics of [StateReadData]. *)
Record ReadData := mkReadData {
  rx_from_lin1_ : bool;
  bytes_read_ : Z;
  bits_read_in_byte_ : Z;
  byte_buffer_ : Z;
  byte_buffer_bit_mask_ : Z
}.

(** All file-level statics, the levels last driven on the two repeater
    outputs and the value last written to the tick timer.  The debugging
    strobes (break, sample, error, isr, gp) are pulsed and left low; they are
    not modelled.  [error_flags] is declared [boolean], an 8 bit unsigned
    integer in this code base, and holds the OR of the raised error bits. *)
Record Decoder := mkDecoder {
  config : Config;
  rx_frame_buffers : list LinFrame;
  head_frame_buffer : Z;
  tail_frame_buffer : Z;
  isr_marker : Z;
  state : Z;
  low_bits_counter_ : Z;
  read_data : ReadData;
  error_flags : Z;
  tx1_pin : bool;
  tx2_pin : bool;
  TCNT2 : Z
}.

Definition with_rx_frame_buffers (v : list LinFrame) (d : Decoder) : Decoder :=
  mkDecoder (config d) v (head_frame_buffer d) (tail_frame_buffer d) (isr_marker d)
    (state d) (low_bits_counter_ d) (read_data d) (error_flags d)
    (tx1_pin d) (tx2_pin d) (TCNT2 d).
Definition with_head_frame_buffer (v : Z) (d : Decoder) : Decoder :=
  mkDecoder (config d) (rx_frame_buffers d) v (tail_frame_buffer d) (isr_marker d)
    (state d) (low_bits_counter_ d) (read_data d) (error_flags d)
    (tx1_pin d) (tx2_pin d) (TCNT2 d).
Definition with_tail_frame_buffer (v : Z) (d : Decoder) : Decoder :=
  mkDecoder (config d) (rx_frame_buffers d) (head_frame_buffer d) v (isr_marker d)
    (state d) (low_bits_counter_ d) (read_data d) (error_flags d)
    (tx1_pin d) (tx2_pin d) (TCNT2 d).
Definition with_isr_marker (v : Z) (d : Decoder) : Decoder :=
  mkDecoder (config d) (rx_frame_buffers d) (head_frame_buffer d) (tail_frame_buffer d) v
    (state d) (low_bits_counter_ d) (read_data d) (error_flags d)
    (tx1_pin d) (tx2_pin d) (TCNT2 d).
Definition with_state (v : Z) (d : Decoder) : Decoder :=
  mkDecoder (config d) (rx_frame_buffers d) (head_frame_buffer d) (tail_frame_buffer d)
    (isr_marker d) v (low_bits_counter_ d) (read_data d) (error_flags d)
    (tx1_pin d) (tx2_pin d) (TCNT2 d).
Definition with_low_bits_counter (v : Z) (d : Decoder) : Decoder :=
  mkDecoder (config d) (rx_frame_buffers d) (head_frame_buffer d) (tail_frame_buffer d)
    (isr_marker d) (state d) v (read_data d) (error_flags d)
    (tx1_pin d) (tx2_pin d) (TCNT2 d).
Definition with_read_data (v : ReadData) (d : Decoder) : Decoder :=
  mkDecoder (config d) (rx_frame_buffers d) (head_frame_buffer d) (tail_frame_buffer d)
    (isr_marker d) (state d) (low_bits_counter_ d) v (error_flags d)
    (tx1_pin d) (tx2_pin d) (TCNT2 d).
Definition with_error_flags (v : Z) (d : Decoder) : Decoder :=
  mkDecoder (config d) (rx_frame_buffers d) (head_frame_buffer d) (tail_frame_buffer d)
    (isr_marker d) (state d) (low_bits_counter_ d) (read_data d) v
    (tx1_pin d) (tx2_pin d) (TCNT2 d).
Definition with_tx1_pin (v : bool) (d : Decoder) : Decoder :=
  mkDecoder (config d) (rx_frame_buffers d) (head_frame_buffer d) (tail_frame_buffer d)
    (isr_marker d) (state d) (low_bits_counter_ d) (read_data d) (error_flags d)
    v (tx2_pin d) (TCNT2 d).
Definition with_tx2_pin (v : bool) (d : Decoder) : Decoder :=
  mkDecoder (config d) (rx_frame_buffers d) (head_frame_buffer d) (tail_frame_buffer d)
    (isr_marker d) (state d) (low_bits_counter_ d) (read_data d) (error_flags d)
    (tx1_pin d) v (TCNT2 d).
Definition with_TCNT2 (v : Z) (d : Decoder) : Decoder :=
  mkDecoder (config d) (rx_frame_buffers d) (head_frame_buffer d) (tail_frame_buffer d)
    (isr_marker d) (state d) (low_bits_counter_ d) (read_data d) (error_flags d)
    (tx1_pin d) (tx2_pin d) v.

(** Slot access of [rx_frame_buffers].  The indices stay inside
    [0, kMaxFrameBuffers); outside the array the read yields the empty frame
    and the write does nothing. *)
Definition slot (d : Decoder) (i : Z) : LinFrame :=
  default [] (rx_frame_buffers d !! Z.to_nat i).
Definition with_slot (i : Z) (f : LinFrame) (d : Decoder) : Decoder :=
  with_rx_frame_buffers (<[Z.to_nat i := f]> (rx_frame_buffers d)) d.

(** *** ISR RX ring buffer *)

Definition setupBuffers (d : Decoder) : Decoder :=
  with_tail_frame_buffer 0 (with_head_frame_buffer 0 d).

Definition incrementTailFrameBuffer (d : Decoder) : Decoder :=
  let t := u8 (tail_frame_buffer d + 1) in
  with_tail_frame_buffer (if t >=? kMaxFrameBuffers then 0 else t) d.

Definition incrementHeadFrameBuffer (d : Decoder) : Decoder :=
  let h := u8 (head_frame_buffer d + 1) in
  with_head_frame_buffer (if h >=? kMaxFrameBuffers then 0 else h) d.

(** *** Error flags *)

Definition setErrorFlags (flags : Z) (d : Decoder) : Decoder :=
  with_error_flags (Z.lor (error_flags d) flags) d.

(** [getAndClearErrorFlags], between [cli] and [sei]. *)
Definition getAndClearErrorFlags (d : Decoder) : Z * Decoder :=
  (error_flags d, with_error_flags 0 d).

(** *** The input side of the hardware

    The interrupt handler reads three input registers: the two receive pins
    and the free-running 16 bit clock.  A [Poll] is what these registers
    hold at one instant the program looks at them; the [World] is the
    sequence of such instants still to come.  One poll is consumed

    - by the pin sample at the entry of a state handler,
    - by the reads that precede a busy-wait loop (base clock and, in
      [waitForResponseStartBit], the initial pin levels),
    - by each pass of a busy-wait loop.

    A computation that needs more polls than the world holds yields
    [None]. *)
Record Poll := mkPoll {
  rx1_pin : bool;
  rx2_pin : bool;
  ticksForIsr : Z
}.

Definition World : Type := list Poll.

Definition resetTickTimer (d : Decoder) : Decoder := with_TCNT2 0 d.

Definition setTimerToHalfTick (d : Decoder) : Decoder :=
  with_TCNT2 (counts_per_half_bit (config d)) d.

Definition isRxHigh (use_rx1 : bool) (p : Poll) : bool :=
  if use_rx1 then rx1_pin p else rx2_pin p.

(** The loops below all keep the tick timer reset; the caller applies
    [resetTickTimer] once for the whole wait. *)

Fixpoint wait_loop (clock_ticks base_clock : Z) (w : World) : option World :=
  match w with
  | [] => None
  | p :: w' =>
    let clock_diff := u16 (ticksForIsr p - base_clock) in
    if clock_diff >=? clock_ticks then Some w'
    else wait_loop clock_ticks base_clock w'
  end.

Definition wait (clock_ticks : Z) (w : World) : option World :=
  match w with
  | [] => None
  | p0 :: w' => wait_loop clock_ticks (ticksForIsr p0) w'
  end.

Fixpoint waitForRxLow_loop (max_clock_ticks base_clock : Z) (use_rx1 : bool)
    (w : World) : option (bool * World) :=
  match w with
  | [] => None
  | p :: w' =>
    if negb (isRxHigh use_rx1 p) then Some (true, w')
    else
      let clock_diff := u16 (ticksForIsr p - base_clock) in
      if clock_diff >=? max_clock_ticks then Some (false, w')
      else waitForRxLow_loop max_clock_ticks base_clock use_rx1 w'
  end.

Definition waitForRxLow (max_clock_ticks : Z) (use_rx1 : bool) (w : World)
    : option (bool * World) :=
  match w with
  | [] => None
  | p0 :: w' => waitForRxLow_loop max_clock_ticks (ticksForIsr p0) use_rx1 w'
  end.

Fixpoint waitForRxHigh_loop (max_clock_ticks base_clock : Z) (use_rx1 : bool)
    (w : World) : option (bool * World) :=
  match w with
  | [] => None
  | p :: w' =>
    if isRxHigh use_rx1 p then Some (true, w')
    else
      let clock_diff := u16 (ticksForIsr p - base_clock) in
      if clock_diff >=? max_clock_ticks then Some (false, w')
      else waitForRxHigh_loop max_clock_ticks base_clock use_rx1 w'
  end.

Definition waitForRxHigh (max_clock_ticks : Z) (use_rx1 : bool) (w : World)
    : option (bool * World) :=
  match w with
  | [] => None
  | p0 :: w' => waitForRxHigh_loop max_clock_ticks (ticksForIsr p0) use_rx1 w'
  end.

(** The loop of [waitForResponseStartBit]: channel 1 is looked at first,
    channel 2 only if channel 1 did not return, the clock only if neither
    did. *)
Fixpoint waitForResponseStartBit_loop (max_clock_ticks base_clock : Z)
    (state1 state2 : bool) (w : World) : option (Z * World) :=
  match w with
  | [] => None
  | p :: w' =>
    let new_state1 := rx1_pin p in
    if state1 && negb new_state1 then Some (1, w')
    else
      let new_state2 := rx2_pin p in
      if state2 && negb new_state2 then Some (2, w')
      else
        let clock_diff := u16 (ticksForIsr p - base_clock) in
        if clock_diff >=? max_clock_ticks then Some (0, w')
        else waitForResponseStartBit_loop max_clock_ticks base_clock
               new_state1 new_state2 w'
  end.

Definition waitForResponseStartBit (max_clock_ticks : Z) (w : World)
    : option (Z * World) :=
  match w with
  | [] => None
  | p0 :: w' =>
    waitForResponseStartBit_loop max_clock_ticks (ticksForIsr p0)
      (rx1_pin p0) (rx2_pin p0) w'
  end.

(** *** Detect-Break and Read-Data *)

Definition with_config (v : Config) (d : Decoder) : Decoder :=
  mkDecoder v (rx_frame_buffers d) (head_frame_buffer d) (tail_frame_buffer d)
    (isr_marker d) (state d) (low_bits_counter_ d) (read_data d) (error_flags d)
    (tx1_pin d) (tx2_pin d) (TCNT2 d).

Definition with_rx_from_lin1 (v : bool) (d : Decoder) : Decoder :=
  let r := read_data d in
  with_read_data (mkReadData v (bytes_read_ r) (bits_read_in_byte_ r)
                    (byte_buffer_ r) (byte_buffer_bit_mask_ r)) d.
Definition with_bytes_read (v : Z) (d : Decoder) : Decoder :=
  let r := read_data d in
  with_read_data (mkReadData (rx_from_lin1_ r) v (bits_read_in_byte_ r)
                    (byte_buffer_ r) (byte_buffer_bit_mask_ r)) d.
Definition with_bits_read_in_byte (v : Z) (d : Decoder) : Decoder :=
  let r := read_data d in
  with_read_data (mkReadData (rx_from_lin1_ r) (bytes_read_ r) v
                    (byte_buffer_ r) (byte_buffer_bit_mask_ r)) d.
Definition with_byte_buffer (v : Z) (d : Decoder) : Decoder :=
  let r := read_data d in
  with_read_data (mkReadData (rx_from_lin1_ r) (bytes_read_ r) (bits_read_in_byte_ r)
                    v (byte_buffer_bit_mask_ r)) d.
Definition with_byte_buffer_bit_mask (v : Z) (d : Decoder) : Decoder :=
  let r := read_data d in
  with_read_data (mkReadData (rx_from_lin1_ r) (bytes_read_ r) (bits_read_in_byte_ r)
                    (byte_buffer_ r) v) d.

Definition StateDetectBreak_enter (d : Decoder) : Decoder :=
  let d := with_state states.DETECT_BREAK d in
  let d := with_low_bits_counter 0 d in
  with_tx2_pin true d.

Definition StateReadData_enter (d : Decoder) (w : World) : option (Decoder * World) :=
  let d := with_state states.READ_DATA d in
  let d := with_bytes_read 0 d in
  let d := with_bits_read_in_byte 0 d in
  let d := with_slot (head_frame_buffer d) (reset (slot d (head_frame_buffer d))) d in
  let d := with_rx_from_lin1 true d in
  '(_, w) ← waitForRxLow 255 true w;
  let d := resetTickTimer d in
  Some (setTimerToHalfTick d, w).

Definition StateDetectBreak_handle_isr (d : Decoder) (w : World)
    : option (Decoder * World) :=
  match w with
  | [] => None
  | p :: w =>
    if rx1_pin p then
      let d := with_tx2_pin true d in
      Some (with_low_bits_counter 0 d, w)
    else
      (* Here RX is low (active). *)
      let d := with_tx2_pin false d in
      let d := with_low_bits_counter (u8 (low_bits_counter_ d + 1)) d in
      if low_bits_counter_ d <? 10 then Some (d, w)
      else
        (* Detected a break.  Wait for rx high and enter data reading. *)
        '(_, w) ← waitForRxHigh 255 true w;
        let d := resetTickTimer d in
        w ← wait (clock_ticks_per_half_bit (config d)) w;
        let d := with_tx2_pin true d in
        StateReadData_enter d w
  end.

(** The end of [StateReadData::handle_isr] taken when the frame in the head
    slot is kept: "Move to next frame in the ring buffer", with the overrun
    test. *)
Definition moveToNextFrame (d : Decoder) : Decoder :=
  let d := incrementHeadFrameBuffer d in
  if tail_frame_buffer d =? head_frame_buffer d then
    (* Frame buffer overrun. *)
    let d := setErrorFlags errors.BUFFER_OVERRUN d in
    incrementTailFrameBuffer d
  else d.

(** The wait of [StateReadData::handle_isr] for the start bit of a further
    byte: after sync and identifier either channel may answer and the one
    that does becomes the channel read from; later bytes are awaited on the
    current channel.  The result is [has_more_bytes], the new value of
    [rx_from_lin1_] and the rest of the world. *)
Definition waitForNextStartBit (c : Config) (bytes_read : Z) (rx_from_lin1 : bool)
    (w : World) : option (bool * bool * World) :=
  if bytes_read =? 2 then
    '(lin_channel_, w) ←
      waitForResponseStartBit (clock_ticks_per_until_start_bit c) w;
    Some (nonzero lin_channel_, negb (lin_channel_ =? 2), w)
  else
    '(has_more_bytes, w) ←
      waitForRxLow (clock_ticks_per_until_start_bit c) rx_from_lin1 w;
    Some (has_more_bytes, rx_from_lin1, w).

Definition StateReadData_handle_isr (d : Decoder) (w : World)
    : option (Decoder * World) :=
  match w with
  | [] => None
  | p :: w =>
    (* Sample the active channel and propagate to the other one. *)
    let is_rx_high := isRxHigh (rx_from_lin1_ (read_data d)) p in
    let d := if rx_from_lin1_ (read_data d)
             then with_tx2_pin is_rx_high d else with_tx1_pin is_rx_high d in
    if bits_read_in_byte_ (read_data d) =? 0 then
      (* Handle byte's start bit. *)
      if is_rx_high then
        let e := if bytes_read_ (read_data d) =? 0
                 then errors.SYNC_BYTE else errors.START_BIT in
        Some (StateDetectBreak_enter (setErrorFlags e d), w)
      else
        let d := with_bits_read_in_byte (u8 (bits_read_in_byte_ (read_data d) + 1)) d in
        let d := with_byte_buffer 0 d in
        Some (with_byte_buffer_bit_mask (Z.shiftl 1 0) d, w)
    else if bits_read_in_byte_ (read_data d) <=? 8 then
      (* Handle next data bit, lsb first. *)
      let d := if is_rx_high
               then with_byte_buffer
                      (Z.lor (byte_buffer_ (read_data d))
                             (byte_buffer_bit_mask_ (read_data d))) d
               else d in
      let d := with_byte_buffer_bit_mask
                 (u8 (Z.shiftl (byte_buffer_bit_mask_ (read_data d)) 1)) d in
      Some (with_bits_read_in_byte (u8 (bits_read_in_byte_ (read_data d) + 1)) d, w)
    else
      (* Here when in a stop bit. *)
      let d := with_bytes_read (u8 (bytes_read_ (read_data d) + 1)) d in
      let d := with_bits_read_in_byte 0 d in
      if negb is_rx_high then
        let e := if bytes_read_ (read_data d) =? 0
                 then errors.SYNC_BYTE else errors.STOP_BIT in
        Some (StateDetectBreak_enter (setErrorFlags e d), w)
      else if (bytes_read_ (read_data d) =? 1)
              && negb (byte_buffer_ (read_data d) =? 85) then
        Some (StateDetectBreak_enter (setErrorFlags errors.SYNC_BYTE d), w)
      else
        let d := if bytes_read_ (read_data d) =? 1 then d
                 else with_slot (head_frame_buffer d)
                        (append_byte (byte_buffer_ (read_data d))
                           (slot d (head_frame_buffer d))) d in
        '(has_more_bytes, rx_from_lin1, w) ←
          waitForNextStartBit (config d) (bytes_read_ (read_data d))
            (rx_from_lin1_ (read_data d)) w;
        let d := with_rx_from_lin1 rx_from_lin1 (resetTickTimer d) in
        if negb has_more_bytes then
          (* No more bytes in this frame. *)
          if bytes_read_ (read_data d) <? kMinBytes then
            Some (StateDetectBreak_enter (setErrorFlags errors.FRAME_TOO_SHORT d), w)
          else
            Some (StateDetectBreak_enter (moveToNextFrame d), w)
        else if num_bytes (slot d (head_frame_buffer d)) >=? kMaxBytes then
          Some (StateDetectBreak_enter (setErrorFlags errors.FRAME_TOO_LONG d), w)
        else Some (setTimerToHalfTick d, w)
  end.

(** *** The interrupt handler and the main-side accessors *)

(** [ISR(TIMER2_COMPA_vect)]. *)
Definition ISR (d : Decoder) (w : World) : option (Decoder * World) :=
  '(d, w) ←
    (if state d =? states.DETECT_BREAK then StateDetectBreak_handle_isr d w
     else if state d =? states.READ_DATA then StateReadData_handle_isr d w
     else Some (StateDetectBreak_enter (setErrorFlags errors.OTHER d), w));
  Some (with_isr_marker (u8 (isr_marker d + 1)) d, w).

(** [waitForIsrEnd]: the main context spins until [isr_marker] changes,
    that is, until the next interrupt handler has run to its end. *)
Definition waitForIsrEnd (d : Decoder) (w : World) : option (Decoder * World) :=
  ISR d w.

(** The part of [readNextFrame] between [cli] and [sei].  The result is the
    returned flag, the caller's frame after the call and the decoder. *)
Definition readNextFrame_locked (d : Decoder) (buffer : LinFrame)
    : bool * LinFrame * Decoder :=
  if negb (tail_frame_buffer d =? head_frame_buffer d) then
    let buffer := slot d (tail_frame_buffer d) in
    let d := incrementTailFrameBuffer d in
    (true, buffer, d)
  else (false, buffer, d).

(** [readNextFrame]. *)
Definition readNextFrame (d : Decoder) (w : World) (buffer : LinFrame)
    : option (bool * LinFrame * Decoder * World) :=
  '(d, w) ← waitForIsrEnd d w;
  let '(result, buffer, d) := readNextFrame_locked d buffer in
  Some (result, buffer, d, w).

(** The statics at program start: zero-initialised storage, eight empty
    frames. *)
Definition power_on : Decoder :=
  mkDecoder (mkConfig 0 false 0 0 0 0 0)
    (replicate (Z.to_nat kMaxFrameBuffers) ([] : LinFrame)) 0 0 0 0 0
    (mkReadData false 0 0 0 0) 0 false false 0.

(** [setup]: configuration, pins (both repeater outputs passive high),
    buffers, initial state, timer, error flags.  The console report is left
    out. *)
Definition setup (kTicksPerMilli : Z) (baud : Z) (d : Decoder) : Decoder :=
  let d := with_config (Config_set kTicksPerMilli baud) d in
  let d := with_tx2_pin true (with_tx1_pin true d) in
  let d := setupBuffers d in
  let d := StateDetectBreak_enter d in
  let d := with_TCNT2 0 d in
  with_error_flags 0 d.

(** Running the interrupt handler [n] times. *)
Fixpoint run_isr (n : nat) (d : Decoder) (w : World) : option (Decoder * World) :=
  match n with
  | O => Some (d, w)
  | S n' => '(d, w) ← ISR d w; run_isr n' d w
  end.

End LinDecoder.

(* ====================================================================== *)
(** ** Simulated bus traffic and ring-buffer scenarios *)
(* ====================================================================== *)

Module Sim.
Import LinDecoder.

(** Both lines idle (high) at clock value [t]. *)
Definition idle (t : Z) : Poll := mkPoll true true t.

(** One line at level [b], the other idle. *)
Definition level (on_lin1 : bool) (b : bool) : Poll :=
  if on_lin1 then mkPoll b true 0 else mkPoll true b 0.

(** A break on the master line as the decoder consumes it: ten bit-time
    samples low, the wait for the line to return high, the half-bit wait of
    [half_bit] clock ticks, and the wait for the start-bit edge of the sync
    byte. *)
Definition break_wave (half_bit : Z) : World :=
  replicate 10 (level true false)
  ++ [level true false; idle 0]
  ++ [idle 0; idle half_bit]
  ++ [idle 0; level true false].

(** The ten mid-bit samples of one byte: start bit, eight data bits least
    significant first, and the stop bit at level [stop]. *)
Definition byte_wave_stop (on_lin1 : bool) (value : Z) (stop : bool) : World :=
  level on_lin1 false
  :: map (fun i => level on_lin1 (Z.testbit value (Z.of_nat i))) (seq 0 8)
  ++ [level on_lin1 stop].

Definition byte_wave (on_lin1 : bool) (value : Z) : World :=
  byte_wave_stop on_lin1 value true.

(** No high-to-low transition on either line from one poll of [ps] to the
    next, the first poll being compared with the levels [state1] and
    [state2] seen before it. *)
Fixpoint no_falling_edge (state1 state2 : bool) (ps : list Poll) : bool :=
  match ps with
  | [] => true
  | p :: ps' =>
    negb (state1 && negb (rx1_pin p)) && negb (state2 && negb (rx2_pin p))
    && no_falling_edge (rx1_pin p) (rx2_pin p) ps'
  end.

(** Every poll of [ps] is taken before [max_clock_ticks] ticks have passed
    since [base_clock]. *)
Definition within_budget (max_clock_ticks base_clock : Z) (ps : list Poll) : bool :=
  forallb (fun p => u16 (ticksForIsr p - base_clock) <? max_clock_ticks) ps.

(** After a stop bit: the start-bit edge of a further byte. *)
Definition gap_next (on_lin1 : bool) : World := [idle 0; level on_lin1 false].

(** After a stop bit: silence until the clock has advanced by [timeout]. *)
Definition gap_end (timeout : Z) : World := [idle 0; idle timeout].

Fixpoint bytes_wave (timeout : Z) (on_lin1 : bool) (frame : list Z) : World :=
  match frame with
  | [] => gap_end timeout
  | b :: frame' =>
    gap_next on_lin1 ++ byte_wave on_lin1 b ++ bytes_wave timeout on_lin1 frame'
  end.

(** A whole frame sent by the master: break, sync byte, the bytes of
    [frame], silence. *)
Definition frame_wave (c : Config) (frame : list Z) : World :=
  break_wave (clock_ticks_per_half_bit c)
  ++ byte_wave true 85
  ++ bytes_wave (clock_ticks_per_until_start_bit c) true frame.

(** The number of interrupts [frame_wave] feeds. *)
Definition frame_ticks (frame : list Z) : nat := 10 + 10 * (1 + length frame).

(** The decoder after [setup] at the standard rate, with the 250 kHz
    clock of a 16 MHz processor prescaled by 64. *)
Definition decoder0 : Decoder := setup 250 9600 power_on.

(** A completed frame is pushed: the handler has assembled [f] in the head
    slot, moves to the next slot and re-enters Detect-Break. *)
Definition push (f : LinFrame) (d : Decoder) : Decoder :=
  StateDetectBreak_enter (moveToNextFrame (with_slot (head_frame_buffer d) f d)).

Definition pushes (fs : list LinFrame) (d : Decoder) : Decoder :=
  foldl (fun d f => push f d) d fs.

(** [n] calls of [readNextFrame] in a row, each handed the frame the
    previous call left in the caller's buffer; the flags and frames
    returned, in order. *)
Fixpoint read_frames (n : nat) (d : Decoder) (w : World) (buffer : LinFrame)
    : option (list (bool * LinFrame)) :=
  match n with
  | O => Some []
  | S n' =>
    '(result, buffer, d, w) ← readNextFrame d w buffer;
    rest ← read_frames n' d w buffer;
    Some ((result, buffer) :: rest)
  end.

(** The successor of a ring index, as both increment functions compute it. *)
Definition next_index (i : Z) : Z :=
  if u8 (i + 1) >=? kMaxFrameBuffers then 0 else u8 (i + 1).

(** The ring-buffer overrun property in the words of the specification:
    after the frames [fs] are pushed into the empty ring the drained mask
    is the overrun bit, and [readNextFrame] returns all of [fs] but the
    oldest, in push order, before it returns false. *)
Definition overrun_as_specified (d : Decoder) (fs : list LinFrame) (buffer : LinFrame) : Prop :=
  let d' := pushes fs d in
  fst (getAndClearErrorFlags d') = errors.BUFFER_OVERRUN /\
  exists last,
    read_frames (length fs) d' (replicate (length fs) (idle 0)) buffer
    = Some (map (pair true) (drop 1 fs) ++ [(false, last)]).

(** The decoder at the stop bit of the identifier byte 0x92 that follows
    the sync byte. *)
Definition at_identifier_stop_bit : Decoder :=
  with_read_data (mkReadData true 1 9 146 0) (with_state states.READ_DATA decoder0).

End Sim.

(* ====================================================================== *)
(** ** The ring buffer as a queue, and the decoder invariant *)
(* ====================================================================== *)

Module Queue.
Import LinDecoder Sim.

(** The indices of a ring as the declarations bound them: eight slots,
    head and tail inside [0, kMaxFrameBuffers). *)
Definition ring_ok (d : Decoder) : Prop :=
  length (rx_frame_buffers d) = Z.to_nat kMaxFrameBuffers /\
  0 <= head_frame_buffer d < kMaxFrameBuffers /\
  0 <= tail_frame_buffer d < kMaxFrameBuffers.

(** The number of completed frames waiting between tail and head. *)
Definition queued_count (d : Decoder) : Z :=
  (head_frame_buffer d - tail_frame_buffer d) mod kMaxFrameBuffers.

(** The completed frames waiting in the ring, oldest first: the slots from
    the tail up to the slot before the head. *)
Definition queued (d : Decoder) : list LinFrame :=
  map (fun k => slot d ((tail_frame_buffer d + Z.of_nat k) mod kMaxFrameBuffers))
      (seq 0 (Z.to_nat (queued_count d))).


(** What the handler relies on between interrupts: the ring indices are in
    range, no slot holds more than [kMaxBytes] bytes, and while a frame is
    being read its slot still has room for one byte. *)
Definition decoder_ok (d : Decoder) : Prop :=
  ring_ok d /\
  Forall (fun f => num_bytes f <= kMaxBytes) (rx_frame_buffers d) /\
  (state d = states.READ_DATA ->
   num_bytes (slot d (head_frame_buffer d)) < kMaxBytes).

End Queue.

(* ====================================================================== *)
(** ** Transformations of the input, and accumulated error raises *)
(* ====================================================================== *)

Module Bus.
Import LinDecoder Sim.

(** The same polls seen by a clock that started [offset] ticks earlier;
    the 16 bit counter wraps. *)
Definition shift_clock (offset : Z) (w : World) : World :=
  map (fun p => mkPoll (rx1_pin p) (rx2_pin p) (u16 (ticksForIsr p + offset))) w.

(** The same polls with both line levels inverted. *)
Definition invert (w : World) : World :=
  map (fun p => mkPoll (negb (rx1_pin p)) (negb (rx2_pin p)) (ticksForIsr p)) w.

(** The error kinds [es] raised one after the other. *)
Definition raise_all (es : list Z) (d : Decoder) : Decoder :=
  foldl (fun d e => setErrorFlags e d) d es.

(** The levels a pass of [waitForResponseStartBit] compares the next poll
    with, after the polls [ps] seen since the levels [state1], [state2]. *)
Fixpoint levels_after (state1 state2 : bool) (ps : list Poll) : bool * bool :=
  match ps with
  | [] => (state1, state2)
  | p :: ps' => levels_after (rx1_pin p) (rx2_pin p) ps'
  end.

End Bus.

(* ====================================================================== *)
(** ** Frames on the bus, and where the decoder stands inside a frame *)
(* ====================================================================== *)

Module Frames.
Import LinDecoder Sim.

(** The first nine mid-bit samples of a byte: start bit and data bits. *)
Definition bits_wave (on_lin1 : bool) (value : Z) : World :=
  level on_lin1 false
  :: map (fun i => level on_lin1 (Z.testbit value (Z.of_nat i))) (seq 0 8).

(** For each further byte: the stop bit of the byte before it, the
    start-bit edge, and its first nine samples. *)
Fixpoint more_wave (on_lin1 : bool) (data : list Z) : World :=
  match data with
  | [] => []
  | b :: data' =>
    [level on_lin1 true] ++ gap_next on_lin1 ++ bits_wave on_lin1 b
    ++ more_wave on_lin1 data'
  end.

(** A frame up to its last stop bit: break, sync byte and identifier on the
    master line, then the bytes of [data] on line 1 ([on_lin1], the master
    goes on) or on line 2 (a slave responds). *)
Definition exchange_wave (c : Config) (id : Z) (data : list Z) (on_lin1 : bool)
    : World :=
  break_wave (clock_ticks_per_half_bit c)
  ++ byte_wave true 85
  ++ gap_next true
  ++ bits_wave true id
  ++ (match data with
      | [] => [level true true]
      | b :: data' =>
        [level true true] ++ gap_next on_lin1 ++ bits_wave on_lin1 b
        ++ more_wave on_lin1 data' ++ [level on_lin1 true]
      end).

(** The number of interrupts [exchange_wave] feeds. *)
Definition exchange_ticks (data : list Z) : nat := 30 + 10 * length data.

(** The data-bit updates of the handler, folded over the sampled levels:
    the byte buffer and the bit mask after them. *)
Fixpoint collect (bits : list bool) (buffer mask : Z) : Z * Z :=
  match bits with
  | [] => (buffer, mask)
  | b :: bits' =>
    collect bits' (if b then Z.lor buffer mask else buffer) (u8 (Z.shiftl mask 1))
  end.

(** The decoder [d] is inside a frame begun from [d0]: it is in Read-Data,
    the head slot holds [stored], and configuration, indices, error flags
    and the other slots are those of [d0]. *)
Definition same_frame (d0 : Decoder) (stored : LinFrame) (d : Decoder) : Prop :=
  state d = states.READ_DATA /\
  config d = config d0 /\
  head_frame_buffer d = head_frame_buffer d0 /\
  tail_frame_buffer d = tail_frame_buffer d0 /\
  error_flags d = error_flags d0 /\
  rx_frame_buffers d
  = <[Z.to_nat (head_frame_buffer d0) := stored]> (rx_frame_buffers d0).

(** The decoder reads from line 1 or 2, has completed [bytes] bytes and
    taken [bits] samples of the current one. *)
Definition at_bit (on_lin1 : bool) (bytes bits : Z) (d : Decoder) : Prop :=
  rx_from_lin1_ (read_data d) = on_lin1 /\
  bytes_read_ (read_data d) = bytes /\
  bits_read_in_byte_ (read_data d) = bits.


(** One frame on the bus: identifier, further bytes, and whether these
    travel on line 1. *)
Definition Exchange : Type := Z * list Z * bool.



(** Exchanges one after the other, each followed by silence for the
    start-bit timeout of [c]. *)
Fixpoint traffic (c : Config) (xs : list Exchange) : World :=
  match xs with
  | [] => []
  | x :: xs' =>
    exchange_wave c x.1.1 x.1.2 x.2
    ++ gap_end (clock_ticks_per_until_start_bit c)
    ++ traffic c xs'
  end.


(** The decoder waits for a break, with a ring in order and timing values
    that fit the 16 bit clock. *)
Definition listening (d : Decoder) : Prop :=
  Queue.ring_ok d /\
  state d = states.DETECT_BREAK /\
  low_bits_counter_ d = 0 /\
  0 <= clock_ticks_per_half_bit (config d) < 65536 /\
  0 <= clock_ticks_per_until_start_bit (config d) < 65536.

End Frames.

(* ====================================================================== *)
(** ** The error report on the serial console *)
(* ====================================================================== *)

Module Console.
Import LinDecoder.

(** [struct BitName]. *)
Record BitName := mkBitName {
  mask : Z;
  name : string
}.

(** The table [kErrorBitNames]. *)
Definition kErrorBitNames : list BitName :=
  [ mkBitName errors.FRAME_TOO_SHORT "SHRT";
    mkBitName errors.FRAME_TOO_LONG "LONG";
    mkBitName errors.START_BIT "STRT";
    mkBitName errors.STOP_BIT "STOP";
    mkBitName errors.SYNC_BYTE "SYNC";
    mkBitName errors.BUFFER_OVERRUN "OVRN";
    mkBitName errors.OTHER "OTHR" ].

(** The loop of [printErrorFlags] over the rows of a table that are still
    to be visited.  The serial console is the text written so far:
    [sio::printchar] and [sio::print] append to it. *)
Fixpoint printErrorFlags_loop (table : list BitName) (lin_errors : Z)
    (any_printed : bool) (out : string) : string :=
  match table with
  | [] => out
  | row :: table' =>
    if nonzero (Z.land lin_errors (mask row)) then
      let out := if any_printed then out +:+ " " else out in
      let out := out +:+ name row in
      printErrorFlags_loop table' lin_errors true out
    else printErrorFlags_loop table' lin_errors any_printed out
  end.

(** [printErrorFlags]. *)
Definition printErrorFlags (lin_errors : Z) (out : string) : string :=
  printErrorFlags_loop kErrorBitNames lin_errors false out.

(** The names of the rows of [table] whose mask meets [lin_errors], in
    table order. *)
Definition names_of (table : list BitName) (lin_errors : Z) : list string :=
  name <$> filter (fun row => nonzero (Z.land lin_errors (mask row)) = true) table.

(** The text the loop adds after something was printed: every selected
    name preceded by one space. *)
Fixpoint spaced (names : list string) : string :=
  match names with
  | [] => EmptyString
  | n :: names' => " " +:+ n +:+ spaced names'
  end.

End Console.

(* ====================================================================== *)
(** ** Facts about the frame validator *)
(* ====================================================================== *)

(** ** Exhaustive checks over bytes *)

Lemma all_bytes_complete (b : Z) : 0 <= b < 256 -> In b all_bytes.
Proof.
  intros Hb. unfold all_bytes. apply in_map_iff.
  exists (Z.to_nat b). split; [lia|]. apply in_seq. lia.
Qed.

Lemma forall_bytes (P : Z -> bool) :
  forallb P all_bytes = true -> forall b, 0 <= b < 256 -> P b = true.
Proof.
  intros H b Hb. rewrite forallb_forall in H. apply H, all_bytes_complete, Hb.
Qed.

Module ProtoFacts.
Import Proto.

Lemma setIdChecksumBits_low_bits (b : Z) :
  0 <= b < 256 -> Z.land (setIdChecksumBits b) 63 = Z.land b 63.
Proof.
  intros Hb. apply Z.eqb_eq.
  apply (forall_bytes (fun b => Z.land (setIdChecksumBits b) 63 =? Z.land b 63));
    [vm_compute; reflexivity | exact Hb].
Qed.

Lemma setIdChecksumBits_idempotent (b : Z) :
  0 <= b < 256 -> setIdChecksumBits (setIdChecksumBits b) = setIdChecksumBits b.
Proof.
  intros Hb. apply Z.eqb_eq.
  apply (forall_bytes
           (fun b => setIdChecksumBits (setIdChecksumBits b) =? setIdChecksumBits b));
    [vm_compute; reflexivity | exact Hb].
Qed.

Lemma setIdChecksumBits_range (b : Z) :
  0 <= b < 256 -> 0 <= setIdChecksumBits b < 256.
Proof.
  intros Hb.
  assert (H : ((0 <=? setIdChecksumBits b) && (setIdChecksumBits b <? 256)) = true).
  { apply (forall_bytes
             (fun b => (0 <=? setIdChecksumBits b) && (setIdChecksumBits b <? 256)));
      [vm_compute; reflexivity | exact Hb]. }
  apply andb_true_iff in H. lia.
Qed.

(** The parity bits are those of the LIN standard:
    P0 = id0 xor id1 xor id2 xor id4 and P1 = not (id1 xor id3 xor id4 xor id5). *)
Lemma setIdChecksumBits_parity (b : Z) :
  0 <= b < 256 ->
  Z.testbit (setIdChecksumBits b) 6 =
    xorb (xorb (Z.testbit b 0) (Z.testbit b 1)) (xorb (Z.testbit b 2) (Z.testbit b 4)) /\
  Z.testbit (setIdChecksumBits b) 7 =
    negb (xorb (xorb (Z.testbit b 1) (Z.testbit b 3)) (xorb (Z.testbit b 4) (Z.testbit b 5))).
Proof.
  intros Hb.
  assert (H : (Bool.eqb (Z.testbit (setIdChecksumBits b) 6)
                 (xorb (xorb (Z.testbit b 0) (Z.testbit b 1))
                       (xorb (Z.testbit b 2) (Z.testbit b 4)))
               && Bool.eqb (Z.testbit (setIdChecksumBits b) 7)
                 (negb (xorb (xorb (Z.testbit b 1) (Z.testbit b 3))
                             (xorb (Z.testbit b 4) (Z.testbit b 5))))) = true).
  { apply (forall_bytes
      (fun b => Bool.eqb (Z.testbit (setIdChecksumBits b) 6)
                 (xorb (xorb (Z.testbit b 0) (Z.testbit b 1))
                       (xorb (Z.testbit b 2) (Z.testbit b 4)))
               && Bool.eqb (Z.testbit (setIdChecksumBits b) 7)
                 (negb (xorb (xorb (Z.testbit b 1) (Z.testbit b 3))
                             (xorb (Z.testbit b 4) (Z.testbit b 5))))));
      [vm_compute; reflexivity | exact Hb]. }
  apply andb_true_iff in H. destruct H as [H6 H7].
  apply Bool.eqb_prop in H6, H7. split; assumption.
Qed.

(** The validator's identifier test, in the words of the specification:
    the shifter computation of [setIdChecksumBits] yields the LIN parity
    bits. *)
Lemma id_check_parity_bits (b : Z) :
  0 <= b < 256 ->
  (b =? setIdChecksumBits b) =
  (Z.shiftr b 6 =? id_parity_bits (Z.land b 63)).
Proof.
  intros Hb. apply Bool.eqb_prop.
  apply (forall_bytes
           (fun b => Bool.eqb (b =? setIdChecksumBits b)
                       (Z.shiftr b 6 =? id_parity_bits (Z.land b 63))));
    [vm_compute; reflexivity | exact Hb].
Qed.

(** C8: for every byte (so for each of the 64 identifiers in its low six
    bits) [setIdChecksumBits] keeps the low six bits, is idempotent, and an
    identifier-only frame carrying its output passes [isFrameValid]. *)
Theorem C8_id_parity_self_consistent (b : Z) (kV2Checksum : bool) (rest : list Z) :
  0 <= b < 256 ->
  Z.land (setIdChecksumBits b) 63 = Z.land b 63 /\
  setIdChecksumBits (setIdChecksumBits b) = setIdChecksumBits b /\
  isFrameValid kV2Checksum (mkRxFrameBuffer (setIdChecksumBits b :: rest) 1) = true.
Proof.
  intros Hb. split; [apply setIdChecksumBits_low_bits, Hb|].
  split; [apply setIdChecksumBits_idempotent, Hb|].
  unfold isFrameValid, byte_at. cbn [num_bytes bytes lookup list_lookup default from_option id].
  rewrite setIdChecksumBits_idempotent by exact Hb.
  rewrite !Z.eqb_refl. reflexivity.
Qed.

Lemma C8_witness :
  Z.land (setIdChecksumBits 0x12) 63 = Z.land 0x12 63 /\
  setIdChecksumBits (setIdChecksumBits 0x12) = setIdChecksumBits 0x12 /\
  isFrameValid false (mkRxFrameBuffer (setIdChecksumBits 0x12 :: []) 1) = true.
Proof. apply (C8_id_parity_self_consistent 0x12 false []). lia. Defined.


(** *** The checksum *)

Lemma fold_carry_unfold (s : Z) :
  fold_carry s =
  if Z.eq_dec (u8 (Z.shiftr s 8)) 0 then s
  else fold_carry (u16 (Z.land s 255 + u8 (Z.shiftr s 8))).
Proof.
  funelim (fold_carry s);
    match goal with H : Z.eq_dec _ _ = _ |- _ => rewrite H end; reflexivity.
Qed.

Lemma high_byte_u16 (s : Z) : 0 <= s < 65536 -> u8 (Z.shiftr s 8) = s / 256.
Proof.
  intros Hs. unfold u8. rewrite Z.shiftr_div_pow2 by lia.
  change (2 ^ 8) with 256. apply Z.mod_small.
  split; [apply Z.div_pos; lia | apply Z.div_lt_upper_bound; lia].
Qed.

Lemma low_byte (s : Z) : Z.land s 255 = s mod 256.
Proof. change 255 with (Z.ones 8). rewrite Z.land_ones by lia. reflexivity. Qed.

Lemma fold_carry_small (s : Z) : 0 <= s < 256 -> fold_carry s = s.
Proof.
  intros Hs. rewrite fold_carry_unfold, high_byte_u16 by lia.
  rewrite Z.div_small by lia. reflexivity.
Qed.

Lemma fold_carry_step (s : Z) :
  256 <= s < 65536 -> fold_carry s = fold_carry (s mod 256 + s / 256).
Proof.
  intros Hs. rewrite fold_carry_unfold, high_byte_u16, low_byte by lia.
  assert (1 <= s / 256 < 256).
  { split; [apply Z.div_le_lower_bound; lia | apply Z.div_lt_upper_bound; lia]. }
  pose proof (Z.mod_pos_bound s 256 ltac:(lia)).
  destruct (Z.eq_dec (s / 256) 0); [lia|].
  unfold u16. rewrite Z.mod_small by lia. reflexivity.
Qed.

Lemma fold_carry_folds (s : Z) : 0 <= s < 65536 -> folds_to s (fold_carry s).
Proof.
  induction s as [s IH] using (well_founded_induction (Z.lt_wf 0)).
  intros Hs. destruct (Z_lt_le_dec s 256) as [Hlt | Hge].
  - rewrite fold_carry_small by lia. apply folds_done. lia.
  - rewrite fold_carry_step by lia.
    assert (1 <= s / 256 < 256).
    { split; [apply Z.div_le_lower_bound; lia | apply Z.div_lt_upper_bound; lia]. }
    pose proof (Z.mod_pos_bound s 256 ltac:(lia)).
    pose proof (Z.div_mod s 256 ltac:(lia)).
    apply folds_step; [lia|]. apply IH; lia.
Qed.

Lemma folds_to_deterministic (s r r' : Z) :
  folds_to s r -> folds_to s r' -> r = r'.
Proof.
  intros H. revert r'. induction H as [s Hs | s r Hs _ IH]; intros r' H'.
  - inversion H'; subst; [reflexivity | lia].
  - inversion H'; subst; [lia | apply IH; assumption].
Qed.

Lemma folds_to_byte (s r : Z) : folds_to s r -> 0 <= r < 256.
Proof. induction 1; assumption. Qed.

(** The folded sum in closed form: the residue modulo 255 in [1, 255],
    except for the empty sum. *)
Lemma folds_to_mod_255 (s r : Z) :
  folds_to s r -> r = if s =? 0 then 0 else (s - 1) mod 255 + 1.
Proof.
  induction 1 as [s Hs | s r Hs _ IH].
  - destruct (Z.eqb_spec s 0); [assumption|]. rewrite Z.mod_small; lia.
  - pose proof (Z.mod_pos_bound s 256 ltac:(lia)).
    pose proof (Z.div_mod s 256 ltac:(lia)).
    assert (0 < s / 256) by (apply Z.div_str_pos; lia).
    rewrite IH.
    destruct (Z.eqb_spec (s mod 256 + s / 256) 0); [lia|].
    destruct (Z.eqb_spec s 0); [lia|].
    f_equal.
    replace (s - 1) with (s mod 256 + s / 256 - 1 + (s / 256) * 255) by lia.
    rewrite Z.mod_add by lia. reflexivity.
Qed.

Lemma complement_byte (r : Z) : 0 <= r < 256 -> u8 (Z.lnot r) = Z.lxor r 255.
Proof.
  intros Hr. apply Z.eqb_eq.
  apply (forall_bytes (fun r => u8 (Z.lnot r) =? Z.lxor r 255));
    [vm_compute; reflexivity | exact Hr].
Qed.

Lemma sum_bytes_spec (buffer : RxFrameBuffer) (k p : nat) (acc : Z) :
  Forall (fun b => 0 <= b < 256) (bytes buffer) ->
  (p + k <= length (bytes buffer))%nat ->
  0 <= acc -> acc + 255 * Z.of_nat k < 65536 ->
  sum_bytes buffer k p acc
  = acc + foldr Z.add 0 (take k (drop p (bytes buffer))).
Proof.
  intros Hall. revert p acc.
  induction k as [|k IH]; intros p acc Hlen Hacc Hbound.
  - simpl. lia.
  - destruct (lookup_lt_is_Some_2 (bytes buffer) p ltac:(lia)) as [x Hx].
    pose proof (Forall_lookup_1 _ _ _ _ Hall Hx) as Hxb. simpl in Hxb.
    rewrite (drop_S _ _ _ Hx). cbn [sum_bytes firstn foldr].
    unfold byte_at. rewrite Hx. cbn [default from_option id].
    unfold u16. rewrite Z.mod_small by lia.
    rewrite IH by lia. lia.
Qed.

Lemma foldr_add_bound (l : list Z) :
  Forall (fun b => 0 <= b < 256) l ->
  0 <= foldr Z.add 0 l <= 255 * Z.of_nat (length l).
Proof.
  induction 1 as [|x l Hx _ IH]; cbn [foldr length]; lia.
Qed.


Lemma byte_at_range (buffer : RxFrameBuffer) (i : nat) :
  Forall (fun b => 0 <= b < 256) (bytes buffer) -> 0 <= byte_at buffer i < 256.
Proof.
  intros Hall. unfold byte_at.
  destruct (bytes buffer !! i) as [x|] eqn:Hx; cbn [default from_option id]; [|lia].
  exact (Forall_lookup_1 _ _ _ _ Hall Hx).
Qed.

(** What [frameChecksum] returns on a frame of admissible size: the
    complement of the folded sum over [checksum_range]. *)
Lemma frameChecksum_spec (kV2Checksum : bool) (buffer : RxFrameBuffer) :
  buffer_ok buffer -> 3 <= num_bytes buffer <= 10 ->
  let s := foldr Z.add 0 (checksum_range kV2Checksum buffer) in
  folds_to s (fold_carry s) /\
  frameChecksum kV2Checksum buffer = Z.lxor (fold_carry s) 255.
Proof.
  intros (Hlen & Hall & Hn) Hsize s.
  set (start := if kV2Checksum then 0%nat else 1%nat).
  set (k := (Z.to_nat (num_bytes buffer) - 1 - start)%nat).
  assert (Hstart : (start <= 1)%nat) by (subst start; destruct kV2Checksum; lia).
  assert (Hrange : checksum_range kV2Checksum buffer
                   = take k (drop start (bytes buffer))).
  { unfold checksum_range. fold start. rewrite take_drop_commute.
    f_equal. f_equal. lia. }
  assert (Hs : 0 <= s < 65536).
  { subst s. rewrite Hrange.
    pose proof (foldr_add_bound (take k (drop start (bytes buffer)))
                  (Forall_take _ _ _ (Forall_drop _ _ _ Hall))) as Hb.
    rewrite length_take, length_drop in Hb. lia. }
  assert (Hsum : sum_bytes buffer k start 0 = s).
  { rewrite sum_bytes_spec; [subst s; rewrite Hrange; lia | assumption | lia | lia | lia]. }
  pose proof (fold_carry_folds s Hs) as Hfold.
  split; [exact Hfold|].
  unfold frameChecksum.
  replace (Z.to_nat (u8 (num_bytes buffer - ((if kV2Checksum then 0 else 1) + 1))))
    with k.
  2:{ unfold u8. subst k start. destruct kV2Checksum; rewrite Z.mod_small; lia. }
  replace (Z.to_nat (if kV2Checksum then 0 else 1)) with start
    by (subst start; destruct kV2Checksum; reflexivity).
  cbv zeta. rewrite Hsum.
  apply complement_byte. exact (folds_to_byte _ _ Hfold).
Qed.

(** C5: on a buffer as the decoder hands it over, [isFrameValid] accepts
    exactly the frames that are well-formed in the words of the
    specification: admissible size, identifier parity, and, beyond an
    identifier-only frame, the complemented carry-folded sum in the last
    byte (classic or enhanced range). *)
Theorem C5_isFrameValid_iff_well_formed (kV2Checksum : bool) (buffer : RxFrameBuffer) :
  buffer_ok buffer ->
  isFrameValid kV2Checksum buffer = true <-> well_formed kV2Checksum buffer.
Proof.
  intros Hok. pose proof Hok as (Hlen & Hall & Hn).
  unfold isFrameValid, well_formed. cbv zeta.
  pose proof (byte_at_range buffer 0 Hall) as Hfirst.
  rewrite (id_check_parity_bits _ Hfirst).
  rewrite !Z.gtb_ltb.
  destruct (Z.eqb_spec (num_bytes buffer) 1) as [H1 | H1];
    destruct (Z.ltb_spec (num_bytes buffer) 3) as [H3 | H3];
    destruct (Z.ltb_spec 10 (num_bytes buffer)) as [H10 | H10];
    cbn [negb andb orb];
    try (exfalso; lia);
    try (split; [discriminate | intros ([?|?] & _); lia]).
  - (* identifier-only frame *)
    destruct (Z.eqb_spec (Z.shiftr (byte_at buffer 0) 6)
                (id_parity_bits (Z.land (byte_at buffer 0) 63))) as [Hp | Hp];
      cbn [negb].
    + destruct (Z.ltb_spec 1 (num_bytes buffer)); [lia|]. cbn [andb].
      split; [intros _|reflexivity]. repeat split; [left; lia | exact Hp | lia].
    + split; [discriminate | intros (_ & Hp' & _); contradiction].
  - (* identifier, data and checksum *)
    destruct (frameChecksum_spec kV2Checksum buffer Hok ltac:(lia)) as [Hfold Hsum].
    rewrite Hsum.
    destruct (Z.eqb_spec (Z.shiftr (byte_at buffer 0) 6)
                (id_parity_bits (Z.land (byte_at buffer 0) 63))) as [Hp | Hp];
      cbn [negb].
    + destruct (Z.ltb_spec 1 (num_bytes buffer)); [|lia]. cbn [andb].
      destruct (Z.eqb_spec (byte_at buffer (Z.to_nat (num_bytes buffer - 1)))
                  (Z.lxor (fold_carry
                     (foldr Z.add 0 (checksum_range kV2Checksum buffer))) 255))
        as [Hc | Hc]; cbn [negb].
      * split; [intros _|reflexivity].
        repeat split; [right; lia | exact Hp |].
        intros _. eexists. split; [exact Hfold | exact Hc].
      * split; [discriminate|]. intros (_ & _ & Hex).
        destruct (Hex ltac:(lia)) as (r & Hr & Hlast).
        rewrite (folds_to_deterministic _ _ _ Hr Hfold) in Hlast. contradiction.
    + split; [discriminate | intros (_ & Hp' & _); contradiction].
Qed.

(** Identifier 0x12 carries parity bits 10 (byte 0x92); with data byte
    0xAA the classic checksum is 0x55. *)
Lemma C5_witness :
  isFrameValid false (mkRxFrameBuffer [146; 170; 85; 0; 0; 0; 0; 0; 0; 0] 3) = true
  <-> well_formed false (mkRxFrameBuffer [146; 170; 85; 0; 0; 0; 0; 0; 0; 0] 3).
Proof.
  apply C5_isFrameValid_iff_well_formed.
  unfold buffer_ok; cbn [bytes num_bytes length].
  split; [reflexivity|]. split; [|lia].
  repeat (apply Forall_cons; split; [lia|]). apply Forall_nil_2.
Defined.

Example valid_classic_frame :
  isFrameValid false (mkRxFrameBuffer [146; 170; 85; 0; 0; 0; 0; 0; 0; 0] 3) = true.
Proof. vm_compute. reflexivity. Qed.

Example checksum_variants_differ :
  frameChecksum false (mkRxFrameBuffer [146; 170; 85; 0; 0; 0; 0; 0; 0; 0] 3) = 85 /\
  frameChecksum true (mkRxFrameBuffer [146; 170; 85; 0; 0; 0; 0; 0; 0; 0] 3) = 194.
Proof. vm_compute. split; reflexivity. Qed.

End ProtoFacts.

(* ====================================================================== *)
(** ** Facts about the decoder *)
(* ====================================================================== *)

Module ConfigFacts.
Import LinDecoder.

Lemma div_between (a b lo hi : Z) :
  0 < b -> b * lo <= a -> a < b * (hi + 1) -> lo <= a / b <= hi.
Proof.
  intros Hb Hlo Hhi. split.
  - apply Z.div_le_lower_bound; assumption.
  - apply Z.lt_succ_r. apply Z.div_lt_upper_bound; assumption.
Qed.

(** C7: a request outside [1000, 20000] is replaced by the default rate
    before anything is derived, so the whole configuration is that of 9600
    baud; a request inside the range is kept. *)
Theorem C7_baud_default_or_requested (kTicksPerMilli baud : Z) :
  0 <= baud < 65536 ->
  (baud < 1000 \/ 20000 < baud ->
   Config_set kTicksPerMilli baud = Config_set kTicksPerMilli kDefaultBaud /\
   LinDecoder.baud (Config_set kTicksPerMilli baud) = 9600) /\
  (1000 <= baud <= 20000 ->
   LinDecoder.baud (Config_set kTicksPerMilli baud) = baud).
Proof.
  intros _. unfold Config_set, LinDecoder.baud. rewrite Z.gtb_ltb. split.
  - intros Hout.
    assert (Hc : (baud <? 1000) || (20000 <? baud) = true).
    { apply orb_true_iff. destruct Hout; [left; apply Z.ltb_lt | right; apply Z.ltb_lt]; lia. }
    rewrite Hc. split; reflexivity.
  - intros Hin.
    assert (Hc : (baud <? 1000) || (20000 <? baud) = false).
    { apply orb_false_iff. split; apply Z.ltb_ge; lia. }
    rewrite Hc. reflexivity.
Qed.

Lemma C7_witness :
  (Config_set 250 500 = Config_set 250 kDefaultBaud /\
   LinDecoder.baud (Config_set 250 500) = 9600) /\
  LinDecoder.baud (Config_set 250 19200) = 19200.
Proof.
  split.
  - apply (C7_baud_default_or_requested 250 500); lia.
  - apply (C7_baud_default_or_requested 250 19200); lia.
Defined.

(** With 250 clock ticks per millisecond, the counts the handler is timed
    by are positive over the whole supported range, and each half-bit count
    is at most the full-bit count. *)
Lemma Config_set_bit_counts (baud : Z) :
  1000 <= baud <= 20000 ->
  let c := Config_set 250 baud in
  31 <= counts_per_bit c <= 250 /\
  17 <= counts_per_half_bit c <= counts_per_bit c /\
  12 <= clock_ticks_per_bit c <= 250 /\
  6 <= clock_ticks_per_half_bit c <= clock_ticks_per_bit c.
Proof.
  intros Hin. unfold Config_set, counts_per_bit, counts_per_half_bit,
    clock_ticks_per_bit, clock_ticks_per_half_bit. rewrite Z.gtb_ltb.
  replace ((baud <? 1000) || (20000 <? baud)) with false
    by (symmetry; apply orb_false_iff; split; apply Z.ltb_ge; lia).
  cbn [counts_per_bit_ counts_per_half_bit_ clock_ticks_per_bit_
       clock_ticks_per_half_bit_].
  change (u32 (250 * 1000)) with 250000.
  pose proof (div_between 250000 baud 12 250 ltac:(lia) ltac:(lia) ltac:(lia)) as Hq.
  assert (Hc : 31 <= 16000000 / (if baud <? 8000 then 64 else 8) / baud <= 250).
  { destruct (Z.ltb_spec baud 8000).
    - change (16000000 / 64) with 250000. apply div_between; lia.
    - change (16000000 / 8) with 2000000. apply div_between; lia. }
  unfold u8.
  rewrite (Z.mod_small (16000000 / _ / baud) 256) by lia.
  rewrite (Z.mod_small (250000 / baud) 256) by lia.
  set (c := 16000000 / (if baud <? 8000 then 64 else 8) / baud) in *.
  set (q := 250000 / baud) in *.
  clearbody c q. Z.to_euclidean_division_equations. lia.
Qed.

(** The start-bit timeout is six bit times truncated to eight bits: it
    vanishes exactly for the sixteen rates whose bit time is 128 ticks. *)
Lemma Config_set_until_start_bit_zero (baud : Z) :
  1000 <= baud <= 20000 ->
  clock_ticks_per_until_start_bit (Config_set 250 baud) = 0
  <-> 1938 <= baud <= 1953.
Proof.
  intros Hin. unfold Config_set, clock_ticks_per_until_start_bit. rewrite Z.gtb_ltb.
  replace ((baud <? 1000) || (20000 <? baud)) with false
    by (symmetry; apply orb_false_iff; split; apply Z.ltb_ge; lia).
  cbn [clock_ticks_per_until_start_bit_].
  change (u32 (250 * 1000)) with 250000. unfold kMaxSpaceBits.
  pose proof (div_between 250000 baud 12 250 ltac:(lia) ltac:(lia) ltac:(lia)) as Hq.
  unfold u8. rewrite (Z.mod_small (250000 / baud) 256) by lia.
  split.
  - intros Hz.
    assert (Hq128 : 250000 / baud = 128).
    { set (q := 250000 / baud) in *. clearbody q.
      Z.to_euclidean_division_equations. lia. }
    pose proof (Z.mul_div_le 250000 baud ltac:(lia)) as Hle.
    pose proof (Z.mul_succ_div_gt 250000 baud ltac:(lia)) as Hgt.
    rewrite Hq128 in Hle, Hgt. lia.
  - intros Hr.
    assert (Hq128 : 128 <= 250000 / baud <= 128) by (apply div_between; lia).
    replace (250000 / baud) with 128 by lia. reflexivity.
Qed.

(** C6, evaluated at the requested rate 1950 with 250 clock ticks per
    millisecond: the request is in range and kept, the bit time is 128
    clock ticks, and the start-bit timeout 6 * 128 = 768 is stored in eight
    bits as 0. *)
Theorem C6_until_start_bit_is_zero_at_1950 :
  let c := Config_set 250 1950 in
  LinDecoder.baud c = 1950 /\
  clock_ticks_per_bit c = 128 /\
  clock_ticks_per_until_start_bit c = 0.
Proof. vm_compute. repeat split; reflexivity. Qed.

(** The other tick rates a 16 MHz clock gives with an integral number of
    ticks per millisecond (prescaled by 8, or not at all) have a zero count
    inside the supported range as well. *)
Lemma Config_set_zero_count_other_tick_rates :
  clock_ticks_per_until_start_bit (Config_set 2000 15625) = 0 /\
  clock_ticks_per_bit (Config_set 16000 15625) = 0.
Proof. vm_compute. split; reflexivity. Qed.

End ConfigFacts.

Module WaitFacts.
Import LinDecoder Sim.

Lemma last_cons_default {A : Type} (l : list A) (x d d' : A) :
  List.last (x :: l) d = List.last (x :: l) d'.
Proof.
  revert x. induction l as [|y l IH]; intros x; [reflexivity|].
  change (List.last (y :: l) d = List.last (y :: l) d'). apply IH.
Qed.

(** A quiet prefix is skipped by the loop, which carries on with the levels
    of its last poll. *)
Lemma waitForResponseStartBit_loop_quiet
    (max_clock_ticks base_clock : Z) (quiet : list Poll) :
  forall (state1 state2 : bool) (w : World),
  no_falling_edge state1 state2 quiet = true ->
  within_budget max_clock_ticks base_clock quiet = true ->
  waitForResponseStartBit_loop max_clock_ticks base_clock state1 state2 (quiet ++ w)
  = waitForResponseStartBit_loop max_clock_ticks base_clock
      (rx1_pin (List.last quiet (mkPoll state1 state2 0)))
      (rx2_pin (List.last quiet (mkPoll state1 state2 0))) w.
Proof.
  induction quiet as [|q quiet IH]; intros state1 state2 w Hq Hb.
  - reflexivity.
  - cbn [no_falling_edge] in Hq. cbn [within_budget forallb] in Hb.
    apply andb_true_iff in Hq as [Hq Hrest].
    apply andb_true_iff in Hq as [H1 H2].
    apply andb_true_iff in Hb as [Ht Hb].
    apply negb_true_iff in H1, H2. apply Z.ltb_lt in Ht.
    cbn [app waitForResponseStartBit_loop]. rewrite H1, H2.
    replace (u16 (ticksForIsr q - base_clock) >=? max_clock_ticks) with false
      by (symmetry; rewrite Z.geb_leb; apply Z.leb_gt; exact Ht).
    rewrite (IH _ _ _ Hrest Hb).
    destruct quiet as [|q' quiet']; [reflexivity|].
    change (List.last (q :: q' :: quiet') (mkPoll state1 state2 0))
      with (List.last (q' :: quiet') (mkPoll state1 state2 0)).
    rewrite (last_cons_default quiet' q' (mkPoll state1 state2 0)
               (mkPoll (rx1_pin q) (rx2_pin q) 0)).
    reflexivity.
Qed.

(** The loop answers 0 only after a run of polls without a falling edge on
    either line. *)
Lemma waitForResponseStartBit_loop_timeout
    (max_clock_ticks base_clock : Z) (w : World) :
  forall (state1 state2 : bool) (w' : World),
  waitForResponseStartBit_loop max_clock_ticks base_clock state1 state2 w = Some (0, w') ->
  exists ps p, w = ps ++ p :: w' /\
             no_falling_edge state1 state2 (ps ++ [p]) = true /\
             max_clock_ticks <= u16 (ticksForIsr p - base_clock).
Proof.
  induction w as [|q w IH]; intros state1 state2 w' H.
  - discriminate H.
  - cbn [waitForResponseStartBit_loop] in H.
    destruct (state1 && negb (rx1_pin q)) eqn:H1; [discriminate H|].
    destruct (state2 && negb (rx2_pin q)) eqn:H2; [discriminate H|].
    destruct (u16 (ticksForIsr q - base_clock) >=? max_clock_ticks) eqn:Ht.
    + injection H as <-. exists [], q. cbn [app no_falling_edge].
      rewrite H1, H2. split; [reflexivity|]. split; [reflexivity|].
      rewrite Z.geb_leb in Ht. apply Z.leb_le in Ht. exact Ht.
    + destruct (IH _ _ _ H) as (ps & p & -> & Hq & Hp).
      exists (q :: ps), p. cbn [app no_falling_edge]. rewrite H1, H2.
      split; [reflexivity|]. split; [exact Hq | exact Hp].
Qed.

(** The busy-waits are bounded: once a poll shows the clock past the
    budget, they have returned. *)
Lemma waitForResponseStartBit_loop_returns
    (max_clock_ticks base_clock : Z) (ps : list Poll) (p : Poll) (w : World) :
  max_clock_ticks <= u16 (ticksForIsr p - base_clock) ->
  forall state1 state2 : bool,
  is_Some (waitForResponseStartBit_loop max_clock_ticks base_clock state1 state2
             (ps ++ p :: w)).
Proof.
  intros Hp. induction ps as [|q ps IH]; intros state1 state2;
    cbn [app waitForResponseStartBit_loop].
  - destruct (state1 && negb (rx1_pin p)); [eexists; reflexivity|].
    destruct (state2 && negb (rx2_pin p)); [eexists; reflexivity|].
    replace (u16 (ticksForIsr p - base_clock) >=? max_clock_ticks) with true
      by (symmetry; rewrite Z.geb_leb; apply Z.leb_le; exact Hp).
    eexists; reflexivity.
  - destruct (state1 && negb (rx1_pin q)); [eexists; reflexivity|].
    destruct (state2 && negb (rx2_pin q)); [eexists; reflexivity|].
    destruct (u16 (ticksForIsr q - base_clock) >=? max_clock_ticks);
      [eexists; reflexivity | apply IH].
Qed.

Lemma waitForRxLow_loop_returns
    (max_clock_ticks base_clock : Z) (use_rx1 : bool) (ps : list Poll) (p : Poll)
    (w : World) :
  max_clock_ticks <= u16 (ticksForIsr p - base_clock) ->
  is_Some (waitForRxLow_loop max_clock_ticks base_clock use_rx1 (ps ++ p :: w)).
Proof.
  intros Hp. induction ps as [|q ps IH]; cbn [app waitForRxLow_loop].
  - destruct (negb (isRxHigh use_rx1 p)); [eexists; reflexivity|].
    replace (u16 (ticksForIsr p - base_clock) >=? max_clock_ticks) with true
      by (symmetry; rewrite Z.geb_leb; apply Z.leb_le; exact Hp).
    eexists; reflexivity.
  - destruct (negb (isRxHigh use_rx1 q)); [eexists; reflexivity|].
    destruct (u16 (ticksForIsr q - base_clock) >=? max_clock_ticks);
      [eexists; reflexivity | exact IH].
Qed.

End WaitFacts.

Module ReadDataFacts.
Import LinDecoder Sim.

Ltac open_decoder d :=
  let rx := fresh "rx" in
  destruct d as [? ? ? ? ? ? ? [rx ? ? ? ?] ? ? ? ?]; destruct rx.

Ltac norm_decoder :=
  cbv beta iota zeta delta
    [with_config with_rx_frame_buffers with_head_frame_buffer with_tail_frame_buffer
     with_isr_marker with_state with_low_bits_counter with_read_data
     with_error_flags with_tx1_pin with_tx2_pin with_TCNT2
     with_rx_from_lin1 with_bytes_read with_bits_read_in_byte with_byte_buffer
     with_byte_buffer_bit_mask with_slot slot
     config rx_frame_buffers head_frame_buffer tail_frame_buffer isr_marker state
     low_bits_counter_ read_data error_flags tx1_pin tx2_pin TCNT2
     rx_from_lin1_ bytes_read_ bits_read_in_byte_ byte_buffer_ byte_buffer_bit_mask_
     setErrorFlags StateDetectBreak_enter resetTickTimer setTimerToHalfTick
     isRxHigh].

Ltac norm_decoder_in H :=
  cbv beta iota zeta delta
    [with_config with_rx_frame_buffers with_head_frame_buffer with_tail_frame_buffer
     with_isr_marker with_state with_low_bits_counter with_read_data
     with_error_flags with_tx1_pin with_tx2_pin with_TCNT2
     with_rx_from_lin1 with_bytes_read with_bits_read_in_byte with_byte_buffer
     with_byte_buffer_bit_mask with_slot slot
     config rx_frame_buffers head_frame_buffer tail_frame_buffer isr_marker state
     low_bits_counter_ read_data error_flags tx1_pin tx2_pin TCNT2
     rx_from_lin1_ bytes_read_ bits_read_in_byte_ byte_buffer_ byte_buffer_bit_mask_
     setErrorFlags StateDetectBreak_enter resetTickTimer setTimerToHalfTick
     isRxHigh] in H.

Lemma u8_small (x : Z) : 0 <= x < 256 -> u8 x = x.
Proof. intros H. apply Z.mod_small. exact H. Qed.

Ltac decide_tests :=
  repeat first
    [ progress change (0 + 1) with 1
    | progress change (1 + 1) with 2
    | rewrite u8_small by lia
    | rewrite Z.eqb_refl
    | rewrite (proj2 (Z.eqb_neq _ _)) by lia
    | rewrite (proj2 (Z.leb_gt _ _)) by lia
    | rewrite (proj2 (Z.ltb_lt _ _)) by lia
    | rewrite (proj2 (Z.ltb_ge _ _)) by lia ].

Lemma moveToNextFrame_record c s h t m st l r e t1 t2 tc :
  moveToNextFrame (mkDecoder c s h t m st l r e t1 t2 tc)
  = mkDecoder c s (next_index h)
      (if t =? next_index h then next_index t else t) m st l r
      (if t =? next_index h then Z.lor e errors.BUFFER_OVERRUN else e) t1 t2 tc.
Proof.
  unfold moveToNextFrame, incrementHeadFrameBuffer, incrementTailFrameBuffer,
    next_index.
  norm_decoder.
  destruct (t =? (if u8 (h + 1) >=? kMaxFrameBuffers then 0 else u8 (h + 1)));
    reflexivity.
Qed.

Ltac run_handler :=
  unfold StateReadData_handle_isr; norm_decoder;
  repeat match goal with H : _ = true |- _ => rewrite H
                    | H : _ = false |- _ => rewrite H end;
  repeat (decide_tests; cbn [negb andb orb]; cbv iota; norm_decoder);
  rewrite ?moveToNextFrame_record; cbv iota.

Ltac after_wait :=
  norm_decoder; rewrite ?moveToNextFrame_record; cbv iota;
  unfold kMinBytes; decide_tests; cbv iota.

(** Entering Read-Data starts a frame: no byte and no bit read yet, the
    head slot empty, line 1 the channel read from. *)
Lemma StateReadData_enter_starts_frame (d : Decoder) (w : World) (d' : Decoder)
    (w' : World) :
  (Z.to_nat (head_frame_buffer d) < length (rx_frame_buffers d))%nat ->
  StateReadData_enter d w = Some (d', w') ->
  state d' = states.READ_DATA /\
  bytes_read_ (read_data d') = 0 /\
  bits_read_in_byte_ (read_data d') = 0 /\
  rx_from_lin1_ (read_data d') = true /\
  head_frame_buffer d' = head_frame_buffer d /\
  slot d' (head_frame_buffer d') = [].
Proof.
  intros Hhead Henter. unfold StateReadData_enter in Henter.
  destruct (waitForRxLow 255 true w) as [[r w1]|]; [|discriminate Henter].
  cbn [mbind option_bind] in Henter. injection Henter as <- <-.
  destruct d as [? slots h ? ? ? ? [? ? ? ? ?] ? ? ? ?].
  norm_decoder_in Hhead. norm_decoder. unfold reset.
  rewrite list_lookup_insert_eq by exact Hhead.
  repeat split; reflexivity.
Qed.

(** The stop bit of the first byte, the byte not being the sync value. *)
Lemma stop_bit_sync_mismatch (d : Decoder) (p : Poll) (w : World) :
  8 < bits_read_in_byte_ (read_data d) ->
  isRxHigh (rx_from_lin1_ (read_data d)) p = true ->
  bytes_read_ (read_data d) = 0 ->
  byte_buffer_ (read_data d) <> 85 ->
  exists d',
    StateReadData_handle_isr d (p :: w) = Some (d', w) /\
    state d' = states.DETECT_BREAK /\
    error_flags d' = Z.lor (error_flags d) errors.SYNC_BYTE /\
    rx_frame_buffers d' = rx_frame_buffers d /\
    head_frame_buffer d' = head_frame_buffer d /\
    tail_frame_buffer d' = tail_frame_buffer d.
Proof.
  intros Hbits Hhigh Hfirst Hsync.
  open_decoder d; norm_decoder_in Hbits; norm_decoder_in Hhigh;
    norm_decoder_in Hfirst; norm_decoder_in Hsync; subst;
    run_handler; eexists; repeat split; reflexivity.
Qed.

(** The stop bit of the first byte, the byte being the sync value. *)
Lemma stop_bit_sync_match (d : Decoder) (p : Poll) (w : World)
    (more rx : bool) (w' : World) :
  8 < bits_read_in_byte_ (read_data d) ->
  isRxHigh (rx_from_lin1_ (read_data d)) p = true ->
  bytes_read_ (read_data d) = 0 ->
  byte_buffer_ (read_data d) = 85 ->
  waitForNextStartBit (config d) 1 (rx_from_lin1_ (read_data d)) w
  = Some (more, rx, w') ->
  exists d',
    StateReadData_handle_isr d (p :: w) = Some (d', w') /\
    rx_frame_buffers d' = rx_frame_buffers d /\
    (more = true -> num_bytes (slot d (head_frame_buffer d)) < kMaxBytes ->
     state d' = state d /\
     bytes_read_ (read_data d') = 1 /\
     error_flags d' = error_flags d /\
     head_frame_buffer d' = head_frame_buffer d).
Proof.
  intros Hbits Hhigh Hfirst Hsync Hwait.
  open_decoder d; norm_decoder_in Hbits; norm_decoder_in Hhigh;
    norm_decoder_in Hfirst; norm_decoder_in Hsync; norm_decoder_in Hwait; subst;
    run_handler; rewrite Hwait; cbn [mbind option_bind option_ret mret];
    after_wait.
  all: destruct more; cbn [negb]; cbv iota.
  all: try (eexists; split; [reflexivity|]; split; [reflexivity|];
            intros; discriminate).
  all: unfold num_bytes, kMaxBytes;
    destruct (Z.geb_spec (Z.of_nat (length (default [] (rx_frame_buffers0 !! Z.to_nat head_frame_buffer0)))) 10).
  all: eexists; split; [reflexivity|]; split; [reflexivity|]; intros _ Hlt;
    try (exfalso; unfold num_bytes, kMaxBytes in Hlt; lia).
  all: repeat split; reflexivity.
Qed.


(** The stop bit of any later byte: the byte goes to the end of the frame
    in the head slot. *)
Lemma stop_bit_appends (d : Decoder) (p : Poll) (w : World)
    (more rx : bool) (w' : World) :
  8 < bits_read_in_byte_ (read_data d) ->
  isRxHigh (rx_from_lin1_ (read_data d)) p = true ->
  0 < bytes_read_ (read_data d) < 255 ->
  waitForNextStartBit (config d) (bytes_read_ (read_data d) + 1)
    (rx_from_lin1_ (read_data d)) w
  = Some (more, rx, w') ->
  exists d',
    StateReadData_handle_isr d (p :: w) = Some (d', w') /\
    rx_frame_buffers d'
    = <[Z.to_nat (head_frame_buffer d) :=
          append_byte (byte_buffer_ (read_data d)) (slot d (head_frame_buffer d))]>
        (rx_frame_buffers d).
Proof.
  intros Hbits Hhigh Hlater Hwait.
  open_decoder d; norm_decoder_in Hbits; norm_decoder_in Hhigh;
    norm_decoder_in Hlater; norm_decoder_in Hwait;
    run_handler; rewrite Hwait; cbn [mbind option_bind option_ret mret];
    after_wait.
  all: destruct more; cbn [negb]; cbv iota;
    [destruct (num_bytes _ >=? kMaxBytes)|];
    eexists; split; reflexivity.
Qed.

(** The frame ends after the stop bit of a later byte: the ring is left as
    by [push] of the frame completed by that byte. *)
Lemma stop_bit_pushes (d : Decoder) (p : Poll) (w : World) (rx : bool) (w' : World) :
  8 < bits_read_in_byte_ (read_data d) ->
  isRxHigh (rx_from_lin1_ (read_data d)) p = true ->
  0 < bytes_read_ (read_data d) < 255 ->
  waitForNextStartBit (config d) (bytes_read_ (read_data d) + 1)
    (rx_from_lin1_ (read_data d)) w
  = Some (false, rx, w') ->
  let f := append_byte (byte_buffer_ (read_data d)) (slot d (head_frame_buffer d)) in
  exists d',
    StateReadData_handle_isr d (p :: w) = Some (d', w') /\
    rx_frame_buffers d' = rx_frame_buffers (push f d) /\
    head_frame_buffer d' = head_frame_buffer (push f d) /\
    tail_frame_buffer d' = tail_frame_buffer (push f d) /\
    error_flags d' = error_flags (push f d) /\
    state d' = state (push f d).
Proof.
  intros Hbits Hhigh Hlater Hwait f. subst f.
  open_decoder d; norm_decoder_in Hbits; norm_decoder_in Hhigh;
    norm_decoder_in Hlater; norm_decoder_in Hwait;
    run_handler; rewrite Hwait; cbn [mbind option_bind option_ret mret];
    after_wait; cbn [negb]; cbv iota.
  all: unfold push; norm_decoder; rewrite ?moveToNextFrame_record; cbv iota.
  all: eexists; repeat split; reflexivity.
Qed.

(** A sync byte followed by silence: the handler takes the frame-kept
    path; no too-short error is raised and the head index moves on. *)
Lemma sync_then_silence (d : Decoder) (p : Poll) (w : World) (rx : bool) (w' : World) :
  8 < bits_read_in_byte_ (read_data d) ->
  isRxHigh (rx_from_lin1_ (read_data d)) p = true ->
  bytes_read_ (read_data d) = 0 ->
  byte_buffer_ (read_data d) = 85 ->
  waitForNextStartBit (config d) 1 (rx_from_lin1_ (read_data d)) w
  = Some (false, rx, w') ->
  exists d',
    StateReadData_handle_isr d (p :: w) = Some (d', w') /\
    state d' = states.DETECT_BREAK /\
    head_frame_buffer d' = next_index (head_frame_buffer d) /\
    error_flags d'
    = (if tail_frame_buffer d =? next_index (head_frame_buffer d)
       then Z.lor (error_flags d) errors.BUFFER_OVERRUN else error_flags d).
Proof.
  intros Hbits Hhigh Hfirst Hsync Hwait.
  open_decoder d; norm_decoder_in Hbits; norm_decoder_in Hhigh;
    norm_decoder_in Hfirst; norm_decoder_in Hsync; norm_decoder_in Hwait; subst;
    run_handler; rewrite Hwait; cbn [mbind option_bind option_ret mret];
    after_wait; cbn [negb]; cbv iota.
  all: eexists; repeat split; reflexivity.
Qed.

(** A start bit sampled high: the error kind is chosen before the byte
    counter moves, so the first byte of a frame gives the sync-byte error. *)
Lemma start_bit_high (d : Decoder) (p : Poll) (w : World) :
  bits_read_in_byte_ (read_data d) = 0 ->
  isRxHigh (rx_from_lin1_ (read_data d)) p = true ->
  exists d',
    StateReadData_handle_isr d (p :: w) = Some (d', w) /\
    state d' = states.DETECT_BREAK /\
    error_flags d'
    = Z.lor (error_flags d)
        (if bytes_read_ (read_data d) =? 0
         then errors.SYNC_BYTE else errors.START_BIT).
Proof.
  intros Hbits Hhigh.
  open_decoder d; norm_decoder_in Hbits; norm_decoder_in Hhigh; subst;
    run_handler.
  all: eexists; repeat split; reflexivity.
Qed.

(** A stop bit sampled low: the byte counter has already been incremented
    when the error kind is chosen, so the kind is always the stop-bit one,
    also for the first byte of the frame. *)
Lemma stop_bit_low (d : Decoder) (p : Poll) (w : World) :
  8 < bits_read_in_byte_ (read_data d) ->
  isRxHigh (rx_from_lin1_ (read_data d)) p = false ->
  0 <= bytes_read_ (read_data d) < 255 ->
  exists d',
    StateReadData_handle_isr d (p :: w) = Some (d', w) /\
    state d' = states.DETECT_BREAK /\
    error_flags d' = Z.lor (error_flags d) errors.STOP_BIT.
Proof.
  intros Hbits Hlow Hcount.
  open_decoder d; norm_decoder_in Hbits; norm_decoder_in Hlow;
    norm_decoder_in Hcount; run_handler.
  all: eexists; repeat split; reflexivity.
Qed.


(** The stop bit of the identifier byte: the channel that answers is the
    channel read from afterwards. *)
Lemma stop_bit_selects_channel (d : Decoder) (p : Poll) (w : World)
    (more rx : bool) (w' : World) :
  8 < bits_read_in_byte_ (read_data d) ->
  isRxHigh (rx_from_lin1_ (read_data d)) p = true ->
  bytes_read_ (read_data d) = 1 ->
  waitForNextStartBit (config d) 2 (rx_from_lin1_ (read_data d)) w
  = Some (more, rx, w') ->
  exists d',
    StateReadData_handle_isr d (p :: w) = Some (d', w') /\
    rx_from_lin1_ (read_data d') = rx.
Proof.
  intros Hbits Hhigh Hid Hwait.
  open_decoder d; norm_decoder_in Hbits; norm_decoder_in Hhigh;
    norm_decoder_in Hid; norm_decoder_in Hwait; subst;
    change (1 + 1) with 2;
    run_handler; rewrite Hwait; cbn [mbind option_bind option_ret mret];
    after_wait.
  all: destruct more; cbn [negb]; cbv iota;
    [destruct (num_bytes _ >=? kMaxBytes)|];
    eexists; split; reflexivity.
Qed.

End ReadDataFacts.

Module RingFacts.
Import LinDecoder Sim.

(** C9: once the awaited interrupt handler has returned, [readNextFrame]
    on an empty ring (tail equal to head) returns false and hands the
    caller's frame back untouched; the head-slot copy and the tail step
    happen exactly when the ring is not empty, and then true is returned. *)
Theorem C9_readNextFrame_empty_leaves_buffer
    (d : Decoder) (w : World) (buffer : LinFrame) (d1 : Decoder) (w1 : World) :
  waitForIsrEnd d w = Some (d1, w1) ->
  (tail_frame_buffer d1 = head_frame_buffer d1 ->
   readNextFrame d w buffer = Some (false, buffer, d1, w1)) /\
  (tail_frame_buffer d1 <> head_frame_buffer d1 ->
   readNextFrame d w buffer
   = Some (true, slot d1 (tail_frame_buffer d1), incrementTailFrameBuffer d1, w1)).
Proof.
  intros Hisr. unfold readNextFrame. rewrite Hisr.
  cbn [mbind option_bind]. unfold readNextFrame_locked. split; intros H.
  - rewrite H, Z.eqb_refl. reflexivity.
  - rewrite (proj2 (Z.eqb_neq _ _) H). reflexivity.
Qed.

Lemma C9_witness :
  readNextFrame decoder0 [idle 0] [7]
  = Some (false, [7], with_isr_marker 1 decoder0, []).
Proof.
  apply (C9_readNextFrame_empty_leaves_buffer decoder0 [idle 0] [7]
           (with_isr_marker 1 decoder0) []).
  - vm_compute. reflexivity.
  - vm_compute. reflexivity.
Defined.

(** C1, as the code has it: the head slot is the frame under assembly, so
    the ring keeps [kMaxFrameBuffers - 1] completed frames.  Pushing nine
    frames into an empty ring raises the overrun bit on the eighth push and
    again on the ninth (seen by draining in between); the drained mask is
    that one bit; the two oldest frames are gone, and [readNextFrame]
    returns the seven most recent frames in push order, then false with the
    caller's frame left as the last read. *)
Theorem C1_overrun_after_nine_pushes
    (d : Decoder) (f1 f2 f3 f4 f5 f6 f7 f8 f9 buffer : LinFrame) :
  length (rx_frame_buffers d) = Z.to_nat kMaxFrameBuffers ->
  0 <= head_frame_buffer d < kMaxFrameBuffers ->
  tail_frame_buffer d = head_frame_buffer d ->
  error_flags d = 0 ->
  let d7 := pushes [f1; f2; f3; f4; f5; f6; f7] d in
  let d8 := push f8 d7 in
  let d9 := push f9 d8 in
  error_flags d7 = 0 /\
  error_flags d8 = errors.BUFFER_OVERRUN /\
  error_flags (push f9 (snd (getAndClearErrorFlags d8))) = errors.BUFFER_OVERRUN /\
  fst (getAndClearErrorFlags d9) = errors.BUFFER_OVERRUN /\
  read_frames 8 d9 (replicate 8 (idle 0)) buffer
  = Some [(true, f3); (true, f4); (true, f5); (true, f6); (true, f7);
          (true, f8); (true, f9); (false, f9)].
Proof.
  intros Hlen Hhead Htail Hflags.
  destruct d as [c slots h t m st l r e t1 t2 tc].
  cbn in Hlen, Hhead, Htail, Hflags. subst t e.
  do 8 (destruct slots as [|? slots]; [discriminate Hlen|]).
  destruct slots; [|discriminate Hlen]. clear Hlen.
  unfold kMaxFrameBuffers in Hhead.
  assert (Hcases : h = 0 \/ h = 1 \/ h = 2 \/ h = 3 \/ h = 4 \/ h = 5 \/ h = 6 \/ h = 7)
    by lia.
  decompose [or] Hcases; subst h; vm_compute; repeat split; reflexivity.
Qed.

(** C1 as stated fails on the ring after [setup]: nine one-byte frames are
    pushed, and the reads do not return the eight most recent ones. *)
Lemma C1_counterexample :
  ~ overrun_as_specified decoder0 [[1]; [2]; [3]; [4]; [5]; [6]; [7]; [8]; [9]] [].
Proof.
  intros [_ [last H]]. vm_compute in H. discriminate H.
Qed.

Lemma C1_witness :
  read_frames 8 (pushes [[1]; [2]; [3]; [4]; [5]; [6]; [7]; [8]; [9]] decoder0)
    (replicate 8 (idle 0)) []
  = Some [(true, [3]); (true, [4]); (true, [5]); (true, [6]); (true, [7]);
          (true, [8]); (true, [9]); (false, [9])].
Proof.
  destruct (C1_overrun_after_nine_pushes decoder0
              [1] [2] [3] [4] [5] [6] [7] [8] [9] [])
    as (_ & _ & _ & _ & H).
  - reflexivity.
  - change (0 <= 0 < 8). lia.
  - reflexivity.
  - reflexivity.
  - exact H.
Defined.

(** Nine two-byte frames sent on the bus after [setup], decoded by the
    interrupt handler: the ring ends in the state nine pushes give. *)
Example nine_frames_on_the_bus :
  let frames := map (fun i => [Z.of_nat i; 0]) (seq 1 9) in
  let w := concat (map (frame_wave (config decoder0)) frames) in
  exists d,
    run_isr (9 * frame_ticks [0; 0]) decoder0 w = Some (d, []) /\
    rx_frame_buffers d = rx_frame_buffers (pushes frames decoder0) /\
    head_frame_buffer d = 1 /\ tail_frame_buffer d = 2 /\
    error_flags d = errors.BUFFER_OVERRUN.
Proof.
  eexists. split; [vm_compute; reflexivity|]. vm_compute. repeat split; reflexivity.
Qed.

End RingFacts.

Module DecoderFacts.
Import LinDecoder Sim WaitFacts ReadDataFacts RingFacts.

(** C2, evaluated on a break followed by a first byte whose stop bit is
    sampled low: the decoder is back in Detect-Break and the error raised
    is the stop-bit one, not the sync-byte one ([stop_bit_low] is the
    general statement). *)
Theorem C2_first_byte_stop_bit_low_raises_stop_bit :
  exists d,
    run_isr 20 decoder0
      (break_wave (clock_ticks_per_half_bit (config decoder0))
       ++ byte_wave_stop true 85 false)
    = Some (d, []) /\
    state d = states.DETECT_BREAK /\
    error_flags d = errors.STOP_BIT /\
    Z.land (error_flags d) errors.SYNC_BYTE = 0.
Proof.
  eexists. split; [vm_compute; reflexivity|]. vm_compute. repeat split; reflexivity.
Qed.

(** C3, evaluated on a break, the sync byte 0x55 and silence past the
    start-bit timeout: the decoder is back in Detect-Break, no error is
    raised, the head index has advanced, and the consumer reads a frame of
    zero bytes ([sync_then_silence] is the general statement). *)
Theorem C3_sync_then_silence_queues_empty_frame :
  exists d,
    run_isr 20 decoder0 (frame_wave (config decoder0) []) = Some (d, []) /\
    state d = states.DETECT_BREAK /\
    error_flags d = 0 /\
    head_frame_buffer d = 1 /\
    tail_frame_buffer d = 0 /\
    readNextFrame_locked d [7] = (true, [], incrementTailFrameBuffer d).
Proof.
  eexists. split; [vm_compute; reflexivity|]. vm_compute. repeat split; reflexivity.
Qed.

(** C4: at a stop bit sampled high the byte is complete.  The first byte
    is compared with 0x55 and never stored: on a mismatch the sync-byte
    error is raised and the decoder returns to Detect-Break with the ring
    unchanged; on a match nothing is stored and, when a further start bit
    arrives, decoding goes on in the same state without any error.  Every
    later byte is appended to the frame in the head slot. *)
Theorem C4_sync_byte_checked_not_stored (d : Decoder) (p : Poll) (w : World) :
  8 < bits_read_in_byte_ (read_data d) ->
  isRxHigh (rx_from_lin1_ (read_data d)) p = true ->
  let b := byte_buffer_ (read_data d) in
  let h := head_frame_buffer d in
  (bytes_read_ (read_data d) = 0 -> b <> 85 ->
   exists d',
     StateReadData_handle_isr d (p :: w) = Some (d', w) /\
     state d' = states.DETECT_BREAK /\
     error_flags d' = Z.lor (error_flags d) errors.SYNC_BYTE /\
     rx_frame_buffers d' = rx_frame_buffers d /\
     head_frame_buffer d' = h /\
     tail_frame_buffer d' = tail_frame_buffer d) /\
  (bytes_read_ (read_data d) = 0 -> b = 85 ->
   forall (more rx : bool) (w' : World),
     waitForNextStartBit (config d) 1 (rx_from_lin1_ (read_data d)) w
     = Some (more, rx, w') ->
     exists d',
       StateReadData_handle_isr d (p :: w) = Some (d', w') /\
       rx_frame_buffers d' = rx_frame_buffers d /\
       (more = true -> num_bytes (slot d h) < kMaxBytes ->
        state d' = state d /\
        bytes_read_ (read_data d') = 1 /\
        error_flags d' = error_flags d /\
        head_frame_buffer d' = h)) /\
  (0 < bytes_read_ (read_data d) < 255 ->
   forall (more rx : bool) (w' : World),
     waitForNextStartBit (config d) (bytes_read_ (read_data d) + 1)
       (rx_from_lin1_ (read_data d)) w
     = Some (more, rx, w') ->
     exists d',
       StateReadData_handle_isr d (p :: w) = Some (d', w') /\
       rx_frame_buffers d'
       = <[Z.to_nat h := append_byte b (slot d h)]> (rx_frame_buffers d)).
Proof.
  intros Hbits Hhigh b h. subst b h. repeat split.
  - intros Hfirst Hsync. apply stop_bit_sync_mismatch; assumption.
  - intros Hfirst Hsync more rx w' Hwait.
    apply (stop_bit_sync_match d p w more rx w'); assumption.
  - intros Hlater more rx w' Hwait.
    apply (stop_bit_appends d p w more rx w'); assumption.
Qed.

Lemma C4_witness :
  exists d',
    StateReadData_handle_isr at_identifier_stop_bit (idle 0 :: gap_next true)
    = Some (d', []) /\
    rx_frame_buffers d' = [[146]; []; []; []; []; []; []; []].
Proof.
  destruct (C4_sync_byte_checked_not_stored at_identifier_stop_bit (idle 0)
              (gap_next true)) as (_ & _ & H).
  - vm_compute. reflexivity.
  - reflexivity.
  - apply (H ltac:(vm_compute; split; reflexivity) true true []).
    vm_compute. reflexivity.
Defined.


(** C10: after polls without event, a pass of the loop that sees line 1
    fall returns 1 whatever line 2 does in that pass, so also when both
    fall; at the stop bit of the identifier byte the handler then reads on
    from line 1.  The answer 0 is given only after a run of polls without
    a falling edge on either line. *)
Theorem C10_response_race_prefers_lin1
    (max_clock_ticks : Z) (p0 : Poll) (quiet : list Poll) (p : Poll) (w : World) :
  no_falling_edge (rx1_pin p0) (rx2_pin p0) quiet = true ->
  within_budget max_clock_ticks (ticksForIsr p0) quiet = true ->
  rx1_pin (List.last quiet p0) = true ->
  rx1_pin p = false ->
  waitForResponseStartBit max_clock_ticks (p0 :: quiet ++ p :: w) = Some (1, w) /\
  (forall (d : Decoder) (ps : Poll),
     8 < bits_read_in_byte_ (read_data d) ->
     isRxHigh (rx_from_lin1_ (read_data d)) ps = true ->
     bytes_read_ (read_data d) = 1 ->
     clock_ticks_per_until_start_bit (config d) = max_clock_ticks ->
     exists d',
       StateReadData_handle_isr d (ps :: p0 :: quiet ++ p :: w) = Some (d', w) /\
       rx_from_lin1_ (read_data d') = true) /\
  (forall w0 w' : World,
     waitForResponseStartBit max_clock_ticks w0 = Some (0, w') ->
     exists p0' ps',
       w0 = p0' :: ps' ++ w' /\
       no_falling_edge (rx1_pin p0') (rx2_pin p0') ps' = true).
Proof.
  intros Hquiet Hbudget Hhigh Hlow.
  assert (Hret : waitForResponseStartBit max_clock_ticks (p0 :: quiet ++ p :: w)
                 = Some (1, w)).
  { unfold waitForResponseStartBit.
    rewrite (waitForResponseStartBit_loop_quiet _ _ _ _ _ _ Hquiet Hbudget).
    assert (Hlast : rx1_pin (List.last quiet (mkPoll (rx1_pin p0) (rx2_pin p0) 0))
                    = true).
    { destruct quiet as [|q quiet']; [exact Hhigh|].
      rewrite (last_cons_default quiet' q _ p0). exact Hhigh. }
    cbn [waitForResponseStartBit_loop]. rewrite Hlast, Hlow. reflexivity. }
  split; [exact Hret|]. split.
  - intros d ps Hbits Hsample Hid Hmax.
    apply (stop_bit_selects_channel d ps _ true true w); try assumption.
    unfold waitForNextStartBit. change (2 =? 2) with true. cbv iota.
    rewrite Hmax, Hret. reflexivity.
  - intros w0 w' H0. destruct w0 as [|p0' w0]; [discriminate H0|].
    unfold waitForResponseStartBit in H0.
    destruct (waitForResponseStartBit_loop_timeout _ _ _ _ _ _ H0)
      as (ps' & q & -> & Hno & _).
    exists p0', (ps' ++ [q]). split; [|exact Hno].
    rewrite <- app_assoc. reflexivity.
Qed.

(** Both lines fall in the same pass of the loop: the answer is 1. *)
Lemma C10_witness :
  waitForResponseStartBit 156 (idle 0 :: [idle 10] ++ mkPoll false false 20 :: [])
  = Some (1, []).
Proof.
  apply (C10_response_race_prefers_lin1 156 (idle 0) [idle 10]
           (mkPoll false false 20) []); reflexivity.
Defined.

End DecoderFacts.

(* ====================================================================== *)
(** ** Facts about the ring as a queue *)
(* ====================================================================== *)

Module QueueFacts.
Import LinDecoder Sim Queue.

Ltac ring_cases d :=
  let Hlen := fresh "Hlen" in
  let Hh := fresh "Hh" in
  let Ht := fresh "Ht" in
  destruct d as [c slots h t m st l r e t1 t2 tc];
  intros (Hlen & Hh & Ht);
  cbn [rx_frame_buffers head_frame_buffer tail_frame_buffer] in Hlen, Hh, Ht;
  do 8 (destruct slots as [|? slots]; [discriminate Hlen|]);
  destruct slots; [|discriminate Hlen]; clear Hlen;
  unfold kMaxFrameBuffers in Hh, Ht;
  assert (Hhc : h = 0 \/ h = 1 \/ h = 2 \/ h = 3 \/ h = 4 \/ h = 5 \/ h = 6 \/ h = 7)
    by lia;
  assert (Htc : t = 0 \/ t = 1 \/ t = 2 \/ t = 3 \/ t = 4 \/ t = 5 \/ t = 6 \/ t = 7)
    by lia;
  clear Hh Ht;
  decompose [or] Hhc; decompose [or] Htc; subst h t.

(** [push] on each of the sixty-four index pairs of a ring in order. *)
Lemma push_queued (f : LinFrame) (d : Decoder) :
  ring_ok d ->
  ring_ok (push f d) /\
  (queued_count d < kMaxFrameBuffers - 1 ->
   queued (push f d) = queued d ++ [f] /\
   error_flags (push f d) = error_flags d) /\
  (queued_count d = kMaxFrameBuffers - 1 ->
   queued (push f d) = drop 1 (queued d) ++ [f] /\
   error_flags (push f d) = Z.lor (error_flags d) errors.BUFFER_OVERRUN).
Proof.
  intros Hok. revert f. revert Hok. ring_cases d; intros f.
  all: split; [vm_compute; repeat split; congruence|].
  all: split; intros Hc; vm_compute in Hc; try discriminate Hc;
    try (exfalso; apply Hc; reflexivity);
    vm_compute; split; reflexivity.
Qed.

(** [readNextFrame_locked] on each of the sixty-four index pairs of a ring
    in order. *)
Lemma readNextFrame_locked_queued (d : Decoder) (buffer : LinFrame) :
  ring_ok d ->
  (queued d = [] /\ readNextFrame_locked d buffer = (false, buffer, d)) \/
  (exists f d',
     queued d = f :: queued d' /\
     readNextFrame_locked d buffer = (true, f, d') /\
     ring_ok d' /\
     error_flags d' = error_flags d /\
     state d' = state d).
Proof.
  intros Hok. revert buffer. revert Hok. ring_cases d; intros buffer.
  all: first
    [ left; split; vm_compute; reflexivity
    | right;
      match goal with
      | |- context [readNextFrame_locked ?D _] =>
        exists (slot D (tail_frame_buffer D)), (incrementTailFrameBuffer D)
      end;
      split; [vm_compute; reflexivity|];
      split; [vm_compute; reflexivity|];
      split; [vm_compute; repeat split; congruence|];
      split; reflexivity ].
Qed.

Lemma queued_length (d : Decoder) :
  Z.of_nat (length (queued d)) = queued_count d.
Proof.
  unfold queued. rewrite length_map, length_seq.
  unfold queued_count, kMaxFrameBuffers.
  pose proof (Z.mod_pos_bound (head_frame_buffer d - tail_frame_buffer d) 8 ltac:(lia)).
  lia.
Qed.

Lemma queued_count_bound (d : Decoder) : 0 <= queued_count d < kMaxFrameBuffers.
Proof. unfold queued_count, kMaxFrameBuffers. apply Z.mod_pos_bound. lia. Qed.

Lemma pushes_snoc (fs : list LinFrame) (f : LinFrame) (d : Decoder) :
  pushes (fs ++ [f]) d = push f (pushes fs d).
Proof. unfold pushes. rewrite foldl_app. reflexivity. Qed.

(** Pushing frames that fit queues them behind the waiting ones, in push
    order, and raises nothing. *)
Lemma pushes_queued (fs : list LinFrame) (d : Decoder) :
  ring_ok d ->
  queued_count d + Z.of_nat (length fs) <= kMaxFrameBuffers - 1 ->
  ring_ok (pushes fs d) /\
  queued (pushes fs d) = queued d ++ fs /\
  error_flags (pushes fs d) = error_flags d.
Proof.
  intros Hok. induction fs as [|f fs IH] using rev_ind; intros Hfit.
  - cbn [pushes foldl]. rewrite app_nil_r. repeat split; try apply Hok.
  - rewrite length_app in Hfit. cbn [length] in Hfit.
    destruct (IH ltac:(lia)) as (Hok' & Hq & He).
    rewrite pushes_snoc.
    destruct (push_queued f (pushes fs d) Hok') as (Hok'' & Hroom & _).
    assert (Hcount : queued_count (pushes fs d) < kMaxFrameBuffers - 1).
    { pose proof (queued_length d) as H1.
      pose proof (queued_length (pushes fs d)) as H2.
      rewrite Hq, length_app in H2. lia. }
    destruct (Hroom Hcount) as [Hq' He'].
    split; [exact Hok''|]. split.
    + rewrite Hq', Hq, <- app_assoc. reflexivity.
    + rewrite He', He. reflexivity.
Qed.


(** With line 1 high, an interrupt in Detect-Break touches neither the ring
    nor the error flags, and consumes the one poll it samples. *)
Lemma ISR_detect_break_high (d : Decoder) (p : Poll) (w : World) :
  state d = states.DETECT_BREAK ->
  rx1_pin p = true ->
  exists d',
    ISR d (p :: w) = Some (d', w) /\
    rx_frame_buffers d' = rx_frame_buffers d /\
    head_frame_buffer d' = head_frame_buffer d /\
    tail_frame_buffer d' = tail_frame_buffer d /\
    error_flags d' = error_flags d /\
    state d' = states.DETECT_BREAK.
Proof.
  intros Hst Hhigh. unfold ISR, StateDetectBreak_handle_isr.
  rewrite Hst, Hhigh. cbn [Z.eqb Pos.eqb states.DETECT_BREAK mbind option_bind].
  eexists. split; [reflexivity|]. destruct d. repeat split; assumption.
Qed.

Lemma queued_ext (d d' : Decoder) :
  rx_frame_buffers d' = rx_frame_buffers d ->
  head_frame_buffer d' = head_frame_buffer d ->
  tail_frame_buffer d' = tail_frame_buffer d ->
  queued d' = queued d /\ (ring_ok d -> ring_ok d').
Proof.
  intros Hs Hh Ht. unfold queued, queued_count, slot, ring_ok.
  rewrite Hs, Hh, Ht. split; [reflexivity | tauto].
Qed.

(** Reading a queue out: with the line idle, as many calls of
    [readNextFrame] as frames wait return them oldest first, and one more
    call returns false, the caller's buffer still holding the last frame
    read. *)
Lemma read_frames_queued (q : list LinFrame) :
  forall (d : Decoder) (buffer : LinFrame) (ps : list Poll) (w : World),
  ring_ok d ->
  state d = states.DETECT_BREAK ->
  queued d = q ->
  length ps = S (length q) ->
  Forall (fun p => rx1_pin p = true) ps ->
  read_frames (S (length q)) d (ps ++ w) buffer
  = Some (map (pair true) q ++ [(false, List.last q buffer)]).
Proof.
  induction q as [|f q IH]; intros d buffer ps w Hok Hst Hq Hlen Hhigh.
  - destruct ps as [|p [|? ?]]; try discriminate Hlen.
    apply Forall_cons in Hhigh as [Hp _].
    destruct (ISR_detect_break_high d p w Hst Hp)
      as (d1 & Hisr & Hs & Hh & Ht & He & Hst1).
    destruct (queued_ext d d1 Hs Hh Ht) as [Hq1 Hok1].
    cbn [read_frames length app]. unfold readNextFrame, waitForIsrEnd.
    rewrite Hisr. cbn [mbind option_bind].
    destruct (readNextFrame_locked_queued d1 buffer (Hok1 Hok))
      as [[_ Hread] | (f & d2 & Hq2 & _)].
    + rewrite Hread. reflexivity.
    + rewrite Hq1, Hq in Hq2. discriminate Hq2.
  - destruct ps as [|p ps]; [discriminate Hlen|].
    apply Forall_cons in Hhigh as [Hp Hhigh].
    destruct (ISR_detect_break_high d p (ps ++ w) Hst Hp)
      as (d1 & Hisr & Hs & Hh & Ht & He & Hst1).
    destruct (queued_ext d d1 Hs Hh Ht) as [Hq1 Hok1].
    change (read_frames (S (length (f :: q))) d ((p :: ps) ++ w) buffer)
      with ('(result, buffer', d', w') ← readNextFrame d (p :: ps ++ w) buffer;
            rest ← read_frames (S (length q)) d' w' buffer';
            Some ((result, buffer') :: rest)).
    unfold readNextFrame, waitForIsrEnd. rewrite Hisr. cbn [mbind option_bind].
    destruct (readNextFrame_locked_queued d1 buffer (Hok1 Hok))
      as [[Hempty _] | (f' & d2 & Hq2 & Hread & Hok2 & _ & Hst2)].
    + rewrite Hq1, Hq in Hempty. discriminate Hempty.
    + rewrite Hq1, Hq in Hq2. injection Hq2 as <- Hq2.
      rewrite Hread. cbn [mbind option_bind].
      rewrite (IH d2 f ps w Hok2 ltac:(congruence) (eq_sym Hq2)
                 ltac:(cbn [length] in Hlen; lia) Hhigh).
      cbn [mbind option_bind map app]. f_equal. f_equal. f_equal. f_equal.
      destruct q as [|f2 q]; [reflexivity|].
      change (List.last (f :: f2 :: q) buffer) with (List.last (f2 :: q) buffer).
      f_equal. apply WaitFacts.last_cons_default.
Qed.

(** The head slot is not among the waiting frames. *)
Lemma queued_head_slot (f : LinFrame) (d : Decoder) :
  ring_ok d -> queued (with_slot (head_frame_buffer d) f d) = queued d.
Proof.
  intros Hok. revert f. revert Hok. ring_cases d; intros f; vm_compute; reflexivity.
Qed.

Lemma pushes_state (fs : list LinFrame) (d : Decoder) :
  state d = states.DETECT_BREAK -> state (pushes fs d) = states.DETECT_BREAK.
Proof.
  intros Hst. induction fs as [|f fs IH] using rev_ind; [exact Hst|].
  rewrite pushes_snoc. reflexivity.
Qed.

(** The ring is a first-in first-out queue of seven frames: up to seven
    frames pushed into an empty ring raise no error and are read back by
    [readNextFrame] complete and in push order, after which it returns
    false. *)
Theorem ring_round_trip (fs : list LinFrame) (d : Decoder) (buffer : LinFrame) :
  ring_ok d ->
  state d = states.DETECT_BREAK ->
  tail_frame_buffer d = head_frame_buffer d ->
  (length fs <= 7)%nat ->
  error_flags (pushes fs d) = error_flags d /\
  read_frames (S (length fs)) (pushes fs d) (replicate (S (length fs)) (idle 0)) buffer
  = Some (map (pair true) fs ++ [(false, List.last fs buffer)]).
Proof.
  intros Hok Hst Hempty Hlen.
  assert (Hcount : queued_count d = 0).
  { unfold queued_count. rewrite Hempty, Z.sub_diag. reflexivity. }
  assert (Hq : queued d = []).
  { apply nil_length_inv. pose proof (queued_length d). lia. }
  destruct (pushes_queued fs d Hok) as (Hok' & Hq' & He).
  { rewrite Hcount. unfold kMaxFrameBuffers. lia. }
  split; [exact He|].
  rewrite Hq in Hq'. cbn [app] in Hq'.
  pose proof (read_frames_queued fs (pushes fs d) buffer
                (replicate (S (length fs)) (idle 0)) [] Hok'
                (pushes_state fs d Hst) Hq') as Hread.
  rewrite app_nil_r in Hread. apply Hread.
  - apply length_replicate.
  - apply Forall_replicate. reflexivity.
Qed.

Lemma ring_round_trip_witness :
  read_frames 3 (pushes [[1; 2]; [3]] decoder0) (replicate 3 (idle 0)) []
  = Some [(true, [1; 2]); (true, [3]); (false, [3])].
Proof.
  apply (ring_round_trip [[1; 2]; [3]] decoder0 []).
  - vm_compute. repeat split; congruence.
  - reflexivity.
  - reflexivity.
  - cbn [length]. lia.
Defined.

(** A push appends the frame to the queue while fewer than seven frames
    wait; on a full ring it drops the oldest frame, appends the new one and
    raises the overrun bit.  The indices stay in range. *)
Theorem push_is_enqueue (f : LinFrame) (d : Decoder) :
  ring_ok d ->
  ring_ok (push f d) /\
  (queued_count d < kMaxFrameBuffers - 1 ->
   queued (push f d) = queued d ++ [f] /\
   error_flags (push f d) = error_flags d) /\
  (queued_count d = kMaxFrameBuffers - 1 ->
   queued (push f d) = drop 1 (queued d) ++ [f] /\
   error_flags (push f d) = Z.lor (error_flags d) errors.BUFFER_OVERRUN).
Proof. apply push_queued. Qed.

Lemma push_is_enqueue_witness :
  queued (push [17; 4] (pushes [[1]; [2]] decoder0)) = [[1]; [2]; [17; 4]] /\
  error_flags (push [17; 4] (pushes [[1]; [2]] decoder0)) = 0.
Proof.
  destruct (push_is_enqueue [17; 4] (pushes [[1]; [2]] decoder0)) as (_ & H & _).
  - vm_compute. repeat split; congruence.
  - apply H. vm_compute. reflexivity.
Defined.

(** The locked part of [readNextFrame] takes the oldest waiting frame: on
    an empty queue it returns false and changes nothing; otherwise it
    returns true with the first frame of the queue and leaves the rest. *)
Theorem readNextFrame_is_dequeue (d : Decoder) (buffer : LinFrame) :
  ring_ok d ->
  (queued d = [] /\ readNextFrame_locked d buffer = (false, buffer, d)) \/
  (exists f d',
     queued d = f :: queued d' /\
     readNextFrame_locked d buffer = (true, f, d') /\
     ring_ok d' /\
     error_flags d' = error_flags d /\
     state d' = state d).
Proof. apply readNextFrame_locked_queued. Qed.

Lemma readNextFrame_is_dequeue_witness :
  (queued (pushes [[1]; [2]] decoder0) = [] /\
   readNextFrame_locked (pushes [[1]; [2]] decoder0) [9]
   = (false, [9], pushes [[1]; [2]] decoder0)) \/
  (exists f d',
     queued (pushes [[1]; [2]] decoder0) = f :: queued d' /\
     readNextFrame_locked (pushes [[1]; [2]] decoder0) [9] = (true, f, d') /\
     ring_ok d' /\
     error_flags d' = error_flags (pushes [[1]; [2]] decoder0) /\
     state d' = state (pushes [[1]; [2]] decoder0)).
Proof.
  apply (readNextFrame_is_dequeue (pushes [[1]; [2]] decoder0) [9]).
  vm_compute. repeat split; congruence.
Defined.

End QueueFacts.

(* ====================================================================== *)
(** ** Facts about the error flags and the busy-waits *)
(* ====================================================================== *)

Module BusFacts.
Import LinDecoder Sim Bus.

(** *** The error flag register *)

Lemma raise_all_snoc (es : list Z) (e : Z) (d : Decoder) :
  raise_all (es ++ [e]) d = setErrorFlags e (raise_all es d).
Proof. unfold raise_all. rewrite foldl_app. reflexivity. Qed.

(** Raises between two drains collapse into one mask: a bit of the drained
    mask is set exactly when it was set before or belongs to one of the
    kinds raised since; the drain leaves the register empty, so a second
    drain returns 0. *)
Theorem error_flags_accumulate_until_drained (es : list Z) (d : Decoder) (i : Z) :
  let '(mask, d') := getAndClearErrorFlags (raise_all es d) in
  Z.testbit mask i
  = Z.testbit (error_flags d) i || existsb (fun e => Z.testbit e i) es /\
  error_flags d' = 0 /\
  fst (getAndClearErrorFlags d') = 0 /\
  rx_frame_buffers d' = rx_frame_buffers d /\
  head_frame_buffer d' = head_frame_buffer d /\
  tail_frame_buffer d' = tail_frame_buffer d /\
  state d' = state d.
Proof.
  cbn [getAndClearErrorFlags]. unfold getAndClearErrorFlags.
  induction es as [|e es IH] using rev_ind.
  - cbn [raise_all foldl existsb]. rewrite orb_false_r.
    destruct d; repeat split; reflexivity.
  - rewrite raise_all_snoc. destruct IH as (Hbit & _ & _ & Hs & Hh & Ht & Hst).
    cbn [fst snd] in *.
    split.
    + unfold setErrorFlags at 1.
      replace (error_flags (with_error_flags _ _))
        with (Z.lor (error_flags (raise_all es d)) e)
        by (destruct (raise_all es d); reflexivity).
      rewrite Z.lor_spec, Hbit, existsb_app. cbn [existsb].
      rewrite orb_false_r, orb_assoc. reflexivity.
    + destruct (raise_all es d). cbn in *. repeat split; assumption.
Qed.


(** *** The busy-waits *)

Lemma geb_true (x y : Z) : y <= x -> (x >=? y) = true.
Proof. intros H. rewrite Z.geb_leb. apply Z.leb_le. exact H. Qed.

Lemma geb_false (x y : Z) : x < y -> (x >=? y) = false.
Proof. intros H. rewrite Z.geb_leb. apply Z.leb_gt. exact H. Qed.

Lemma wait_loop_bounded (clock_ticks base_clock : Z) (ps : list Poll) (p : Poll)
    (w : World) :
  clock_ticks <= u16 (ticksForIsr p - base_clock) ->
  exists w', wait_loop clock_ticks base_clock (ps ++ p :: w) = Some w' /\
             w `suffix_of` w'.
Proof.
  intros Hp. induction ps as [|q ps IH]; cbn [app wait_loop].
  - rewrite (geb_true _ _ Hp). exists w. split; [reflexivity | reflexivity].
  - destruct (u16 (ticksForIsr q - base_clock) >=? clock_ticks); [|exact IH].
    eexists. split; [reflexivity|]. apply suffix_app_r, suffix_cons_r; reflexivity.
Qed.

Lemma waitForRxLow_loop_bounded (max_clock_ticks base_clock : Z) (use_rx1 : bool)
    (ps : list Poll) (p : Poll) (w : World) :
  max_clock_ticks <= u16 (ticksForIsr p - base_clock) ->
  exists r w',
    waitForRxLow_loop max_clock_ticks base_clock use_rx1 (ps ++ p :: w) = Some (r, w') /\
    w `suffix_of` w'.
Proof.
  intros Hp. induction ps as [|q ps IH]; cbn [app waitForRxLow_loop].
  - destruct (negb (isRxHigh use_rx1 p)).
    + eexists _, _. split; [reflexivity | reflexivity].
    + rewrite (geb_true _ _ Hp). eexists _, _.
      split; [reflexivity | reflexivity].
  - destruct (negb (isRxHigh use_rx1 q)).
    + eexists _, _. split; [reflexivity|].
      apply suffix_app_r, suffix_cons_r; reflexivity.
    + destruct (u16 (ticksForIsr q - base_clock) >=? max_clock_ticks); [|exact IH].
      eexists _, _. split; [reflexivity|].
      apply suffix_app_r, suffix_cons_r; reflexivity.
Qed.

Lemma waitForRxHigh_loop_bounded (max_clock_ticks base_clock : Z) (use_rx1 : bool)
    (ps : list Poll) (p : Poll) (w : World) :
  max_clock_ticks <= u16 (ticksForIsr p - base_clock) ->
  exists r w',
    waitForRxHigh_loop max_clock_ticks base_clock use_rx1 (ps ++ p :: w) = Some (r, w') /\
    w `suffix_of` w'.
Proof.
  intros Hp. induction ps as [|q ps IH]; cbn [app waitForRxHigh_loop].
  - destruct (isRxHigh use_rx1 p).
    + eexists _, _. split; [reflexivity | reflexivity].
    + rewrite (geb_true _ _ Hp). eexists _, _.
      split; [reflexivity | reflexivity].
  - destruct (isRxHigh use_rx1 q).
    + eexists _, _. split; [reflexivity|].
      apply suffix_app_r, suffix_cons_r; reflexivity.
    + destruct (u16 (ticksForIsr q - base_clock) >=? max_clock_ticks); [|exact IH].
      eexists _, _. split; [reflexivity|].
      apply suffix_app_r, suffix_cons_r; reflexivity.
Qed.

Lemma waitForResponseStartBit_loop_bounded (max_clock_ticks base_clock : Z)
    (ps : list Poll) (p : Poll) (w : World) :
  max_clock_ticks <= u16 (ticksForIsr p - base_clock) ->
  forall state1 state2 : bool,
  exists r w',
    waitForResponseStartBit_loop max_clock_ticks base_clock state1 state2
      (ps ++ p :: w) = Some (r, w') /\
    w `suffix_of` w'.
Proof.
  intros Hp. induction ps as [|q ps IH]; intros state1 state2;
    cbn [app waitForResponseStartBit_loop].
  - destruct (state1 && negb (rx1_pin p));
      [eexists _, _; split; [reflexivity | reflexivity]|].
    destruct (state2 && negb (rx2_pin p));
      [eexists _, _; split; [reflexivity | reflexivity]|].
    rewrite (geb_true _ _ Hp). eexists _, _.
    split; [reflexivity | reflexivity].
  - destruct (state1 && negb (rx1_pin q));
      [eexists _, _; split;
       [reflexivity | apply suffix_app_r, suffix_cons_r; reflexivity]|].
    destruct (state2 && negb (rx2_pin q));
      [eexists _, _; split;
       [reflexivity | apply suffix_app_r, suffix_cons_r; reflexivity]|].
    destruct (u16 (ticksForIsr q - base_clock) >=? max_clock_ticks); [|apply IH].
    eexists _, _. split; [reflexivity|].
    apply suffix_app_r, suffix_cons_r; reflexivity.
Qed.

(** Every busy-wait is bounded by the clock: once a poll shows that the
    tick budget has passed since the wait began, the wait has returned, and
    it has consumed no poll after that one. *)
Theorem busy_waits_are_bounded (budget : Z) (use_rx1 : bool)
    (p0 : Poll) (ps : list Poll) (p : Poll) (w : World) :
  budget <= u16 (ticksForIsr p - ticksForIsr p0) ->
  (exists w', wait budget (p0 :: ps ++ p :: w) = Some w' /\ w `suffix_of` w') /\
  (exists r w', waitForRxLow budget use_rx1 (p0 :: ps ++ p :: w) = Some (r, w') /\
                w `suffix_of` w') /\
  (exists r w', waitForRxHigh budget use_rx1 (p0 :: ps ++ p :: w) = Some (r, w') /\
                w `suffix_of` w') /\
  (exists r w', waitForResponseStartBit budget (p0 :: ps ++ p :: w) = Some (r, w') /\
                w `suffix_of` w').
Proof.
  intros Hp. unfold wait, waitForRxLow, waitForRxHigh, waitForResponseStartBit.
  split; [apply wait_loop_bounded, Hp|].
  split; [apply waitForRxLow_loop_bounded, Hp|].
  split; [apply waitForRxHigh_loop_bounded, Hp|].
  apply waitForResponseStartBit_loop_bounded, Hp.
Qed.

Lemma busy_waits_are_bounded_witness :
  (exists w', wait 156 [idle 0; idle 10; idle 200; idle 300] = Some w' /\
              [idle 300] `suffix_of` w') /\
  (exists r w', waitForRxLow 156 true [idle 0; idle 10; idle 200; idle 300]
                = Some (r, w') /\ [idle 300] `suffix_of` w') /\
  (exists r w', waitForRxHigh 156 true [idle 0; idle 10; idle 200; idle 300]
                = Some (r, w') /\ [idle 300] `suffix_of` w') /\
  (exists r w', waitForResponseStartBit 156 [idle 0; idle 10; idle 200; idle 300]
                = Some (r, w') /\ [idle 300] `suffix_of` w').
Proof.
  apply (busy_waits_are_bounded 156 true (idle 0) [idle 10] (idle 200) [idle 300]).
  vm_compute. discriminate.
Defined.

(** The clock enters the waits only through the unsigned 16 bit difference
    to the base reading. *)
Lemma u16_shift_diff (t b offset : Z) :
  u16 (u16 (t + offset) - u16 (b + offset)) = u16 (t - b).
Proof.
  unfold u16. rewrite <- Zminus_mod. f_equal. lia.
Qed.

Lemma wait_loop_shift (offset clock_ticks base_clock : Z) (w : World) :
  wait_loop clock_ticks (u16 (base_clock + offset)) (shift_clock offset w)
  = shift_clock offset <$> wait_loop clock_ticks base_clock w.
Proof.
  induction w as [|p w IH]; [reflexivity|].
  cbn [shift_clock map wait_loop ticksForIsr]. rewrite u16_shift_diff.
  destruct (u16 (ticksForIsr p - base_clock) >=? clock_ticks); [reflexivity | exact IH].
Qed.

Lemma waitForRxLow_loop_shift (offset max_clock_ticks base_clock : Z)
    (use_rx1 : bool) (w : World) :
  waitForRxLow_loop max_clock_ticks (u16 (base_clock + offset)) use_rx1
    (shift_clock offset w)
  = prod_map id (shift_clock offset)
      <$> waitForRxLow_loop max_clock_ticks base_clock use_rx1 w.
Proof.
  induction w as [|p w IH]; [reflexivity|].
  cbn [shift_clock map waitForRxLow_loop ticksForIsr]. rewrite u16_shift_diff.
  replace (isRxHigh use_rx1 (mkPoll (rx1_pin p) (rx2_pin p) (u16 (ticksForIsr p + offset))))
    with (isRxHigh use_rx1 p) by (destruct use_rx1; reflexivity).
  destruct (negb (isRxHigh use_rx1 p)); [reflexivity|].
  destruct (u16 (ticksForIsr p - base_clock) >=? max_clock_ticks);
    [reflexivity | exact IH].
Qed.

Lemma waitForRxHigh_loop_shift (offset max_clock_ticks base_clock : Z)
    (use_rx1 : bool) (w : World) :
  waitForRxHigh_loop max_clock_ticks (u16 (base_clock + offset)) use_rx1
    (shift_clock offset w)
  = prod_map id (shift_clock offset)
      <$> waitForRxHigh_loop max_clock_ticks base_clock use_rx1 w.
Proof.
  induction w as [|p w IH]; [reflexivity|].
  cbn [shift_clock map waitForRxHigh_loop ticksForIsr]. rewrite u16_shift_diff.
  replace (isRxHigh use_rx1 (mkPoll (rx1_pin p) (rx2_pin p) (u16 (ticksForIsr p + offset))))
    with (isRxHigh use_rx1 p) by (destruct use_rx1; reflexivity).
  destruct (isRxHigh use_rx1 p); [reflexivity|].
  destruct (u16 (ticksForIsr p - base_clock) >=? max_clock_ticks);
    [reflexivity | exact IH].
Qed.

Lemma waitForResponseStartBit_loop_shift (offset max_clock_ticks base_clock : Z)
    (w : World) :
  forall state1 state2 : bool,
  waitForResponseStartBit_loop max_clock_ticks (u16 (base_clock + offset))
    state1 state2 (shift_clock offset w)
  = prod_map id (shift_clock offset)
      <$> waitForResponseStartBit_loop max_clock_ticks base_clock state1 state2 w.
Proof.
  induction w as [|p w IH]; intros state1 state2; [reflexivity|].
  cbn [shift_clock map waitForResponseStartBit_loop ticksForIsr rx1_pin rx2_pin].
  rewrite u16_shift_diff.
  destruct (state1 && negb (rx1_pin p)); [reflexivity|].
  destruct (state2 && negb (rx2_pin p)); [reflexivity|].
  destruct (u16 (ticksForIsr p - base_clock) >=? max_clock_ticks);
    [reflexivity | apply IH].
Qed.

(** The waits tolerate the wrap-around of the 16 bit clock: they measure
    elapsed ticks only, so the same polls taken with the counter started at
    any other value (wrapping where it must) give the same results, the
    rest of the world being shifted alike. *)
Theorem busy_waits_ignore_clock_origin (offset budget : Z) (use_rx1 : bool)
    (w : World) :
  wait budget (shift_clock offset w) = shift_clock offset <$> wait budget w /\
  waitForRxLow budget use_rx1 (shift_clock offset w)
  = prod_map id (shift_clock offset) <$> waitForRxLow budget use_rx1 w /\
  waitForRxHigh budget use_rx1 (shift_clock offset w)
  = prod_map id (shift_clock offset) <$> waitForRxHigh budget use_rx1 w /\
  waitForResponseStartBit budget (shift_clock offset w)
  = prod_map id (shift_clock offset) <$> waitForResponseStartBit budget w.
Proof.
  destruct w as [|p0 w]; [repeat split; reflexivity|].
  unfold wait, waitForRxLow, waitForRxHigh, waitForResponseStartBit.
  cbn [shift_clock map ticksForIsr rx1_pin rx2_pin].
  split; [apply wait_loop_shift|].
  split; [apply waitForRxLow_loop_shift|].
  split; [apply waitForRxHigh_loop_shift|].
  apply waitForResponseStartBit_loop_shift.
Qed.

Lemma isRxHigh_invert (use_rx1 : bool) (p : Poll) :
  isRxHigh use_rx1 (mkPoll (negb (rx1_pin p)) (negb (rx2_pin p)) (ticksForIsr p))
  = negb (isRxHigh use_rx1 p).
Proof. destruct use_rx1; reflexivity. Qed.

Lemma waitForRxHigh_loop_invert (max_clock_ticks base_clock : Z) (use_rx1 : bool)
    (w : World) :
  waitForRxHigh_loop max_clock_ticks base_clock use_rx1 (invert w)
  = prod_map id invert <$> waitForRxLow_loop max_clock_ticks base_clock use_rx1 w.
Proof.
  induction w as [|p w IH]; [reflexivity|].
  cbn [invert map waitForRxHigh_loop waitForRxLow_loop ticksForIsr].
  rewrite isRxHigh_invert.
  destruct (negb (isRxHigh use_rx1 p)); [reflexivity|].
  destruct (u16 (ticksForIsr p - base_clock) >=? max_clock_ticks);
    [reflexivity | exact IH].
Qed.

(** [waitForRxHigh] is [waitForRxLow] with the polarity reversed, as its
    comment says: on the inverted lines it consumes the same polls and
    returns the same flag. *)
Theorem waitForRxHigh_is_waitForRxLow_inverted (budget : Z) (use_rx1 : bool)
    (w : World) :
  waitForRxHigh budget use_rx1 (invert w)
  = prod_map id invert <$> waitForRxLow budget use_rx1 w.
Proof.
  destruct w as [|p0 w]; [reflexivity|].
  unfold waitForRxHigh, waitForRxLow. cbn [invert map ticksForIsr].
  apply waitForRxHigh_loop_invert.
Qed.


Lemma waitForRxLow_loop_result (budget base_clock : Z) (use_rx1 : bool) (w : World) :
  forall (r : bool) (w' : World),
  waitForRxLow_loop budget base_clock use_rx1 w = Some (r, w') ->
  exists ps p,
    w = ps ++ p :: w' /\
    Forall (fun q => isRxHigh use_rx1 q = true /\
                     u16 (ticksForIsr q - base_clock) < budget) ps /\
    (r = true /\ isRxHigh use_rx1 p = false \/
     r = false /\ isRxHigh use_rx1 p = true /\
     budget <= u16 (ticksForIsr p - base_clock)).
Proof.
  induction w as [|q w IH]; intros r w' H; [discriminate H|].
  cbn [waitForRxLow_loop] in H.
  destruct (isRxHigh use_rx1 q) eqn:Hq; cbn [negb] in H.
  - destruct (Z.geb_spec (u16 (ticksForIsr q - base_clock)) budget) as [Ht | Ht].
    + injection H as <- <-. exists [], q.
      split; [reflexivity|]. split; [constructor|]. right. repeat split; assumption.
    + destruct (IH _ _ H) as (ps & p & -> & Hps & Hp).
      exists (q :: ps), p. split; [reflexivity|]. split; [|exact Hp].
      constructor; [split; assumption | exact Hps].
  - injection H as <- <-. exists [], q.
    split; [reflexivity|]. split; [constructor|]. left. split; [reflexivity | exact Hq].
Qed.

(** What the answer of [waitForRxLow] means: the polls it consumed before
    the last one all showed the line high inside the budget; it answers
    true when the last one shows the line low (also when the budget has
    run out by then) and false when the last one shows the line still high
    with the budget passed. *)
Theorem waitForRxLow_result (budget : Z) (use_rx1 : bool) (p0 : Poll) (w : World)
    (r : bool) (w' : World) :
  waitForRxLow budget use_rx1 (p0 :: w) = Some (r, w') ->
  exists ps p,
    w = ps ++ p :: w' /\
    Forall (fun q => isRxHigh use_rx1 q = true /\
                     u16 (ticksForIsr q - ticksForIsr p0) < budget) ps /\
    (r = true /\ isRxHigh use_rx1 p = false \/
     r = false /\ isRxHigh use_rx1 p = true /\
     budget <= u16 (ticksForIsr p - ticksForIsr p0)).
Proof. apply waitForRxLow_loop_result. Qed.

Lemma waitForRxLow_result_witness :
  exists ps p,
    [idle 10; level true false; idle 20] = ps ++ p :: [idle 20] /\
    Forall (fun q => isRxHigh true q = true /\
                     u16 (ticksForIsr q - ticksForIsr (idle 0)) < 156) ps /\
    (true = true /\ isRxHigh true p = false \/
     true = false /\ isRxHigh true p = true /\
     156 <= u16 (ticksForIsr p - ticksForIsr (idle 0))).
Proof.
  apply (waitForRxLow_result 156 true (idle 0)
           [idle 10; level true false; idle 20] true [idle 20]).
  vm_compute. reflexivity.
Defined.

Lemma waitForResponseStartBit_loop_result (budget base_clock : Z) (w : World) :
  forall (state1 state2 : bool) (r : Z) (w' : World),
  waitForResponseStartBit_loop budget base_clock state1 state2 w = Some (r, w') ->
  exists ps p,
    w = ps ++ p :: w' /\
    no_falling_edge state1 state2 ps = true /\
    within_budget budget base_clock ps = true /\
    let '(s1, s2) := levels_after state1 state2 ps in
    (r = 1 /\ s1 = true /\ rx1_pin p = false) \/
    (r = 2 /\ s1 && negb (rx1_pin p) = false /\ s2 = true /\ rx2_pin p = false) \/
    (r = 0 /\ s1 && negb (rx1_pin p) = false /\ s2 && negb (rx2_pin p) = false /\
     budget <= u16 (ticksForIsr p - base_clock)).
Proof.
  induction w as [|q w IH]; intros state1 state2 r w' H; [discriminate H|].
  cbn [waitForResponseStartBit_loop] in H.
  destruct (state1 && negb (rx1_pin q)) eqn:H1.
  { injection H as <- <-. exists [], q. cbn [app no_falling_edge within_budget forallb levels_after].
    repeat split. left. apply andb_true_iff in H1 as [-> H1].
    apply negb_true_iff in H1. repeat split; assumption. }
  destruct (state2 && negb (rx2_pin q)) eqn:H2.
  { injection H as <- <-. exists [], q. cbn [app no_falling_edge within_budget forallb levels_after].
    repeat split. right. left. apply andb_true_iff in H2 as [-> H2].
    apply negb_true_iff in H2. repeat split; assumption. }
  destruct (Z.geb_spec (u16 (ticksForIsr q - base_clock)) budget) as [Ht | Ht].
  { injection H as <- <-. exists [], q. cbn [app no_falling_edge within_budget forallb levels_after].
    repeat split. right. right. repeat split; assumption. }
  destruct (IH _ _ _ _ H) as (ps & p & -> & Hq & Hb & Hr).
  exists (q :: ps), p. cbn [app no_falling_edge within_budget forallb levels_after].
  rewrite H1, H2. cbn [negb andb].
  split; [reflexivity|]. split; [exact Hq|]. split; [|exact Hr].
  apply andb_true_iff. split; [apply Z.ltb_lt; exact Ht | exact Hb].
Qed.

(** What the answer of [waitForResponseStartBit] means.  The polls consumed
    before the last one showed no falling edge on either line inside the
    budget.  The answer is 1 when the last poll shows line 1 falling; 2
    when it shows line 2 falling and line 1 not; 0 when it shows neither
    and the budget has passed.  There is no other answer. *)
Theorem waitForResponseStartBit_result (budget : Z) (p0 : Poll) (w : World)
    (r : Z) (w' : World) :
  waitForResponseStartBit budget (p0 :: w) = Some (r, w') ->
  exists ps p,
    w = ps ++ p :: w' /\
    no_falling_edge (rx1_pin p0) (rx2_pin p0) ps = true /\
    within_budget budget (ticksForIsr p0) ps = true /\
    let '(s1, s2) := levels_after (rx1_pin p0) (rx2_pin p0) ps in
    (r = 1 /\ s1 = true /\ rx1_pin p = false) \/
    (r = 2 /\ s1 && negb (rx1_pin p) = false /\ s2 = true /\ rx2_pin p = false) \/
    (r = 0 /\ s1 && negb (rx1_pin p) = false /\ s2 && negb (rx2_pin p) = false /\
     budget <= u16 (ticksForIsr p - ticksForIsr p0)).
Proof. apply waitForResponseStartBit_loop_result. Qed.

Lemma waitForResponseStartBit_result_witness :
  exists ps p,
    [idle 10; level false false; idle 20] = ps ++ p :: [idle 20] /\
    no_falling_edge true true ps = true /\
    within_budget 156 0 ps = true /\
    let '(s1, s2) := levels_after true true ps in
    (2 = 1 /\ s1 = true /\ rx1_pin p = false) \/
    (2 = 2 /\ s1 && negb (rx1_pin p) = false /\ s2 = true /\ rx2_pin p = false) \/
    (2 = 0 /\ s1 && negb (rx1_pin p) = false /\ s2 && negb (rx2_pin p) = false /\
     156 <= u16 (ticksForIsr p - 0)).
Proof.
  apply (waitForResponseStartBit_result 156 (idle 0)
           [idle 10; level false false; idle 20] 2 [idle 20]).
  vm_compute. reflexivity.
Defined.

End BusFacts.

(* ====================================================================== *)
(** ** Facts about frames on the bus *)
(* ====================================================================== *)

Module FrameFacts.
Import LinDecoder Sim Queue Frames ReadDataFacts.

Lemma run_isr_app (n m : nat) (d : Decoder) (w : World) :
  run_isr (n + m) d w = '(d', w') ← run_isr n d w; run_isr m d' w'.
Proof.
  revert d w. induction n as [|n IH]; intros d w; cbn [Nat.add run_isr].
  - reflexivity.
  - destruct (ISR d w) as [[d1 w1]|]; cbn [mbind option_bind]; [apply IH | reflexivity].
Qed.

Lemma run_isr_one (d : Decoder) (w : World) :
  run_isr 1 d w = ISR d w.
Proof.
  cbn [run_isr]. destruct (ISR d w) as [[d1 w1]|]; reflexivity.
Qed.

(** *** Detect-Break *)

Lemma ISR_detect_break_low (d : Decoder) (p : Poll) (w : World) :
  state d = states.DETECT_BREAK ->
  rx1_pin p = false ->
  0 <= low_bits_counter_ d < 9 ->
  exists d',
    ISR d (p :: w) = Some (d', w) /\
    state d' = states.DETECT_BREAK /\
    low_bits_counter_ d' = low_bits_counter_ d + 1 /\
    tx2_pin d' = false /\
    config d' = config d /\
    rx_frame_buffers d' = rx_frame_buffers d /\
    head_frame_buffer d' = head_frame_buffer d /\
    tail_frame_buffer d' = tail_frame_buffer d /\
    error_flags d' = error_flags d.
Proof.
  intros Hst Hlow Hc. destruct d as [? ? ? ? ? st l ? ? ? ? ?].
  norm_decoder_in Hst. norm_decoder_in Hc. subst st.
  unfold ISR, StateDetectBreak_handle_isr. norm_decoder. rewrite Hlow.
  change (states.DETECT_BREAK =? states.DETECT_BREAK) with true. cbv iota.
  rewrite u8_small by lia. rewrite (proj2 (Z.ltb_lt _ _)) by lia.
  cbn [mbind option_bind]. eexists. split; [reflexivity|]. norm_decoder.
  repeat split; reflexivity.
Qed.

(** A low pulse shorter than ten samples is no break: the repeater passes
    it on to line 2, and the next high sample clears the count.  The
    decoder stays in Detect-Break, ring and error flags untouched, and only
    the sampled polls are consumed. *)
Theorem short_low_pulse_is_no_break (lows : list Poll) :
  forall (d : Decoder) (p : Poll) (w : World),
  state d = states.DETECT_BREAK ->
  0 <= low_bits_counter_ d ->
  low_bits_counter_ d + Z.of_nat (length lows) < 10 ->
  Forall (fun q => rx1_pin q = false) lows ->
  rx1_pin p = true ->
  exists d1 d2,
    run_isr (length lows) d (lows ++ p :: w) = Some (d1, p :: w) /\
    low_bits_counter_ d1 = low_bits_counter_ d + Z.of_nat (length lows) /\
    (lows <> [] -> tx2_pin d1 = false) /\
    ISR d1 (p :: w) = Some (d2, w) /\
    state d2 = states.DETECT_BREAK /\
    low_bits_counter_ d2 = 0 /\
    tx2_pin d2 = true /\
    rx_frame_buffers d2 = rx_frame_buffers d /\
    head_frame_buffer d2 = head_frame_buffer d /\
    tail_frame_buffer d2 = tail_frame_buffer d /\
    error_flags d2 = error_flags d.
Proof.
  induction lows as [|q lows IH]; intros d p w Hst Hc0 Hc Hlows Hp.
  - exists d. cbn [length run_isr app].
    destruct d as [? ? ? ? ? st l ? ? ? ? ?].
    norm_decoder_in Hst. subst st.
    unfold ISR, StateDetectBreak_handle_isr. norm_decoder. rewrite Hp.
    change (states.DETECT_BREAK =? states.DETECT_BREAK) with true. cbv iota.
    cbn [mbind option_bind]. eexists. split; [reflexivity|].
    split; [cbn [Z.of_nat]; lia|]. split; [congruence|]. split; [reflexivity|].
    norm_decoder. repeat split; reflexivity.
  - apply Forall_cons in Hlows as [Hq Hlows]. cbn [length] in Hc.
    destruct (ISR_detect_break_low d q (lows ++ p :: w) Hst Hq ltac:(lia))
      as (d' & Hisr & Hst' & Hc' & Htx & Hcfg & Hs & Hh & Ht & He).
    destruct (IH d' p w Hst' ltac:(lia) ltac:(lia) Hlows Hp)
      as (d1 & d2 & Hrun & Hc1 & Htx1 & Hisr2 & Hst2 & Hc2 & Htx2 & Hs2 & Hh2 & Ht2 & He2).
    exists d1, d2. cbn [length run_isr app]. rewrite Hisr. cbn [mbind option_bind].
    split; [exact Hrun|]. split; [lia|].
    split.
    { intros _. destruct lows as [|q' lows']; [|apply Htx1; discriminate].
      cbn [run_isr app] in Hrun. injection Hrun as <-. exact Htx. }
    split; [exact Hisr2|]. repeat split; congruence.
Qed.


Lemma lows_counted (lows : list Poll) :
  forall (d : Decoder) (w : World),
  state d = states.DETECT_BREAK ->
  0 <= low_bits_counter_ d ->
  low_bits_counter_ d + Z.of_nat (length lows) < 10 ->
  Forall (fun q => rx1_pin q = false) lows ->
  exists d1,
    run_isr (length lows) d (lows ++ w) = Some (d1, w) /\
    state d1 = states.DETECT_BREAK /\
    low_bits_counter_ d1 = low_bits_counter_ d + Z.of_nat (length lows) /\
    config d1 = config d /\
    rx_frame_buffers d1 = rx_frame_buffers d /\
    head_frame_buffer d1 = head_frame_buffer d /\
    tail_frame_buffer d1 = tail_frame_buffer d /\
    error_flags d1 = error_flags d.
Proof.
  induction lows as [|q lows IH]; intros d w Hst Hc0 Hc Hlows.
  - exists d. cbn [length run_isr app Z.of_nat].
    repeat split; try reflexivity; [exact Hst | lia].
  - apply Forall_cons in Hlows as [Hq Hlows]. cbn [length] in Hc.
    destruct (ISR_detect_break_low d q (lows ++ w) Hst Hq ltac:(lia))
      as (d' & Hisr & Hst' & Hc' & Htx & Hcfg & Hs & Hh & Ht & He).
    destruct (IH d' w Hst' ltac:(lia) ltac:(lia) Hlows)
      as (d1 & Hrun & Hst1 & Hc1 & Hcfg1 & Hs1 & Hh1 & Ht1 & He1).
    exists d1. cbn [length run_isr app]. rewrite Hisr. cbn [mbind option_bind].
    split; [exact Hrun|]. split; [exact Hst1|]. split; [lia|].
    repeat split; congruence.
Qed.

Lemma u16_small (x : Z) : 0 <= x < 65536 -> u16 x = x.
Proof. intros H. apply Z.mod_small. exact H. Qed.

(** The tenth low sample confirms the break.  With the line back high, the
    half-bit wait done and the start-bit edge seen, the decoder is in
    Read-Data at the first bit of the first byte, the head slot emptied. *)
Lemma break_enters_read_data (d : Decoder) (w : World) :
  ring_ok d ->
  state d = states.DETECT_BREAK ->
  low_bits_counter_ d = 0 ->
  0 <= clock_ticks_per_half_bit (config d) < 65536 ->
  exists d',
    run_isr 10 d (break_wave (clock_ticks_per_half_bit (config d)) ++ w)
    = Some (d', w) /\
    same_frame d [] d' /\
    at_bit true 0 0 d'.
Proof.
  intros Hok Hst Hc HH.
  set (H := clock_ticks_per_half_bit (config d)) in *.
  unfold break_wave.
  change (replicate 10 (level true false))
    with (replicate 9 (level true false) ++ [level true false]).
  rewrite <- !app_assoc.
  destruct (lows_counted (replicate 9 (level true false)) d
              ([level true false] ++ [level true false; idle 0]
               ++ [idle 0; idle H] ++ [idle 0; level true false] ++ w) Hst)
    as (d1 & Hrun & Hst1 & Hc1 & Hcfg & Hs & Hh & Ht & He).
  { lia. } { rewrite Hc. cbn. lia. } { apply Forall_replicate. reflexivity. }
  change 10%nat with (length (replicate 9 (level true false)) + 1)%nat.
  rewrite run_isr_app, Hrun. cbn [mbind option_bind]. rewrite run_isr_one.
  rewrite Hc in Hc1. cbn [length replicate Z.of_nat Pos.of_succ_nat Pos.succ Z.add] in Hc1.
  destruct d1 as [c1 s1 h1 t1 m1 st1 l1 r1 e1 x1 y1 z1].
  norm_decoder_in Hst1. norm_decoder_in Hc1. norm_decoder_in Hcfg.
  norm_decoder_in Hs. norm_decoder_in Hh. norm_decoder_in Ht. norm_decoder_in He.
  subst st1 l1.
  unfold ISR, StateDetectBreak_handle_isr. norm_decoder.
  change (states.DETECT_BREAK =? states.DETECT_BREAK) with true. cbv iota.
  cbn [app rx1_pin level]. cbv iota.
  change (u8 (9 + 1) <? 10) with false. cbv iota.
  unfold waitForRxHigh, wait, StateReadData_enter, waitForRxLow.
  cbn [waitForRxHigh_loop wait_loop waitForRxLow_loop isRxHigh rx1_pin idle level
       ticksForIsr negb mbind option_bind].
  norm_decoder.
  assert (Hcfg' : clock_ticks_per_half_bit c1 = H) by (subst H; rewrite Hcfg; reflexivity).
  unfold clock_ticks_per_half_bit in Hcfg'. 
  cbn [clock_ticks_per_half_bit] in *. unfold clock_ticks_per_half_bit. rewrite Hcfg'.
  rewrite Z.sub_0_r, (u16_small H HH), (BusFacts.geb_true H H ltac:(lia)).
  cbn [waitForRxLow_loop isRxHigh rx1_pin idle level ticksForIsr negb mbind option_bind].
  eexists. split; [reflexivity|].
  unfold same_frame, at_bit. norm_decoder. unfold reset.
  destruct d. norm_decoder_in Hcfg. norm_decoder_in Hs. norm_decoder_in Hh.
  norm_decoder_in Ht. norm_decoder_in He. subst. norm_decoder.
  repeat split; reflexivity.
Qed.


(** *** Read-Data, tick by tick *)

Ltac open_frame d d0 Hsf Hat :=
  destruct d as [? ? ? ? ? ? ? [? ? ? ? ?] ? ? ? ?];
  destruct d0 as [? ? ? ? ? ? ? ? ? ? ? ?];
  unfold same_frame, at_bit in Hsf, Hat;
  norm_decoder_in Hsf; norm_decoder_in Hat;
  destruct Hsf as (? & ? & ? & ? & ? & ?);
  destruct Hat as (? & ? & ?);
  subst.

Ltac step_isr :=
  unfold ISR; norm_decoder;
  change (states.READ_DATA =? states.DETECT_BREAK) with false;
  change (states.READ_DATA =? states.READ_DATA) with true;
  cbv iota; run_handler; cbn [mbind option_bind].

Ltac close_frame :=
  unfold same_frame, at_bit; norm_decoder; repeat split; reflexivity.

Lemma start_tick (d0 d : Decoder) (stored : LinFrame) (on_lin1 : bool) (k : Z)
    (p : Poll) (w : World) :
  same_frame d0 stored d ->
  at_bit on_lin1 k 0 d ->
  isRxHigh on_lin1 p = false ->
  exists d',
    ISR d (p :: w) = Some (d', w) /\
    same_frame d0 stored d' /\
    at_bit on_lin1 k 1 d' /\
    byte_buffer_ (read_data d') = 0 /\
    byte_buffer_bit_mask_ (read_data d') = 1.
Proof.
  intros Hsf Hat Hlow. destruct on_lin1; norm_decoder_in Hlow.
  all: open_frame d d0 Hsf Hat; step_isr.
  all: eexists; split; [reflexivity|].
  all: split; [close_frame|]; split; [close_frame|]; split; reflexivity.
Qed.

Lemma data_tick (d0 d : Decoder) (stored : LinFrame) (on_lin1 : bool) (k n : Z)
    (p : Poll) (w : World) :
  same_frame d0 stored d ->
  at_bit on_lin1 k n d ->
  1 <= n <= 8 ->
  exists d',
    ISR d (p :: w) = Some (d', w) /\
    same_frame d0 stored d' /\
    at_bit on_lin1 k (n + 1) d' /\
    byte_buffer_ (read_data d')
    = (if isRxHigh on_lin1 p
       then Z.lor (byte_buffer_ (read_data d)) (byte_buffer_bit_mask_ (read_data d))
       else byte_buffer_ (read_data d)) /\
    byte_buffer_bit_mask_ (read_data d')
    = u8 (Z.shiftl (byte_buffer_bit_mask_ (read_data d)) 1).
Proof.
  intros Hsf Hat Hn.
  destruct (isRxHigh on_lin1 p) eqn:Hp; destruct on_lin1; norm_decoder_in Hp.
  all: open_frame d d0 Hsf Hat; step_isr.
  all: rewrite (proj2 (Z.leb_le _ _)) by lia; cbv iota; norm_decoder;
    try rewrite (u8_small (_ + 1)) by lia.
  all: eexists; split; [reflexivity|].
  all: split; [close_frame|]; split; [close_frame|]; split; reflexivity.
Qed.


Lemma isRxHigh_level (on_lin1 b : bool) : isRxHigh on_lin1 (level on_lin1 b) = b.
Proof. destruct on_lin1; reflexivity. Qed.

Lemma data_ticks (d0 : Decoder) (stored : LinFrame) (on_lin1 : bool) (k : Z)
    (w : World) (bits : list bool) :
  forall (d : Decoder) (n : Z),
  same_frame d0 stored d ->
  at_bit on_lin1 k n d ->
  1 <= n ->
  n + Z.of_nat (length bits) <= 9 ->
  exists d',
    run_isr (length bits) d (map (level on_lin1) bits ++ w) = Some (d', w) /\
    same_frame d0 stored d' /\
    at_bit on_lin1 k (n + Z.of_nat (length bits)) d' /\
    (byte_buffer_ (read_data d'), byte_buffer_bit_mask_ (read_data d'))
    = collect bits (byte_buffer_ (read_data d)) (byte_buffer_bit_mask_ (read_data d)).
Proof.
  induction bits as [|b bits IH]; intros d n Hsf Hat Hn Hlen.
  - exists d. cbn [length run_isr map app Z.of_nat collect].
    rewrite Z.add_0_r.
    split; [reflexivity|]. split; [exact Hsf|]. split; [exact Hat|]. reflexivity.
  - cbn [length] in Hlen.
    destruct (data_tick d0 d stored on_lin1 k n (level on_lin1 b)
                (map (level on_lin1) bits ++ w) Hsf Hat ltac:(lia))
      as (d1 & Hisr & Hsf1 & Hat1 & Hbuf & Hmask).
    destruct (IH d1 (n + 1) Hsf1 Hat1 ltac:(lia) ltac:(lia))
      as (d' & Hrun & Hsf' & Hat' & Hcol).
    exists d'. cbn [length run_isr map app collect]. rewrite Hisr.
    cbn [mbind option_bind]. split; [exact Hrun|]. split; [exact Hsf'|].
    split.
    + replace (n + Z.of_nat (S (length bits))) with (n + 1 + Z.of_nat (length bits))
        by lia. exact Hat'.
    + rewrite Hcol, Hbuf, Hmask, isRxHigh_level. reflexivity.
Qed.

(** Collecting the eight data bits of a byte, least significant first,
    gives back the byte. *)
Lemma collect_testbits (b : Z) :
  0 <= b < 256 ->
  fst (collect (map (fun i => Z.testbit b (Z.of_nat i)) (seq 0 8)) 0 1) = b.
Proof.
  intros Hb. apply Z.eqb_eq.
  apply (forall_bytes
           (fun b => fst (collect (map (fun i => Z.testbit b (Z.of_nat i)) (seq 0 8)) 0 1)
                     =? b));
    [vm_compute; reflexivity | exact Hb].
Qed.

(** Byte reception: sampled at the middle of the start bit and of the
    eight data bits of a byte, the decoder stands at the stop bit with that
    byte in its buffer. *)
Lemma bits_received (d0 d : Decoder) (stored : LinFrame) (on_lin1 : bool) (k b : Z)
    (w : World) :
  same_frame d0 stored d ->
  at_bit on_lin1 k 0 d ->
  0 <= b < 256 ->
  exists d',
    run_isr 9 d (bits_wave on_lin1 b ++ w) = Some (d', w) /\
    same_frame d0 stored d' /\
    at_bit on_lin1 k 9 d' /\
    byte_buffer_ (read_data d') = b.
Proof.
  intros Hsf Hat Hb. unfold bits_wave. rewrite <- (map_map _ (level on_lin1)).
  set (bits := map (fun i => Z.testbit b (Z.of_nat i)) (seq 0 8)).
  destruct (start_tick d0 d stored on_lin1 k (level on_lin1 false)
              (map (level on_lin1) bits ++ w) Hsf Hat (isRxHigh_level _ _))
    as (d1 & Hisr & Hsf1 & Hat1 & Hbuf & Hmask).
  destruct (data_ticks d0 stored on_lin1 k w bits d1 1 Hsf1 Hat1 ltac:(lia)
              ltac:(subst bits; cbn; lia))
    as (d' & Hrun & Hsf' & Hat' & Hcol).
  exists d'. change 9%nat with (S (length bits)).
  cbn [run_isr app]. rewrite Hisr. cbn [mbind option_bind].
  split; [exact Hrun|]. split; [exact Hsf'|]. split; [exact Hat'|].
  rewrite Hbuf, Hmask in Hcol.
  change (byte_buffer_ (read_data d')) with (fst (byte_buffer_ (read_data d'),
                                              byte_buffer_bit_mask_ (read_data d'))).
  rewrite Hcol. apply collect_testbits, Hb.
Qed.


Ltac open_ring Hok :=
  unfold ring_ok in Hok; unfold kMaxFrameBuffers in Hok; norm_decoder_in Hok;
  destruct Hok as (? & ? & ?).

Ltac settle_slots :=
  unfold num_bytes, kMaxBytes, kMinBytes, append_byte in *;
  repeat first
    [ rewrite list_lookup_insert_eq by (unfold LinFrame in *; lia)
    | rewrite list_insert_insert_eq
    | progress cbn [default from_option id] ].

Lemma stop_tick_more (d0 d : Decoder) (stored : LinFrame) (on_lin1 : bool) (k : Z)
    (p : Poll) (w : World) (on_lin1' : bool) (w' : World) :
  ring_ok d0 ->
  same_frame d0 stored d ->
  at_bit on_lin1 k 9 d ->
  isRxHigh on_lin1 p = true ->
  0 <= k < 255 ->
  (k = 0 -> byte_buffer_ (read_data d) = 85) ->
  waitForNextStartBit (config d0) (k + 1) on_lin1 w = Some (true, on_lin1', w') ->
  let stored' := if k =? 0 then stored
                 else append_byte (byte_buffer_ (read_data d)) stored in
  num_bytes stored' < kMaxBytes ->
  exists d',
    ISR d (p :: w) = Some (d', w') /\
    same_frame d0 stored' d' /\
    at_bit on_lin1' (k + 1) 0 d'.
Proof.
  intros Hok Hsf Hat Hhigh Hk Hsync Hwait stored' Hroom. subst stored'.
  destruct (Z.eqb_spec k 0) as [-> | Hk0];
    [specialize (Hsync eq_refl) | clear Hsync];
    destruct on_lin1; norm_decoder_in Hhigh.
  all: open_frame d d0 Hsf Hat; open_ring Hok; norm_decoder_in Hwait;
    try norm_decoder_in Hsync; try subst; norm_decoder_in Hroom;
    try change (0 + 1) with 1 in Hwait.
  all: step_isr; rewrite Hwait; cbn [mbind option_bind]; after_wait;
    cbn [negb]; cbv iota; settle_slots.
  all: rewrite BusFacts.geb_false by (rewrite ?length_app in *; cbn [length] in *; lia);
    cbv iota.
  all: eexists; split; [reflexivity|]; split; close_frame.
Qed.


Lemma stop_tick_too_long (d0 d : Decoder) (stored : LinFrame) (on_lin1 : bool) (k : Z)
    (p : Poll) (w : World) (on_lin1' : bool) (w' : World) :
  ring_ok d0 ->
  same_frame d0 stored d ->
  at_bit on_lin1 k 9 d ->
  isRxHigh on_lin1 p = true ->
  0 < k < 255 ->
  waitForNextStartBit (config d0) (k + 1) on_lin1 w = Some (true, on_lin1', w') ->
  kMaxBytes <= num_bytes (append_byte (byte_buffer_ (read_data d)) stored) ->
  exists d',
    ISR d (p :: w) = Some (d', w') /\
    state d' = states.DETECT_BREAK /\
    low_bits_counter_ d' = 0 /\
    error_flags d' = Z.lor (error_flags d0) errors.FRAME_TOO_LONG /\
    head_frame_buffer d' = head_frame_buffer d0 /\
    tail_frame_buffer d' = tail_frame_buffer d0 /\
    config d' = config d0 /\
    rx_frame_buffers d'
    = rx_frame_buffers
        (with_slot (head_frame_buffer d0)
           (append_byte (byte_buffer_ (read_data d)) stored) d0).
Proof.
  intros Hok Hsf Hat Hhigh Hk Hwait Hfull.
  destruct on_lin1; norm_decoder_in Hhigh.
  all: open_frame d d0 Hsf Hat; open_ring Hok; norm_decoder_in Hwait;
    norm_decoder_in Hfull.
  all: step_isr; rewrite Hwait; cbn [mbind option_bind]; after_wait;
    cbn [negb]; cbv iota; settle_slots.
  all: rewrite BusFacts.geb_true by (rewrite ?length_app in *; cbn [length] in *; lia);
    cbv iota.
  all: eexists; split; [reflexivity|]; norm_decoder; repeat split; reflexivity.
Qed.



(** *** The gaps between bytes *)

Lemma wait_gap_next (c : Config) (n : Z) (on_lin1 on_lin1' : bool) (w : World) :
  (n <> 2 -> on_lin1' = on_lin1) ->
  waitForNextStartBit c n on_lin1 (gap_next on_lin1' ++ w) = Some (true, on_lin1', w).
Proof.
  intros Hch. unfold waitForNextStartBit. destruct (Z.eqb_spec n 2) as [-> | Hn].
  - destruct on_lin1'; reflexivity.
  - rewrite (Hch Hn). destruct on_lin1; reflexivity.
Qed.



(** *** Byte after byte *)

Lemma more_received (d0 : Decoder) (on_lin1 : bool) (w : World) (data : list Z) :
  forall (d : Decoder) (stored : LinFrame) (k : Z),
  ring_ok d0 ->
  same_frame d0 stored d ->
  at_bit on_lin1 k 9 d ->
  2 <= k ->
  k + Z.of_nat (length data) < 255 ->
  Forall (fun b => 0 <= b < 256) data ->
  (length stored + 1 + length data <= 10)%nat ->
  exists d',
    run_isr (10 * length data) d (more_wave on_lin1 data ++ w) = Some (d', w) /\
    same_frame d0 (stored ++ removelast (byte_buffer_ (read_data d) :: data)) d' /\
    at_bit on_lin1 (k + Z.of_nat (length data)) 9 d' /\
    byte_buffer_ (read_data d') = List.last data (byte_buffer_ (read_data d)).
Proof.
  induction data as [|b data IH]; intros d stored k Hok Hsf Hat Hk Hk' Hbytes Hlen.
  - exists d. cbn [length Nat.mul run_isr more_wave app removelast List.last Z.of_nat].
    rewrite app_nil_r, Z.add_0_r.
    split; [reflexivity|]. split; [exact Hsf|]. split; [exact Hat|]. reflexivity.
  - apply Forall_cons in Hbytes as [Hb Hbytes]. cbn [length] in Hlen, Hk'.
    cbn [more_wave]. rewrite <- !app_assoc.
    destruct (stop_tick_more d0 d stored on_lin1 k (level on_lin1 true)
                (gap_next on_lin1 ++ bits_wave on_lin1 b ++ more_wave on_lin1 data ++ w)
                on_lin1 (bits_wave on_lin1 b ++ more_wave on_lin1 data ++ w)
                Hok Hsf Hat (isRxHigh_level _ _) ltac:(lia) ltac:(lia))
      as (d1 & Hisr1 & Hsf1 & Hat1).
    { apply wait_gap_next. reflexivity. }
    { rewrite (proj2 (Z.eqb_neq k 0)) by lia.
      unfold num_bytes, append_byte, kMaxBytes. rewrite length_app. cbn [length]. lia. }
    rewrite (proj2 (Z.eqb_neq k 0)) in Hsf1 by lia.
    destruct (bits_received d0 d1 _ on_lin1 (k + 1) b (more_wave on_lin1 data ++ w)
                Hsf1 Hat1 Hb)
      as (d2 & Hrun2 & Hsf2 & Hat2 & Hbuf2).
    destruct (IH d2 _ (k + 1) Hok Hsf2 Hat2 ltac:(lia) ltac:(lia) Hbytes)
      as (d' & Hrun & Hsf' & Hat' & Hbuf').
    { unfold append_byte. rewrite length_app. cbn [length]. lia. }
    exists d'.
    replace (10 * length (b :: data))%nat with (1 + (9 + 10 * length data))%nat
      by (cbn [length]; lia).
    rewrite run_isr_app, run_isr_one. cbn [app]. rewrite Hisr1. cbn [mbind option_bind].
    rewrite run_isr_app, Hrun2. cbn [mbind option_bind].
    split; [exact Hrun|].
    rewrite Hbuf2 in Hsf', Hbuf'. unfold append_byte in Hsf'.
    rewrite <- app_assoc in Hsf'.
    split; [exact Hsf'|].
    split.
    + replace (k + Z.of_nat (length (b :: data)))
        with (k + 1 + Z.of_nat (length data)) by (cbn [length]; lia).
      exact Hat'.
    + rewrite Hbuf'. destruct data as [|b2 data]; [reflexivity|].
      change (List.last (b :: b2 :: data) (byte_buffer_ (read_data d)))
        with (List.last (b2 :: data) (byte_buffer_ (read_data d))).
      apply WaitFacts.last_cons_default.
Qed.


(** *** Whole frames *)

Lemma removelast_last_cons (x : Z) (l : list Z) :
  removelast (x :: l) ++ [List.last l x] = x :: l.
Proof.
  revert x. induction l as [|y l IH]; intros x; [reflexivity|].
  change (removelast (x :: y :: l)) with (x :: removelast (y :: l)).
  cbn [app]. f_equal.
  replace (List.last (y :: l) x) with (List.last l y); [apply IH|].
  destruct l as [|z l]; [reflexivity|].
  change (List.last (y :: z :: l) x) with (List.last (z :: l) x).
  apply WaitFacts.last_cons_default.
Qed.

Lemma identifier_received (d : Decoder) (id : Z) (w : World) :
  ring_ok d ->
  state d = states.DETECT_BREAK ->
  low_bits_counter_ d = 0 ->
  0 <= clock_ticks_per_half_bit (config d) < 65536 ->
  0 <= id < 256 ->
  exists d',
    run_isr 29 d
      (break_wave (clock_ticks_per_half_bit (config d)) ++ byte_wave true 85
       ++ gap_next true ++ bits_wave true id ++ w)
    = Some (d', w) /\
    same_frame d [] d' /\
    at_bit true 1 9 d' /\
    byte_buffer_ (read_data d') = id.
Proof.
  intros Hok Hst Hc HH Hid.
  destruct (break_enters_read_data d
              (byte_wave true 85 ++ gap_next true ++ bits_wave true id ++ w)
              Hok Hst Hc HH) as (d1 & Hrun1 & Hsf1 & Hat1).
  change (byte_wave true 85) with (bits_wave true 85 ++ [level true true]) in *.
  rewrite <- !app_assoc in *.
  destruct (bits_received d d1 [] true 0 85
              ([level true true] ++ gap_next true ++ bits_wave true id ++ w)
              Hsf1 Hat1 ltac:(lia)) as (d2 & Hrun2 & Hsf2 & Hat2 & Hbuf2).
  destruct (stop_tick_more d d2 [] true 0 (level true true)
              (gap_next true ++ bits_wave true id ++ w) true
              (bits_wave true id ++ w)
              Hok Hsf2 Hat2 eq_refl ltac:(lia) ltac:(intros _; exact Hbuf2))
    as (d3 & Hisr3 & Hsf3 & Hat3).
  { apply wait_gap_next. reflexivity. }
  { reflexivity. }
  change (if 0 =? 0 then [] else append_byte (byte_buffer_ (read_data d2)) [])
    with ([] : LinFrame) in Hsf3.
  change (0 + 1) with 1 in Hat3.
  destruct (bits_received d d3 [] true 1 id w Hsf3 Hat3 Hid)
    as (d4 & Hrun4 & Hsf4 & Hat4 & Hbuf4).
  exists d4. change 29%nat with (10 + (9 + (1 + 9)))%nat.
  rewrite run_isr_app, Hrun1. cbn [mbind option_bind].
  cbn [app] in *.
  rewrite run_isr_app, Hrun2. cbn [mbind option_bind].
  rewrite run_isr_app, run_isr_one.
  rewrite Hisr3. cbn [mbind option_bind].
  split; [exact Hrun4|]. split; [exact Hsf4|]. split; [exact Hat4 | exact Hbuf4].
Qed.

(** Up to the stop bit of the last byte: all bytes but the last are
    stored, the last is in the byte buffer. *)
Lemma frame_body (d : Decoder) (id : Z) (data : list Z) (on_lin1 : bool) (w : World) :
  ring_ok d ->
  state d = states.DETECT_BREAK ->
  low_bits_counter_ d = 0 ->
  0 <= clock_ticks_per_half_bit (config d) < 65536 ->
  0 <= id < 256 ->
  Forall (fun b => 0 <= b < 256) data ->
  (length data <= 9)%nat ->
  exists d',
    run_isr (29 + 10 * length data) d (exchange_wave (config d) id data on_lin1 ++ w)
    = Some (d', level (match data with [] => true | _ => on_lin1 end) true :: w) /\
    same_frame d (removelast (id :: data)) d' /\
    at_bit (match data with [] => true | _ => on_lin1 end)
      (1 + Z.of_nat (length data)) 9 d' /\
    byte_buffer_ (read_data d') = List.last data id.
Proof.
  intros Hok Hst Hc HH Hid Hdata Hlen. unfold exchange_wave.
  destruct data as [|b data].
  - rewrite <- !app_assoc.
    destruct (identifier_received d id ([level true true] ++ w) Hok Hst Hc HH Hid)
      as (d1 & Hrun1 & Hsf1 & Hat1 & Hbuf1).
    exists d1. cbn [length removelast List.last].
    change (29 + 10 * 0)%nat with 29%nat. change (1 + Z.of_nat 0) with 1.
    split; [exact Hrun1|]. split; [exact Hsf1|]. split; [exact Hat1 | exact Hbuf1].
  - apply Forall_cons in Hdata as [Hb Hdata]. cbn [length] in Hlen.
    rewrite <- !app_assoc.
    destruct (identifier_received d id
                ([level true true] ++ gap_next on_lin1 ++ bits_wave on_lin1 b
                 ++ more_wave on_lin1 data ++ [level on_lin1 true] ++ w)
                Hok Hst Hc HH Hid)
      as (d1 & Hrun1 & Hsf1 & Hat1 & Hbuf1).
    destruct (stop_tick_more d d1 [] true 1 (level true true)
                (gap_next on_lin1 ++ bits_wave on_lin1 b
                 ++ more_wave on_lin1 data ++ [level on_lin1 true] ++ w) on_lin1
                (bits_wave on_lin1 b ++ more_wave on_lin1 data
                 ++ [level on_lin1 true] ++ w)
                Hok Hsf1 Hat1 eq_refl ltac:(lia) ltac:(lia))
      as (d2 & Hisr2 & Hsf2 & Hat2).
    { apply wait_gap_next. intros Hn. exfalso. apply Hn. reflexivity. }
    { reflexivity. }
    rewrite Hbuf1 in Hsf2.
    change (if 1 =? 0 then [] else append_byte id []) with ([id] : LinFrame) in Hsf2.
    change (1 + 1) with 2 in Hat2.
    destruct (bits_received d d2 [id] on_lin1 2 b
                (more_wave on_lin1 data ++ [level on_lin1 true] ++ w) Hsf2 Hat2 Hb)
      as (d3 & Hrun3 & Hsf3 & Hat3 & Hbuf3).
    destruct (more_received d on_lin1 ([level on_lin1 true] ++ w) data d3 [id] 2
                Hok Hsf3 Hat3 ltac:(lia) ltac:(lia) Hdata ltac:(cbn [length]; lia))
      as (d4 & Hrun4 & Hsf4 & Hat4 & Hbuf4).
    exists d4.
    replace (29 + 10 * length (b :: data))%nat
      with (29 + (1 + (9 + 10 * length data)))%nat by (cbn [length]; lia).
    cbn [app] in *.
    rewrite run_isr_app, Hrun1. cbn [mbind option_bind].
    rewrite run_isr_app, run_isr_one.
    rewrite Hisr2. cbn [mbind option_bind].
    rewrite run_isr_app, Hrun3. cbn [mbind option_bind].
    rewrite Hbuf3 in Hsf4, Hbuf4.
    split; [exact Hrun4|]. split; [exact Hsf4|].
    split.
    + replace (1 + Z.of_nat (length (b :: data))) with (2 + Z.of_nat (length data))
        by (cbn [length]; lia).
      exact Hat4.
    + rewrite Hbuf4. destruct data as [|b2 data]; [reflexivity|].
      change (List.last (b :: b2 :: data) id) with (List.last (b2 :: data) id).
      apply WaitFacts.last_cons_default.
Qed.



(** A start bit after the tenth stored byte: the frame is too long.  The
    error is raised, the decoder returns to Detect-Break, and nothing is
    queued: head and tail stay, so the waiting frames are the same. *)
Theorem eleventh_byte_is_too_long (d : Decoder) (id : Z) (data : list Z)
    (on_lin1 : bool) (w : World) :
  listening d ->
  0 <= id < 256 ->
  Forall (fun b => 0 <= b < 256) data ->
  length data = 9%nat ->
  exists d',
    run_isr (exchange_ticks data) d
      (exchange_wave (config d) id data on_lin1 ++ gap_next on_lin1 ++ w)
    = Some (d', w) /\
    state d' = states.DETECT_BREAK /\
    error_flags d' = Z.lor (error_flags d) errors.FRAME_TOO_LONG /\
    head_frame_buffer d' = head_frame_buffer d /\
    tail_frame_buffer d' = tail_frame_buffer d /\
    queued d' = queued d.
Proof.
  intros (Hok & Hst & Hc & HH & HT) Hid Hdata Hlen.
  destruct (frame_body d id data on_lin1 (gap_next on_lin1 ++ w)
              Hok Hst Hc HH Hid Hdata ltac:(lia))
    as (d1 & Hrun1 & Hsf1 & Hat1 & Hbuf1).
  assert (Hch : match data with [] => true | _ => on_lin1 end = on_lin1)
    by (destruct data; [discriminate Hlen | reflexivity]).
  rewrite Hch in *.
  destruct (stop_tick_too_long d d1 _ on_lin1 _ (level on_lin1 true)
              (gap_next on_lin1 ++ w) on_lin1 w
              Hok Hsf1 Hat1 (isRxHigh_level _ _) ltac:(lia))
    as (d2 & Hisr2 & Hst2 & _ & He2 & Hh2 & Ht2 & _ & Hs2).
  { apply wait_gap_next. reflexivity. }
  { unfold kMaxBytes, num_bytes, append_byte. rewrite Hbuf1, removelast_last_cons.
    cbn [length]. lia. }
  exists d2. unfold exchange_ticks.
  replace (30 + 10 * length data)%nat with (29 + 10 * length data + 1)%nat by lia.
  rewrite run_isr_app, Hrun1. cbn [mbind option_bind].
  rewrite run_isr_one, Hisr2.
  split; [reflexivity|]. split; [exact Hst2|]. split; [exact He2|].
  split; [exact Hh2|]. split; [exact Ht2|].
  rewrite <- (QueueFacts.queued_head_slot
                (append_byte (byte_buffer_ (read_data d1)) (removelast (id :: data)))
                d Hok).
  apply QueueFacts.queued_ext; [exact Hs2 | |]; destruct d; assumption.
Qed.

(** *** Frame after frame *)




Lemma short_low_pulse_is_no_break_witness :
  exists d1 d2,
    run_isr 3 decoder0 [level true false; level true false; level true false;
                        idle 0; idle 0]
    = Some (d1, [idle 0; idle 0]) /\
    low_bits_counter_ d1 = 0 + 3 /\
    ([level true false; level true false; level true false] <> [] ->
     tx2_pin d1 = false) /\
    ISR d1 [idle 0; idle 0] = Some (d2, [idle 0]) /\
    state d2 = states.DETECT_BREAK /\
    low_bits_counter_ d2 = 0 /\
    tx2_pin d2 = true /\
    rx_frame_buffers d2 = rx_frame_buffers decoder0 /\
    head_frame_buffer d2 = head_frame_buffer decoder0 /\
    tail_frame_buffer d2 = tail_frame_buffer decoder0 /\
    error_flags d2 = error_flags decoder0.
Proof.
  apply (short_low_pulse_is_no_break
           [level true false; level true false; level true false]
           decoder0 (idle 0) [idle 0]).
  - reflexivity.
  - vm_compute. discriminate.
  - vm_compute. reflexivity.
  - repeat (constructor; [reflexivity|]). constructor.
  - reflexivity.
Defined.



Lemma eleventh_byte_is_too_long_witness :
  exists d',
    run_isr (exchange_ticks [1; 2; 3; 4; 5; 6; 7; 8; 9]) decoder0
      (exchange_wave (config decoder0) 146 [1; 2; 3; 4; 5; 6; 7; 8; 9] true
       ++ gap_next true ++ [])
    = Some (d', []) /\
    state d' = states.DETECT_BREAK /\
    error_flags d' = Z.lor (error_flags decoder0) errors.FRAME_TOO_LONG /\
    head_frame_buffer d' = head_frame_buffer decoder0 /\
    tail_frame_buffer d' = tail_frame_buffer decoder0 /\
    queued d' = queued decoder0.
Proof.
  apply (eleventh_byte_is_too_long decoder0 146 [1; 2; 3; 4; 5; 6; 7; 8; 9] true []).
  - unfold listening, ring_ok. vm_compute.
    repeat split; first [reflexivity | discriminate].
  - lia.
  - repeat (constructor; [lia|]). constructor.
  - reflexivity.
Defined.




End FrameFacts.

(* ====================================================================== *)
(** ** The decoder invariant *)
(* ====================================================================== *)

Module InvariantFacts.
Import LinDecoder Sim Queue Frames ReadDataFacts FrameFacts.

Lemma next_index_range (i : Z) : 0 <= next_index i < 8.
Proof.
  unfold next_index, kMaxFrameBuffers, u8.
  pose proof (Z.mod_pos_bound (i + 1) 256 ltac:(lia)).
  destruct (Z.geb_spec ((i + 1) mod 256) 8); lia.
Qed.

Ltac split_paths H :=
  repeat match type of H with
    | context [waitForNextStartBit ?a ?b ?c ?w] =>
      destruct (waitForNextStartBit a b c w) as [[[? ?] ?]|] eqn:?;
      cbn [mbind option_bind] in H
    | context [if ?c then _ else _] => destruct c eqn:?
    | context [?m ≫= _] => destruct m as [[? ?]|] eqn:?; cbn [mbind option_bind] in H
    | None = Some _ => discriminate H
    end.

Lemma geb_false_lt (a b : Z) : (a >=? b) = false -> a < b.
Proof. rewrite Z.geb_leb. intros H. apply Z.leb_gt in H. exact H. Qed.

Lemma append_byte_fits (b : Z) (f : LinFrame) :
  num_bytes f < kMaxBytes -> num_bytes (append_byte b f) <= kMaxBytes.
Proof.
  unfold num_bytes, append_byte. rewrite length_app. cbn [length]. lia.
Qed.

Ltac ok_ring :=
  unfold ring_ok; norm_decoder; unfold kMaxFrameBuffers;
  rewrite ?length_insert;
  repeat match goal with
    | |- context [if ?c then _ else _] => destruct c
    end;
  repeat split;
  first [ assumption | apply next_index_range | lia ].

Ltac ok_frames Hroom :=
  norm_decoder;
  first [ assumption
        | apply Forall_insert; [assumption|];
          apply append_byte_fits; apply Hroom; reflexivity ].

Ltac ok_room Hroom :=
  norm_decoder; intros Hst;
  first [ discriminate Hst
        | apply geb_false_lt; assumption
        | apply Hroom; reflexivity ].

Lemma StateReadData_handle_isr_keeps_ok (d : Decoder) (w : World) (d' : Decoder)
    (w' : World) :
  decoder_ok d ->
  state d = states.READ_DATA ->
  StateReadData_handle_isr d w = Some (d', w') ->
  decoder_ok d' /\ config d' = config d /\ isr_marker d' = isr_marker d /\
  (state d' = states.DETECT_BREAK \/ state d' = states.READ_DATA).
Proof.
  intros Hok Hst Hrun. destruct w as [|p w]; [discriminate Hrun|].
  unfold StateReadData_handle_isr in Hrun.
  destruct d as [c s h t m st l [rx nb nbits buf mask] e t1 t2 tc].
  unfold decoder_ok in Hok. destruct Hok as (Hring & Hall & Hroom).
  open_ring Hring. norm_decoder_in Hall. norm_decoder_in Hroom.
  norm_decoder_in Hst. subst st.
  destruct rx; norm_decoder_in Hrun.
  all: split_paths Hrun.
  all: norm_decoder_in Hrun; rewrite ?moveToNextFrame_record in Hrun.
  all: injection Hrun as <- <-.
  all: split; [split; [ok_ring | split; [ok_frames Hroom | ok_room Hroom]]|].
  all: norm_decoder; repeat split; auto.
Qed.

Lemma StateReadData_enter_keeps_ok (d : Decoder) (w : World) (d' : Decoder)
    (w' : World) :
  ring_ok d ->
  Forall (fun f => num_bytes f <= kMaxBytes) (rx_frame_buffers d) ->
  StateReadData_enter d w = Some (d', w') ->
  decoder_ok d' /\ config d' = config d /\ isr_marker d' = isr_marker d /\
  state d' = states.READ_DATA.
Proof.
  intros Hring Hall Hrun. unfold StateReadData_enter in Hrun.
  destruct (waitForRxLow 255 true w) as [[r w1]|]; [|discriminate Hrun].
  cbn [mbind option_bind] in Hrun. injection Hrun as <- <-.
  destruct d as [c s h t m st l [rx nb nbits buf mask] e t1 t2 tc].
  open_ring Hring. norm_decoder_in Hall.
  split; [split; [ok_ring | split]|].
  - norm_decoder. apply Forall_insert; [assumption|].
    unfold reset, num_bytes, kMaxBytes. cbn [length]. lia.
  - norm_decoder. intros _. unfold reset.
    rewrite list_lookup_insert_eq by (unfold LinFrame in *; lia).
    cbn [default from_option id]. unfold num_bytes, kMaxBytes. cbn [length]. lia.
  - norm_decoder. repeat split.
Qed.

Lemma StateDetectBreak_handle_isr_keeps_ok (d : Decoder) (w : World) (d' : Decoder)
    (w' : World) :
  decoder_ok d ->
  state d = states.DETECT_BREAK ->
  StateDetectBreak_handle_isr d w = Some (d', w') ->
  decoder_ok d' /\ config d' = config d /\ isr_marker d' = isr_marker d /\
  (state d' = states.DETECT_BREAK \/ state d' = states.READ_DATA).
Proof.
  intros Hok Hst Hrun. destruct w as [|p w]; [discriminate Hrun|].
  unfold StateDetectBreak_handle_isr in Hrun.
  destruct (rx1_pin p).
  - injection Hrun as <- <-.
    destruct d as [c s h t m st l [rx nb nbits buf mask] e t1 t2 tc].
    destruct Hok as (Hring & Hall & Hroom).
    open_ring Hring. norm_decoder_in Hall. norm_decoder_in Hst. subst st.
    split; [split; [ok_ring | split; [ok_frames Hroom|]]|].
    + norm_decoder. intros Hst. discriminate Hst.
    + norm_decoder. repeat split; auto.
  - match type of Hrun with (if ?c then _ else _) = _ => destruct c end.
    + injection Hrun as <- <-.
      destruct d as [c s h t m st l [rx nb nbits buf mask] e t1 t2 tc].
      destruct Hok as (Hring & Hall & Hroom).
      open_ring Hring. norm_decoder_in Hall. norm_decoder_in Hst. subst st.
      split; [split; [ok_ring | split; [ok_frames Hroom|]]|].
      * norm_decoder. intros Hst. discriminate Hst.
      * norm_decoder. repeat split; auto.
    + destruct (waitForRxHigh 255 true w) as [[r w1]|]; [|discriminate Hrun].
      cbn [mbind option_bind] in Hrun.
      match type of Hrun with (?m ≫= _) = _ => destruct m as [w2|] end;
        [|discriminate Hrun].
      cbn [mbind option_bind] in Hrun.
      apply StateReadData_enter_keeps_ok in Hrun.
      * destruct Hrun as (Hok' & Hc & Hm & Hs).
        split; [exact Hok'|]. rewrite Hc, Hm, Hs.
        destruct d as [c s h t m st l [rx nb nbits buf mask] e t1 t2 tc].
        norm_decoder. repeat split; auto.
      * destruct d as [c s h t m st l [rx nb nbits buf mask] e t1 t2 tc].
        destruct Hok as (Hring & _). open_ring Hring. ok_ring.
      * destruct d as [c s h t m st l [rx nb nbits buf mask] e t1 t2 tc].
        destruct Hok as (_ & Hall & _). norm_decoder_in Hall. norm_decoder.
        exact Hall.
Qed.

(** The three branches of [ISR] and its marker step. *)
Lemma ISR_ok (d : Decoder) (w : World) (d' : Decoder) (w' : World) :
  decoder_ok d ->
  ISR d w = Some (d', w') ->
  decoder_ok d' /\
  config d' = config d /\
  isr_marker d' = u8 (isr_marker d + 1) /\
  (state d' = states.DETECT_BREAK \/ state d' = states.READ_DATA).
Proof.
  intros Hok Hrun. unfold ISR in Hrun.
  assert (Hmark : forall d1 : Decoder,
    decoder_ok d1 /\ config d1 = config d /\ isr_marker d1 = isr_marker d /\
    (state d1 = states.DETECT_BREAK \/ state d1 = states.READ_DATA) ->
    let d2 := with_isr_marker (u8 (isr_marker d1 + 1)) d1 in
    decoder_ok d2 /\ config d2 = config d /\
    isr_marker d2 = u8 (isr_marker d + 1) /\
    (state d2 = states.DETECT_BREAK \/ state d2 = states.READ_DATA)).
  { intros d1 (Hok1 & Hc & Hm & Hs). rewrite <- Hm.
    destruct d1 as [c s h t m st l [rx nb nbits buf mask] e t1 t2 tc].
    split; [|norm_decoder; norm_decoder_in Hc; norm_decoder_in Hs; auto].
    exact Hok1. }
  destruct (state d =? states.DETECT_BREAK) eqn:Hdb.
  - apply Z.eqb_eq in Hdb.
    destruct (StateDetectBreak_handle_isr d w) as [[d1 w1]|] eqn:Hh;
      [|discriminate Hrun].
    cbn [mbind option_bind] in Hrun. injection Hrun as <- <-.
    apply Hmark. eapply StateDetectBreak_handle_isr_keeps_ok; eauto.
  - destruct (state d =? states.READ_DATA) eqn:Hrd.
    + apply Z.eqb_eq in Hrd.
      destruct (StateReadData_handle_isr d w) as [[d1 w1]|] eqn:Hh;
        [|discriminate Hrun].
      cbn [mbind option_bind] in Hrun. injection Hrun as <- <-.
      apply Hmark. eapply StateReadData_handle_isr_keeps_ok; eauto.
    + cbn [mbind option_bind] in Hrun. injection Hrun as <- <-.
      apply (Hmark (StateDetectBreak_enter (setErrorFlags errors.OTHER d))).
      clear Hmark Hdb Hrd.
      destruct d as [c s h t m st l [rx nb nbits buf mask] e t1 t2 tc].
      destruct Hok as (Hring & Hall & Hroom).
      open_ring Hring. norm_decoder_in Hall.
      split; [split; [ok_ring | split; [ok_frames Hroom|]]|].
      * norm_decoder. intros Hst. discriminate Hst.
      * norm_decoder. repeat split; auto.
Qed.

Lemma setup_decoder_ok (k baud : Z) : decoder_ok (setup k baud power_on).
Proof.
  unfold setup, power_on, setupBuffers. 
  split; [ok_ring | split].
  - norm_decoder. unfold kMaxFrameBuffers. cbn [Z.to_nat Pos.to_nat Pos.iter_op Init.Nat.add replicate].
    repeat constructor; unfold num_bytes, kMaxBytes; cbn [length]; lia.
  - norm_decoder. intros Hst. discriminate Hst.
Qed.

Lemma run_isr_keeps_ok (n : nat) : forall (d : Decoder) (w : World) (d' : Decoder)
    (w' : World),
  decoder_ok d ->
  run_isr n d w = Some (d', w') ->
  decoder_ok d' /\ config d' = config d.
Proof.
  induction n as [|n IH]; intros d w d' w' Hok Hrun.
  - injection Hrun as <- <-. split; [exact Hok | reflexivity].
  - cbn [run_isr] in Hrun.
    destruct (ISR d w) as [[d1 w1]|] eqn:Hisr; [|discriminate Hrun].
    cbn [mbind option_bind] in Hrun.
    destruct (ISR_ok _ _ _ _ Hok Hisr) as (Hok1 & Hc1 & _).
    destruct (IH _ _ _ _ Hok1 Hrun) as (Hok' & Hc'). split; [exact Hok'|].
    congruence.
Qed.

Lemma readNextFrame_locked_keeps_ok (d : Decoder) (buffer : LinFrame) :
  decoder_ok d ->
  let '(r, f, d') := readNextFrame_locked d buffer in
  decoder_ok d' /\ (r = true -> num_bytes f <= kMaxBytes).
Proof.
  intros Hok. unfold readNextFrame_locked.
  destruct (tail_frame_buffer d =? head_frame_buffer d) eqn:Hth; cbn [negb].
  - split; [exact Hok | discriminate].
  - destruct d as [c s h t m st l [rx nb nbits buf mask] e t1 t2 tc].
    destruct Hok as (Hring & Hall & Hroom).
    open_ring Hring. norm_decoder_in Hall. norm_decoder_in Hroom.
    norm_decoder_in Hth. apply Z.eqb_neq in Hth.
    unfold incrementTailFrameBuffer. norm_decoder.
    change (if u8 (t + 1) >=? kMaxFrameBuffers then 0 else u8 (t + 1))
      with (next_index t).
    split; [split; [unfold ring_ok; norm_decoder; unfold kMaxFrameBuffers;
                    repeat split;
                    first [assumption | apply next_index_range | lia]
                   | split; [ok_frames Hroom | norm_decoder; exact Hroom]]|].
    intros _.
    destruct (s !! Z.to_nat t) as [f|] eqn:Hf; cbn [default from_option id].
    + eapply Forall_lookup_1 in Hall; [|exact Hf]. exact Hall.
    + unfold num_bytes, kMaxBytes. cbn [length]. lia.
Qed.

(** No frame outgrows its buffer: from [setup] on, after any number of
    interrupts and calls of [readNextFrame] interleaved, a frame handed to
    the consumer has at most [kMaxBytes] bytes. *)
Theorem frames_read_fit_the_buffer (k baud : Z) (n : nat) (w : World) (d : Decoder)
    (w1 : World) (buffer f : LinFrame) (d' : Decoder) (w' : World) :
  run_isr n (setup k baud power_on) w = Some (d, w1) ->
  readNextFrame d w1 buffer = Some (true, f, d', w') ->
  num_bytes f <= kMaxBytes /\ decoder_ok d'.
Proof.
  intros Hrun Hread.
  destruct (run_isr_keeps_ok n _ _ _ _ (setup_decoder_ok k baud) Hrun) as (Hok & _).
  unfold readNextFrame, waitForIsrEnd in Hread.
  destruct (ISR d w1) as [[d1 w2]|] eqn:Hisr; [|discriminate Hread].
  cbn [mbind option_bind] in Hread.
  destruct (ISR_ok _ _ _ _ Hok Hisr) as (Hok1 & _).
  pose proof (readNextFrame_locked_keeps_ok d1 buffer Hok1) as Hl.
  destruct (readNextFrame_locked d1 buffer) as [[r f1] d2].
  injection Hread as -> -> -> ->. destruct Hl as (Hok2 & Hf).
  split; [apply Hf; reflexivity | exact Hok2].
Qed.

(** Every run of the interrupt handler keeps the decoder well formed: the
    indices stay inside the ring of eight slots, no slot holds more than
    [kMaxBytes] bytes, and a frame under construction has room for the next
    byte.  The handler leaves the configuration alone, steps the marker by
    one, and ends in one of the two states, whatever state value it found. *)
Theorem ISR_keeps_decoder_ok (d : Decoder) (w : World) (d' : Decoder) (w' : World) :
  decoder_ok d ->
  ISR d w = Some (d', w') ->
  decoder_ok d' /\
  config d' = config d /\
  isr_marker d' = u8 (isr_marker d + 1) /\
  (state d' = states.DETECT_BREAK \/ state d' = states.READ_DATA).
Proof. apply ISR_ok. Qed.

Lemma ISR_keeps_decoder_ok_witness :
  decoder_ok (with_isr_marker 1 decoder0) /\
  config (with_isr_marker 1 decoder0) = config decoder0 /\
  isr_marker (with_isr_marker 1 decoder0) = u8 (isr_marker decoder0 + 1) /\
  (state (with_isr_marker 1 decoder0) = states.DETECT_BREAK \/
   state (with_isr_marker 1 decoder0) = states.READ_DATA).
Proof.
  apply (ISR_keeps_decoder_ok decoder0 [idle 0] (with_isr_marker 1 decoder0) []).
  - unfold decoder_ok, ring_ok. vm_compute.
    repeat split; try congruence.
    repeat (constructor; [discriminate|]). constructor.
  - vm_compute. reflexivity.
Defined.

Lemma frames_read_fit_the_buffer_witness :
  num_bytes [146; 170; 85] <= kMaxBytes /\
  decoder_ok
    (default decoder0
       ((fun r => r.1.2) <$>
        readNextFrame
          (default decoder0
             (fst <$> run_isr 50 decoder0
                        (traffic (config decoder0) [(146, [170; 85], false)]
                         ++ [idle 0])))
          [idle 0] [])).
Proof.
  apply (frames_read_fit_the_buffer 250 9600 50
           (traffic (config decoder0) [(146, [170; 85], false)] ++ [idle 0])
           (default decoder0
              (fst <$> run_isr 50 decoder0
                         (traffic (config decoder0) [(146, [170; 85], false)]
                          ++ [idle 0])))
           [idle 0] [] [146; 170; 85] _ []).
  - vm_compute. reflexivity.
  - vm_compute. reflexivity.
Defined.

End InvariantFacts.

(* ====================================================================== *)
(** ** Facts about the error report *)
(* ====================================================================== *)

Module ConsoleFacts.
Import LinDecoder Console.

Lemma append_empty (s : string) : s +:+ EmptyString = s.
Proof.
  induction s as [|a s IH]; [reflexivity|].
  change (String a (s +:+ EmptyString) = String a s). f_equal. exact IH.
Qed.

Lemma append_assoc (s t u : string) : (s +:+ t) +:+ u = s +:+ (t +:+ u).
Proof.
  induction s as [|a s IH]; [reflexivity|].
  change (String a ((s +:+ t) +:+ u) = String a (s +:+ (t +:+ u))).
  f_equal. exact IH.
Qed.

Lemma concat_spaced (n : string) (names : list string) :
  String.concat " " (n :: names) = n +:+ spaced names.
Proof.
  revert n. induction names as [|m names IH]; intros n.
  - cbn. rewrite append_empty. reflexivity.
  - change (String.concat " " (n :: m :: names))
      with (n +:+ " " +:+ String.concat " " (m :: names)).
    rewrite IH. reflexivity.
Qed.

Lemma printErrorFlags_loop_printed (table : list BitName) (lin_errors : Z)
    (out : string) :
  printErrorFlags_loop table lin_errors true out
  = out +:+ spaced (names_of table lin_errors).
Proof.
  revert out. induction table as [|row table IH]; intros out.
  - cbn. rewrite append_empty. reflexivity.
  - cbn [printErrorFlags_loop]. unfold names_of. rewrite filter_cons.
    destruct (decide (nonzero (Z.land lin_errors (mask row)) = true)) as [Hy|Hn].
    + rewrite Hy. rewrite IH. cbn [fmap list_fmap spaced].
      unfold names_of. rewrite !append_assoc. reflexivity.
    + apply not_true_is_false in Hn. rewrite Hn. apply IH.
Qed.

Lemma printErrorFlags_loop_fresh (table : list BitName) (lin_errors : Z)
    (out : string) :
  printErrorFlags_loop table lin_errors false out
  = out +:+ String.concat " " (names_of table lin_errors).
Proof.
  revert out. induction table as [|row table IH]; intros out.
  - cbn. rewrite append_empty. reflexivity.
  - cbn [printErrorFlags_loop]. unfold names_of. rewrite filter_cons.
    destruct (decide (nonzero (Z.land lin_errors (mask row)) = true)) as [Hy|Hn].
    + rewrite Hy. rewrite printErrorFlags_loop_printed.
      cbn [fmap list_fmap]. rewrite concat_spaced.
      unfold names_of. rewrite append_assoc. reflexivity.
    + apply not_true_is_false in Hn. rewrite Hn. apply IH.
Qed.

Lemma names_of_none (table : list BitName) (lin_errors : Z) :
  (forall row, In row table -> nonzero (Z.land lin_errors (mask row)) = false) ->
  names_of table lin_errors = [].
Proof.
  induction table as [|row table IH]; intros Hnone; [reflexivity|].
  unfold names_of. rewrite filter_cons.
  destruct (decide (nonzero (Z.land lin_errors (mask row)) = true)) as [Hy|Hn].
  - rewrite (Hnone row (or_introl eq_refl)) in Hy. discriminate Hy.
  - apply IH. intros row' Hrow'. apply Hnone. right. exact Hrow'.
Qed.

(** [printErrorFlags] writes the names of the error kinds present in the
    mask, in the order of the table, with one space between two names and
    none before the first or after the last; a mask without any known bit
    writes nothing. *)
Theorem printErrorFlags_lists_set_bits (lin_errors : Z) (out : string) :
  printErrorFlags lin_errors out
  = out +:+ String.concat " " (names_of kErrorBitNames lin_errors) /\
  (forall row, In row kErrorBitNames ->
     (In (name row) (names_of kErrorBitNames lin_errors)
      <-> Z.land lin_errors (mask row) <> 0)) /\
  (Z.land lin_errors 127 = 0 -> printErrorFlags lin_errors out = out).
Proof.
  split; [apply printErrorFlags_loop_fresh|]. split.
  - intros row Hrow. unfold names_of. rewrite <- list_elem_of_In.
    rewrite list_elem_of_fmap. split.
    + intros (row' & Hname & Hin). apply list_elem_of_filter in Hin.
      destruct Hin as [Hset Hin].
      assert (row' = row) as ->.
      { apply list_elem_of_In in Hin.
        cbn in Hrow, Hin.
        repeat (destruct Hrow as [<-|Hrow]); try contradiction;
        repeat (destruct Hin as [<-|Hin]); try contradiction;
        first [reflexivity | discriminate Hname]. }
      unfold nonzero in Hset. apply negb_true_iff, Z.eqb_neq in Hset. exact Hset.
    + intros Hset. exists row. split; [reflexivity|].
      apply list_elem_of_filter. split.
      * unfold nonzero. apply negb_true_iff, Z.eqb_neq. exact Hset.
      * apply list_elem_of_In. exact Hrow.
  - intros Hnone. unfold printErrorFlags. rewrite printErrorFlags_loop_fresh.
    rewrite names_of_none; [apply append_empty|].
    intros row Hrow. cbn in Hrow.
    repeat (destruct Hrow as [<-|Hrow]); try contradiction; cbn [mask];
      unfold nonzero; apply negb_false_iff, Z.eqb_eq;
      match goal with |- Z.land _ ?m = 0 => change m with (Z.land 127 m) end;
      rewrite Z.land_assoc, Hnone; reflexivity.
Qed.

End ConsoleFacts.

(* ====================================================================== *)
(** ** Error detection by the frame validator *)
(* ====================================================================== *)

Module ValidatorFacts.
Import Proto ProtoFacts.

Lemma flipped_id_differs (b : Z) :
  0 <= b < 256 ->
  b = setIdChecksumBits b ->
  forall i, 0 <= i < 8 ->
  let b' := Z.lxor b (Z.shiftl 1 i) in
  (b' =? setIdChecksumBits b') = false.
Proof.
  intros Hb Hid i Hi.
  pose (P := fun b => implb (b =? setIdChecksumBits b)
                (forallb (fun i => negb (Z.lxor b (Z.shiftl 1 i)
                                         =? setIdChecksumBits (Z.lxor b (Z.shiftl 1 i))))
                   [0; 1; 2; 3; 4; 5; 6; 7])).
  assert (Hall : P b = true).
  { apply forall_bytes; [vm_compute; reflexivity | exact Hb]. }
  subst P. cbv beta in Hall. rewrite <- Hid, Z.eqb_refl in Hall. cbn [implb] in Hall.
  rewrite forallb_forall in Hall.
  apply negb_true_iff. apply Hall.
  assert (i = 0 \/ i = 1 \/ i = 2 \/ i = 3 \/ i = 4 \/ i = 5 \/ i = 6 \/ i = 7)
    as Hcases by lia.
  cbn [In]. intuition auto.
Qed.

(** The two parity bits of the identifier byte catch every single-bit
    error: a frame whose first byte is a valid protected identifier with
    any one of its eight bits flipped is rejected, whatever its size and
    other bytes. *)
Theorem isFrameValid_rejects_flipped_id_bit (kV2Checksum : bool) (b i : Z)
    (rest : list Z) (n : Z) :
  0 <= b < 256 ->
  b = setIdChecksumBits b ->
  0 <= i < 8 ->
  isFrameValid kV2Checksum (mkRxFrameBuffer (Z.lxor b (Z.shiftl 1 i) :: rest) n)
  = false.
Proof.
  intros Hb Hid Hi. unfold isFrameValid.
  cbn [num_bytes byte_at bytes lookup list_lookup default from_option id].
  rewrite (flipped_id_differs b Hb Hid i Hi). cbn [negb].
  destruct (negb (n =? 1) && ((n <? 3) || (n >? 10))); reflexivity.
Qed.

Lemma isFrameValid_rejects_flipped_id_bit_witness :
  isFrameValid false (mkRxFrameBuffer [Z.lxor 146 (Z.shiftl 1 3); 170; 85] 3) = false.
Proof.
  apply (isFrameValid_rejects_flipped_id_bit false 146 3 [170; 85] 3).
  - lia.
  - reflexivity.
  - lia.
Defined.

Lemma sum_changed (l1 l2 : list Z) (b b' : Z) (skip keep : nat) :
  (skip <= length l1 < keep)%nat ->
  foldr Z.add 0 (drop skip (take keep (l1 ++ b' :: l2)))
  = foldr Z.add 0 (drop skip (take keep (l1 ++ b :: l2))) - b + b'.
Proof.
  intros Hpos.
  assert (Hsum : forall x y : list Z,
            foldr Z.add 0 (x ++ y) = foldr Z.add 0 x + foldr Z.add 0 y).
  { induction x as [|a x IH]; intros y; cbn [foldr app]; [lia|]. rewrite IH. lia. }
  rewrite !take_app_ge by lia.
  rewrite !drop_app_le by lia.
  replace (keep - length l1)%nat with (S (keep - length l1 - 1)) by lia.
  cbn [take]. rewrite !Hsum. cbn [foldr]. lia.
Qed.

Lemma fold_residue (s r : Z) : 0 <= s -> folds_to s r -> (r - s) mod 255 = 0.
Proof.
  intros Hs Hfold. apply folds_to_mod_255 in Hfold. subst r.
  destruct (Z.eqb_spec s 0) as [->|Hne]; [reflexivity|].
  Z.to_euclidean_division_equations. lia.
Qed.

(** The checksum catches a changed byte: in a frame that passes
    [isFrameValid], replacing one byte of the checksummed range by a byte
    that is not congruent to it modulo 255 gives a frame that fails.  (The
    end-around carry makes 0x00 and 0xFF the only pair of bytes that are
    congruent.) *)
Theorem isFrameValid_rejects_changed_byte (kV2Checksum : bool) (l1 l2 : list Z)
    (b b' : Z) (n : Z) :
  buffer_ok (mkRxFrameBuffer (l1 ++ b :: l2) n) ->
  0 <= b' < 256 ->
  (if kV2Checksum then 0 else 1) <= Z.of_nat (length l1) < n - 1 ->
  (b - b') mod 255 <> 0 ->
  isFrameValid kV2Checksum (mkRxFrameBuffer (l1 ++ b :: l2) n) = true ->
  isFrameValid kV2Checksum (mkRxFrameBuffer (l1 ++ b' :: l2) n) = false.
Proof.
  intros Hok Hb' Hpos Hdiff Hvalid.
  assert (Hok' : buffer_ok (mkRxFrameBuffer (l1 ++ b' :: l2) n)).
  { destruct Hok as (Hlen & Hall & Hn). unfold buffer_ok.
    cbn [bytes num_bytes] in *.
    split; [|split; [|exact Hn]].
    - rewrite length_app in *. cbn [length] in *. exact Hlen.
    - apply Forall_app in Hall. destruct Hall as [H1 H2].
      apply Forall_app. split; [exact H1|].
      apply Forall_cons in H2. destruct H2 as [_ H2].
      apply Forall_cons. split; [exact Hb' | exact H2]. }
  unfold isFrameValid in Hvalid |- *. cbn [num_bytes] in Hvalid |- *.
  destruct (negb (n =? 1) && ((n <? 3) || (n >? 10))) eqn:Hsize;
    [discriminate Hvalid|].
  assert (Hn : 3 <= n <= 10).
  { apply andb_false_iff in Hsize. destruct Hsize as [H1|H2].
    - apply negb_false_iff, Z.eqb_eq in H1. lia.
    - apply orb_false_iff in H2. destruct H2 as [H2 H3].
      apply Z.ltb_ge in H2. rewrite Z.gtb_ltb in H3. apply Z.ltb_ge in H3. lia. }
  destruct (negb (_ =? setIdChecksumBits _)) in Hvalid; [discriminate Hvalid|].
  destruct (negb (_ =? setIdChecksumBits _)); [reflexivity|].
  assert (Hgt : (n >? 1) = true) by (rewrite Z.gtb_ltb; apply Z.ltb_lt; lia).
  rewrite Hgt in Hvalid |- *. cbn [andb] in Hvalid |- *.
  match type of Hvalid with (if negb ?c then _ else _) = _ =>
    destruct c eqn:Hsum; [|discriminate Hvalid] end.
  apply Z.eqb_eq in Hsum.
  match goal with |- (if negb ?c then _ else _) = _ =>
    destruct c eqn:Hsum'; [|reflexivity] end.
  apply Z.eqb_eq in Hsum'. exfalso.
  assert (Hlast : byte_at (mkRxFrameBuffer (l1 ++ b' :: l2) n) (Z.to_nat (n - 1))
                  = byte_at (mkRxFrameBuffer (l1 ++ b :: l2) n) (Z.to_nat (n - 1))).
  { unfold byte_at. cbn [bytes].
    rewrite !lookup_app_r by lia.
    replace (Z.to_nat (n - 1) - length l1)%nat
      with (S (Z.to_nat (n - 1) - length l1 - 1)) by lia.
    reflexivity. }
  rewrite Hlast, Hsum in Hsum'.
  destruct (frameChecksum_spec kV2Checksum _ Hok Hn) as [Hf1 Hc1].
  destruct (frameChecksum_spec kV2Checksum _ Hok' Hn) as [Hf2 Hc2].
  cbv zeta in Hf1, Hc1, Hf2, Hc2. rewrite Hc1, Hc2 in Hsum'.
  assert (Hr : fold_carry (foldr Z.add 0
                 (checksum_range kV2Checksum (mkRxFrameBuffer (l1 ++ b :: l2) n)))
               = fold_carry (foldr Z.add 0
                 (checksum_range kV2Checksum (mkRxFrameBuffer (l1 ++ b' :: l2) n)))).
  { apply (f_equal (fun x => Z.lxor x 255)) in Hsum'.
    rewrite !Z.lxor_assoc, !Z.lxor_nilpotent, !Z.lxor_0_r in Hsum'. exact Hsum'. }
  unfold checksum_range in Hf1, Hf2, Hr. cbn [bytes num_bytes] in Hf1, Hf2, Hr.
  assert (Hs1 : 0 <= foldr Z.add 0 (drop (if kV2Checksum then 0%nat else 1%nat)
                                      (take (Z.to_nat n - 1) (l1 ++ b :: l2)))).
  { apply foldr_add_bound, Forall_drop, Forall_take. exact (proj1 (proj2 Hok)). }
  assert (Hs2 : 0 <= foldr Z.add 0 (drop (if kV2Checksum then 0%nat else 1%nat)
                                      (take (Z.to_nat n - 1) (l1 ++ b' :: l2)))).
  { apply foldr_add_bound, Forall_drop, Forall_take. exact (proj1 (proj2 Hok')). }
  rewrite (sum_changed l1 l2 b b') in Hf2, Hr, Hs2 by (destruct kV2Checksum; lia).
  set (s := foldr Z.add 0 _) in *.
  apply fold_residue in Hf1; [|lia]. apply fold_residue in Hf2; [|lia].
  rewrite <- Hr in Hf2. clearbody s.
  Z.to_euclidean_division_equations. lia.
Qed.

Lemma isFrameValid_rejects_changed_byte_witness :
  isFrameValid false (mkRxFrameBuffer [146; 171; 85; 0; 0; 0; 0; 0; 0; 0] 3) = false.
Proof.
  apply (isFrameValid_rejects_changed_byte false [146] [85; 0; 0; 0; 0; 0; 0; 0]
           170 171 3).
  - unfold buffer_ok. cbn [bytes num_bytes length].
    split; [reflexivity|]. split; [|lia].
    repeat (apply Forall_cons; split; [lia|]). apply Forall_nil. exact I.
  - lia.
  - cbn [length]. lia.
  - vm_compute. discriminate.
  - vm_compute. reflexivity.
Defined.

End ValidatorFacts.

(* ====================================================================== *)
(** ** Instances of the general lemmas *)
(* ====================================================================== *)

Module Instances.
Import LinDecoder Sim.

Lemma Config_set_bit_counts_witness :
  31 <= counts_per_bit (Config_set 250 19200) <= 250 /\
  17 <= counts_per_half_bit (Config_set 250 19200) <= counts_per_bit (Config_set 250 19200) /\
  12 <= clock_ticks_per_bit (Config_set 250 19200) <= 250 /\
  6 <= clock_ticks_per_half_bit (Config_set 250 19200)
    <= clock_ticks_per_bit (Config_set 250 19200).
Proof. apply (ConfigFacts.Config_set_bit_counts 19200). lia. Defined.

Lemma Config_set_until_start_bit_zero_witness :
  clock_ticks_per_until_start_bit (Config_set 250 1940) = 0 <-> 1938 <= 1940 <= 1953.
Proof. apply (ConfigFacts.Config_set_until_start_bit_zero 1940). lia. Defined.

Lemma start_bit_high_witness :
  exists d',
    StateReadData_handle_isr (with_state states.READ_DATA decoder0) [idle 0]
    = Some (d', []) /\
    state d' = states.DETECT_BREAK /\
    error_flags d'
    = Z.lor (error_flags (with_state states.READ_DATA decoder0))
        (if bytes_read_ (read_data (with_state states.READ_DATA decoder0)) =? 0
         then errors.SYNC_BYTE else errors.START_BIT).
Proof.
  apply (ReadDataFacts.start_bit_high (with_state states.READ_DATA decoder0)
           (idle 0) []).
  - reflexivity.
  - reflexivity.
Defined.

End Instances.
